(** * Dice configuration: cross-tab synchronisation store and validation service

    A shallow embedding of

    - [frontend/src/domain/diceConfig/stores/diceConfigStore.ts]
      (the zustand store, its rehydration hook, the [storage] event listener
      and the polling fallback), in [Module Store];
    - [backend/src/services/diceConfig/diceConfigService.ts] and
      [diceConfigValidation.ts] (the validation service), in [Module Service].

    [Module Controller] adds the controller of the service, [Module Client]
    the client's form schemas, API service, hook and selector component.

    Conventions of the embedding.

    - A JavaScript [number] that holds a point in time or a counter is an
      integer of [Z].  A number of a request body is a rational of [Q], an
      infinity or NaN; [parseInt] rounds the integer it reads to the nearest
      double and overflows to [Infinity].  The quotient [1 / sides] is kept
      as the rational of which the code holds the nearest double, and no
      statement relies on its being exact.
    - [Date.now()] and [generateSyncKey()] are not functions of the state:
      every operation that calls them takes the value read as an argument.
    - Code that acts on the store runs in the [Effect] monad of [Module
      Store]: it leaves a tab behind and returns or throws.  The store is
      wrapped in zustand's [persist] middleware, so every [set] is followed by
      a write to [localStorage], which throws where the browser refuses
      it. *)

From Stdlib Require Import ZArith QArith List String Ascii Bool Lia.
From Stdlib Require Import DecimalString DecimalPos.
Import ListNotations.

Local Open Scope string_scope.
Local Open Scope Z_scope.

(** ** Exceptions *)

Inductive Exn : Type :=
| SyntaxError      (* JSON.parse on text that is not JSON *)
| TypeError        (* property read on null or undefined *)
| DOMException.    (* a Storage method refused the call *)

Inductive Result (A : Type) : Type :=
| Ok (a : A)
| Throw (e : Exn).

Arguments Ok {A} a.
Arguments Throw {A} e.

(** Decimal rendering of an integer, as a template literal renders an
    integral number (below 10^21 in absolute value). *)
Definition toString (z : Z) : string :=
  NilZero.string_of_int (Z.to_int z).

Module Store.

(** ** Data model ([types/models.ts]) *)

Inductive SelectionMethod : Type := predefined | custom.

Inductive StorageType : Type := localStorage | sessionStorage | unavailable.

Definition StorageType_eqb (a b : StorageType) : bool :=
  match a, b with
  | localStorage, localStorage
  | sessionStorage, sessionStorage
  | unavailable, unavailable => true
  | _, _ => false
  end.

Record DiceConfig : Type := mkDiceConfig {
  diceSides : Z;
  selectionMethod : SelectionMethod;
  probabilityRange : Z * Z;          (* min, max *)
  individualProbability : Q;
  displayFormat : string
}.

Record SessionConfig : Type := mkSessionConfig {
  sc_diceSides : Z;
  sc_selectionMethod : SelectionMethod;
  timestamp : Z;
  sc_storageType : StorageType;
  syncKey : string
}.

(** [Partial<SessionConfig>]: every member may be missing. *)
Record PartialSessionConfig : Type := mkPartial {
  u_diceSides : option Z;
  u_selectionMethod : option SelectionMethod;
  u_timestamp : option Z;
  u_storageType : option StorageType;
  u_syncKey : option string
}.

Definition no_updates : PartialSessionConfig :=
  mkPartial None None None None None.

(** The data members of [DiceConfigStore]; its actions are the functions
    below. *)
Record DiceConfigStore : Type := mkStore {
  config : option DiceConfig;
  sessionConfig : option SessionConfig;
  storageType : StorageType;
  syncRetryCount : Z;
  pollingActive : bool
}.

(** One browser tab: the store's current state, the module-level
    [pollingInterval] and the console.  A running interval is represented by
    the state object its callback closed over: zustand's [set] builds a new
    state object each time, so the callback keeps reading the one it was
    created with. *)
Record Tab : Type := mkTab {
  store : DiceConfigStore;
  pollingInterval : option DiceConfigStore;
  console : list string
}.

Definition SESSION_EXPIRY_MS : Z := 24 * 60 * 60 * 1000.

Definition generateSyncKey (now : Z) (random : string) : string :=
  "dice-config-" ++ toString now ++ "-" ++ random.

Definition isSessionExpired (now : Z) (timestamp : Z) : bool :=
  now - timestamp >? SESSION_EXPIRY_MS.

(** ** Storage media and [getStorageType] *)

Inductive StorageObject : Type := localStorageObject | sessionStorageObject.

Inductive StorageMethod : Type := setItem | getItem | removeItem.

(** What the browser lets the page do: which Storage calls throw. *)
Record Browser : Type := mkBrowser {
  throws : StorageObject -> StorageMethod -> bool
}.

Definition Trace : Type := list (StorageObject * StorageMethod).

(** A Storage call: it is recorded, and throws if the browser says so. *)
Definition call (b : Browser) (o : StorageObject) (m : StorageMethod)
  (tr : Trace) : Result unit * Trace :=
  (if throws b o m then Throw DOMException else Ok tt, (tr ++ [(o, m)])%list).

(** The body of each [try] block: [setItem(testKey, 'test')] then
    [removeItem(testKey)]. *)
Definition probe (b : Browser) (o : StorageObject) (tr : Trace)
  : Result unit * Trace :=
  match call b o setItem tr with
  | (Ok _, tr1) => call b o removeItem tr1
  | (Throw e, tr1) => (Throw e, tr1)
  end.

Definition getStorageType_traced (b : Browser) : StorageType * Trace :=
  match probe b localStorageObject [] with
  | (Ok _, tr) => (localStorage, tr)
  | (Throw _, tr) =>
      match probe b sessionStorageObject tr with
      | (Ok _, tr') => (sessionStorage, tr')
      | (Throw _, tr') => (unavailable, tr')
      end
  end.

Definition getStorageType (b : Browser) : StorageType :=
  fst (getStorageType_traced b).

(** ** Code that acts on the tab

    An action, a handler or the hook leaves a tab behind and returns or
    throws; what it has done to the store before throwing stays done. *)

Definition Effect (A : Type) : Type := Tab -> Tab * Result A.

Definition ret {A : Type} (a : A) : Effect A := fun t => (t, Ok a).

(** A computation that does not touch the tab, and may throw. *)
Definition lift {A : Type} (r : Result A) : Effect A := fun t => (t, r).

Definition bind {A B : Type} (m : Effect A) (k : A -> Effect B) : Effect B :=
  fun t =>
    match m t with
    | (t1, Ok a) => k a t1
    | (t1, Throw e) => (t1, Throw e)
    end.

(** [try { body } catch (error) { handler }]: the handler starts from the tab
    the body had reached. *)
Definition try_catch {A : Type} (body : Effect A) (handler : Exn -> Effect A)
  : Effect A :=
  fun t =>
    match body t with
    | (t1, Ok a) => (t1, Ok a)
    | (t1, Throw e) => handler e t1
    end.

Notation "x <- m ;; k" := (bind m (fun x => k))
  (at level 61, m at next level, right associativity).

Notation "m ;; k" := (bind m (fun _ => k))
  (at level 61, right associativity).

(** [useDiceConfigStore.getState()] *)
Definition getState : Effect DiceConfigStore := fun t => (t, Ok (store t)).

Definition console_error (msg : string) : Effect unit :=
  fun t => (mkTab (store t) (pollingInterval t) (console t ++ [msg])%list, Ok tt).

(** ** The store: the subscriber, [set] under [persist], the actions *)

(** The listener passed to [useDiceConfigStore.subscribe]: it starts the
    interval when polling is active and none runs, and clears it when polling
    is off and one runs. *)
Definition subscriber (t : Tab) : Tab :=
  let state := store t in
  match pollingActive state, pollingInterval t with
  | true, None => mkTab state (Some state) (console t)
  | false, Some _ => mkTab state None (console t)
  | _, _ => t
  end.

(** zustand's own [setState]: merge the partial state, then notify the
    listener. *)
Definition setState (partial : DiceConfigStore -> DiceConfigStore) (t : Tab)
  : Tab :=
  subscriber (mkTab (partial (store t)) (pollingInterval t) (console t)).

(** The write of the [persist] middleware: [localStorage.setItem] of the
    store's key with the partialized state.  No [storage] option is given, so
    it goes to [localStorage] whatever [storageType] says. *)
Definition persist_write (b : Browser) : Result unit :=
  if throws b localStorageObject setItem then Throw DOMException else Ok tt.

(** The [set] the store's creator receives from [persist]: [setState], then
    the write.  Where the write throws, the state has been set and the
    listener notified already. *)
Definition set (b : Browser) (partial : DiceConfigStore -> DiceConfigStore)
  : Effect unit :=
  fun t => (setState partial t, persist_write b).

Definition setConfig (b : Browser) (now : Z) (key : string) (cfg : DiceConfig)
  : Effect unit :=
  fun t =>
    let timestamp := now in
    let syncKey := key in
    set b (fun s =>
             mkStore (Some cfg)
                     (Some (mkSessionConfig (diceSides cfg) (selectionMethod cfg)
                                            timestamp (storageType (store t))
                                            syncKey))
                     (storageType s) (syncRetryCount s) (pollingActive s)) t.

Definition or_else {A : Type} (o : option A) (d : A) : A :=
  match o with Some a => a | None => d end.

(** [{ ...current, ...updates, timestamp: Date.now() }] *)
Definition merge (current : SessionConfig) (updates : PartialSessionConfig)
  (now : Z) : SessionConfig :=
  mkSessionConfig (or_else (u_diceSides updates) (sc_diceSides current))
                  (or_else (u_selectionMethod updates)
                           (sc_selectionMethod current))
                  now
                  (or_else (u_storageType updates) (sc_storageType current))
                  (or_else (u_syncKey updates) (syncKey current)).

Definition updateSessionConfig (b : Browser) (now : Z)
  (updates : PartialSessionConfig) : Effect unit :=
  fun t =>
    match sessionConfig (store t) with
    | None => (t, Ok tt)
    | Some current =>
        set b (fun s => mkStore (config s) (Some (merge current updates now))
                                (storageType s) (syncRetryCount s)
                                (pollingActive s)) t
    end.

Definition setStorageType (b : Browser) (type : StorageType) : Effect unit :=
  set b (fun s => mkStore (config s) (sessionConfig s) type (syncRetryCount s)
                          (pollingActive s)).

Definition incrementSyncRetry (b : Browser) : Effect unit :=
  fun t =>
    let count := syncRetryCount (store t) + 1 in
    (set b (fun s => mkStore (config s) (sessionConfig s) (storageType s)
                             count (pollingActive s)) ;;
     if count >=? 3 then
       set b (fun s => mkStore (config s) (sessionConfig s) (storageType s)
                               (syncRetryCount s) true)
     else ret tt) t.

Definition resetSyncRetry (b : Browser) : Effect unit :=
  set b (fun s => mkStore (config s) (sessionConfig s) (storageType s) 0 false).

Definition setPollingActive (b : Browser) (active : bool) : Effect unit :=
  set b (fun s => mkStore (config s) (sessionConfig s) (storageType s)
                          (syncRetryCount s) active).

Definition clearConfig (b : Browser) : Effect unit :=
  set b (fun s => mkStore None None (storageType s) 0 false).

(** The tab right after [create]: no configuration, the probed medium, no
    interval. *)
Definition initialTab (b : Browser) : Tab :=
  mkTab (mkStore None None (getStorageType b) 0 false) None [].

(** A browser whose Storage calls all succeed. *)
Definition working_browser : Browser := mkBrowser (fun _ _ => false).

(** ** Rehydration: the [onRehydrateStorage] hook

    The hook runs on the tab once the persisted record has been restored
    into the store; its [state] argument is that state.  [now] is the clock
    read by [isSessionExpired], [now'] the one read by
    [updateSessionConfig]. *)
Definition onRehydrateStorage (b : Browser) (now now' : Z) : Effect unit :=
  fun t =>
    let state := store t in
    match sessionConfig state with
    | None => (t, Ok tt)
    | Some sc =>
        if isSessionExpired now (timestamp sc) then clearConfig b t
        else
          let actualStorageType := getStorageType b in
          if negb (StorageType_eqb (sc_storageType sc) actualStorageType) then
            (setStorageType b actualStorageType ;;
             updateSessionConfig b now'
               (mkPartial None None None (Some actualStorageType) None)) t
          else (t, Ok tt)
    end.

(** The state a tab starts with, by zustand's [persist] (the library, not
    these sources): the middleware runs the hook while the store is created;
    when the hook returns the store starts with the state the hook has left,
    and when it throws the middleware catches the exception and the store
    starts with the restored state. *)
Definition hydrate (b : Browser) (now now' : Z) (t : Tab) : Tab :=
  match onRehydrateStorage b now now' t with
  | (t', Ok _) => t'
  | (_, Throw _) => t
  end.

(** ** The persisted record and what a medium holds under the store's key *)

Record Persisted : Type := mkPersisted {
  p_config : option DiceConfig;
  p_sessionConfig : option SessionConfig
}.

(** [partialize]: the part of the state the persist middleware writes. *)
Definition partialize (state : DiceConfigStore) : Persisted :=
  mkPersisted (config state) (sessionConfig state).

(** A non-empty text found under the key, by what [JSON.parse] makes of it:
    it throws, or yields a value whose [state] member is a persisted record
    or is missing. *)
Inductive StoredText : Type :=
| Unparsable
| Json (state : option Persisted).

Definition JSON_parse (text : StoredText) : Result (option Persisted) :=
  match text with
  | Unparsable => Throw SyntaxError
  | Json state => Ok state
  end.

(** [x?.timestamp || 0] *)
Definition timestamp_or_0 (x : option SessionConfig) : Z :=
  match x with
  | Some sc => if timestamp sc =? 0 then 0 else timestamp sc
  | None => 0
  end.

(** A call [setConfig(c)] where [c] may be [null] or [undefined]: reading
    [config.diceSides] throws before [set] is reached. *)
Definition call_setConfig (b : Browser) (now : Z) (key : string)
  (c : option DiceConfig) : Effect unit :=
  match c with
  | Some cfg => setConfig b now key cfg
  | None => lift (Throw TypeError)
  end.

(** ** The [storage] event listener *)

Record StorageEvent : Type := mkEvent {
  key : string;
  newValue : option StoredText     (* [None]: null, or the empty string *)
}.

Definition storageListener (b : Browser) (now : Z) (syncKey : string)
  (event : StorageEvent) : Effect unit :=
  if (key event =? "dice-config-store")%string then
    try_catch
      (newValue <- lift match newValue event with
                        | Some text => JSON_parse text
                        | None => Ok None
                        end ;;
       store <- getState ;;
       match newValue with
       | Some (mkPersisted cfg (Some sc)) =>
           let newTimestamp := timestamp sc in
           let currentTimestamp := timestamp_or_0 (sessionConfig store) in
           if newTimestamp >? currentTimestamp then
             call_setConfig b now syncKey cfg ;;
             resetSyncRetry b
           else ret tt
       | _ => ret tt
       end)
      (fun error =>
         console_error "Storage sync error:" ;;
         incrementSyncRetry b)
  else ret tt.

(** ** The polling fallback

    One run of the interval callback.  [read o] is what [o.getItem] of the
    store's key gives at that moment: it may throw, [None] is [null] or the
    empty string.  Without a running interval nothing runs.  The
    callback reads [storageType] and [sessionConfig] from [state], the state
    object captured when the interval was created, and calls the actions,
    which act on the live store. *)
Definition pollingTick (b : Browser) (now : Z) (syncKey : string)
  (read : StorageObject -> Result (option StoredText)) : Effect unit :=
  fun t =>
    match pollingInterval t with
    | None => (t, Ok tt)
    | Some state =>
        try_catch
          (let storageType := storageType state in
           match storageType with
           | unavailable => ret tt
           | _ =>
               let storage := match storageType with
                              | localStorage => localStorageObject
                              | _ => sessionStorageObject
                              end in
               stored <- lift (read storage) ;;
               match stored with
               | Some text =>
                   parsed <- lift (JSON_parse text) ;;
                   let newTimestamp :=
                     timestamp_or_0 (match parsed with
                                     | Some p => p_sessionConfig p
                                     | None => None
                                     end) in
                   let currentTimestamp :=
                     timestamp_or_0 (sessionConfig state) in
                   if newTimestamp >? currentTimestamp then
                     cfg <- lift match parsed with
                                 | Some p => Ok (p_config p)
                                 | None => Throw TypeError
                                 end ;;
                     call_setConfig b now syncKey cfg ;;
                     resetSyncRetry b
                   else ret tt
               | None => ret tt
               end
           end)
          (fun error => console_error "Polling sync error:")
          t
    end.

(** ** Writes of one tab *)

Inductive Write : Type :=
| WriteConfig (key : string) (cfg : DiceConfig)            (* [setConfig] *)
| WriteSession (updates : PartialSessionConfig).   (* [updateSessionConfig] *)

(** One write, with the clock it reads. *)
Definition write (b : Browser) (now : Z) (w : Write) : Effect unit :=
  match w with
  | WriteConfig key cfg => setConfig b now key cfg
  | WriteSession updates => updateSessionConfig b now updates
  end.

Definition stored_timestamp (t : Tab) : option Z :=
  option_map timestamp (sessionConfig (store t)).

(** The stored timestamp after each write of a sequence. *)
Fixpoint timestamps_after (b : Browser) (ws : list (Z * Write)) (t : Tab)
  : list (option Z) :=
  match ws with
  | [] => []
  | (now, w) :: rest =>
      let t' := fst (write b now w t) in
      stored_timestamp t' :: timestamps_after b rest t'
  end.

(** ** The probe as the specification words it

    For comparison with [getStorageType]: each medium is probed by writing,
    reading back and deleting the sentinel key. *)
Definition probe_spec (b : Browser) (o : StorageObject) (tr : Trace)
  : Result unit * Trace :=
  match call b o setItem tr with
  | (Ok _, tr1) =>
      match call b o getItem tr1 with
      | (Ok _, tr2) => call b o removeItem tr2
      | (Throw e, tr2) => (Throw e, tr2)
      end
  | (Throw e, tr1) => (Throw e, tr1)
  end.

Definition selectActiveStorageMedium_spec (b : Browser) : StorageType * Trace :=
  match probe_spec b localStorageObject [] with
  | (Ok _, tr) => (localStorage, tr)
  | (Throw _, tr) =>
      match probe_spec b sessionStorageObject tr with
      | (Ok _, tr') => (sessionStorage, tr')
      | (Throw _, tr') => (unavailable, tr')
      end
  end.

(** ** Sample data *)

Definition D (sides : Z) : DiceConfig :=
  mkDiceConfig sides predefined (1, sides) (1 / inject_Z sides)
    ("D" ++ toString sides).

(** A browser whose [localStorage] can be written and cleared but not read. *)
Definition unreadable_localStorage : Browser :=
  mkBrowser (fun o m =>
               match o, m with
               | localStorageObject, getItem => true
               | _, _ => false
               end).

(** A browser whose [localStorage] refuses writes (quota exceeded). *)
Definition full_localStorage : Browser :=
  mkBrowser (fun o m =>
               match o, m with
               | localStorageObject, setItem => true
               | _, _ => false
               end).

(** A browser that refuses every Storage call. *)
Definition no_storage : Browser := mkBrowser (fun _ _ => true).

(** The event another tab's write raises: the store's key, and as new value
    a text that parses to the given record. *)
Definition written (p : Persisted) : StorageEvent :=
  mkEvent "dice-config-store" (Some (Json (Some p))).

(** A record as [setConfig] persists it. *)
Definition record (cfg : DiceConfig) (stamp : Z) (key : string) : Persisted :=
  mkPersisted (Some cfg)
    (Some (mkSessionConfig (diceSides cfg) (selectionMethod cfg) stamp
             localStorage key)).

(** The medium the interval callback reads, by the captured state. *)
Definition polled_medium (state : DiceConfigStore) : StorageObject :=
  match storageType state with
  | localStorage => localStorageObject
  | _ => sessionStorageObject
  end.

(** A notification for the store's key whose new value does not parse. *)
Definition garbled : StorageEvent :=
  mkEvent "dice-config-store" (Some Unparsable).

(** A tab showing the given die since the given time, in a browser whose
    Storage calls all succeed. *)
Definition showing (cfg : DiceConfig) (stamp : Z) (key : string) : Tab :=
  fst (setConfig working_browser stamp key cfg (initialTab working_browser)).

(** A tab showing D20 since time 1000 that then met three unparsable
    notifications, so that polling started ... *)
Definition polling_tab : Tab :=
  let t1 := showing (D 20) 1000 "k1" in
  let t2 := fst (storageListener working_browser 1100 "-" garbled t1) in
  let t3 := fst (storageListener working_browser 1200 "-" garbled t2) in
  fst (storageListener working_browser 1300 "-" garbled t3).

(** ... and whose user then chose D8 at time 2000. *)
Definition polling_tab_after_local_write : Tab :=
  fst (setConfig working_browser 2000 "k2" (D 8) polling_tab).

(** A tab restored from a record of D6 stamped at time 0 in [localStorage]. *)
Definition restored_tab (b : Browser) : Tab :=
  mkTab (mkStore (Some (D 6))
           (Some (mkSessionConfig 6 predefined 0 localStorage "k"))
           (getStorageType b) 0 false) None [].

(** ** Everything that can happen to a tab

    The store's actions, the rehydration hook and the two handlers, each with
    the clock, sync key and storage content it meets. *)
Inductive Action : Type :=
| DoSetConfig (now : Z) (key : string) (cfg : DiceConfig)
| DoUpdateSessionConfig (now : Z) (updates : PartialSessionConfig)
| DoSetStorageType (type : StorageType)
| DoIncrementSyncRetry
| DoResetSyncRetry
| DoSetPollingActive (active : bool)
| DoClearConfig
| DoRehydrate (now now' : Z)
| DoStorageEvent (now : Z) (key : string) (event : StorageEvent)
| DoPollingTick (now : Z) (key : string)
    (read : StorageObject -> Result (option StoredText)).

Definition perform (b : Browser) (a : Action) : Effect unit :=
  match a with
  | DoSetConfig now key cfg => setConfig b now key cfg
  | DoUpdateSessionConfig now updates => updateSessionConfig b now updates
  | DoSetStorageType type => setStorageType b type
  | DoIncrementSyncRetry => incrementSyncRetry b
  | DoResetSyncRetry => resetSyncRetry b
  | DoSetPollingActive active => setPollingActive b active
  | DoClearConfig => clearConfig b
  | DoRehydrate now now' => onRehydrateStorage b now now'
  | DoStorageEvent now key event => storageListener b now key event
  | DoPollingTick now key read => pollingTick b now key read
  end.

(** The tab after a sequence of steps, each in the browser as it is at that
    moment.  A step that throws leaves the tab it had reached, and the next
    step starts from there. *)
Fixpoint run (steps : list (Browser * Action)) (t : Tab) : Tab :=
  match steps with
  | [] => t
  | (b, a) :: rest => run rest (fst (perform b a t))
  end.

(** An effect keeps a property of tabs: the tab it leaves has the property
    whenever the tab it started from had it, also when it throws. *)
Definition keeps {A : Type} (P : Tab -> Prop) (m : Effect A) : Prop :=
  forall t, P t -> P (fst (m t)).

(** Configuration and session record are both present or both absent. *)
Definition paired (s : DiceConfigStore) : Prop :=
  config s = None <-> sessionConfig s = None.

(** The session record repeats the sides and the method of the
    configuration. *)
Definition mirrored (s : DiceConfigStore) : Prop :=
  match config s, sessionConfig s with
  | Some c, Some sc =>
      sc_diceSides sc = diceSides c /\ sc_selectionMethod sc = selectionMethod c
  | None, None => True
  | _, _ => False
  end.

(** An action that leaves the mirrored members alone: every action but an
    [updateSessionConfig] that is given [diceSides] or [selectionMethod]. *)
Definition keeps_mirror (a : Action) : Prop :=
  match a with
  | DoUpdateSessionConfig _ updates =>
      u_diceSides updates = None /\ u_selectionMethod updates = None
  | _ => True
  end.

Definition is_setPollingActive (a : Action) : Prop :=
  match a with
  | DoSetPollingActive _ => True
  | _ => False
  end.

(** The calls the hook and the handlers make themselves. *)
Definition storage_only (type : StorageType) : PartialSessionConfig :=
  mkPartial None None None (Some type) None.

Definition internal (a : Action) : Prop :=
  match a with
  | DoSetConfig _ _ _ | DoSetStorageType _ | DoIncrementSyncRetry
  | DoResetSyncRetry | DoClearConfig => True
  | DoUpdateSessionConfig _ updates => exists type, updates = storage_only type
  | _ => False
  end.

(** The store's own actions, as opposed to the hook and the handlers. *)
Definition primitive (a : Action) : Prop :=
  match a with
  | DoRehydrate _ _ | DoStorageEvent _ _ _ | DoPollingTick _ _ _ => False
  | _ => True
  end.


(** Polling is on only from the third failure in a row ... *)
Definition polling_needs_three (s : DiceConfigStore) : Prop :=
  0 <= syncRetryCount s /\ (pollingActive s = true -> 3 <= syncRetryCount s).

(** ... and, where the writes of [persist] go through, exactly from there. *)
Definition escalated_from_three (s : DiceConfigStore) : Prop :=
  0 <= syncRetryCount s /\ (pollingActive s = true <-> 3 <= syncRetryCount s).

(** The browser accepts the write of [persist] in every step. *)
Definition writes_accepted (steps : list (Browser * Action)) : Prop :=
  Forall (fun step => throws (fst step) localStorageObject setItem = false)
    steps.

End Store.

Module Service.

(** ** Constants ([constants/dice/diceDefaults.ts]) *)

Definition DEFAULT_SIDES : Z := 6.
Definition MIN_SIDES : Z := 2.
Definition MAX_SIDES : Z := 1000.
Definition SIDES : list Z := [4; 6; 8; 10; 12; 20].

Inductive DiceSelectionMethod : Type := PREDEFINED | CUSTOM.

Inductive DiceValidationStatus : Type := VALID | INVALID | PENDING.

(** ** JavaScript values of a request body *)

(** A number: finite, [Infinity] or [-Infinity], or NaN. *)
Inductive JsNumber : Type :=
| JFinite (q : Q)
| JInfinity (negative : bool)
| JNaN.

#[warnings="-register-all"] Inductive JsValue : Type :=
| JUndefined
| JNull
| JBoolean (b : bool)
| JNumber (x : JsNumber)
| JString (s : string)
| JArray (items : list JsValue)
| JObject (members : list (string * JsValue)).

(** Member access [o.k] on a parsed body. *)
Fixpoint lookup (k : string) (members : list (string * JsValue)) : JsValue :=
  match members with
  | [] => JUndefined
  | (k', v) :: rest => if (k' =? k)%string then v else lookup k rest
  end.

Definition isNaN (x : JsNumber) : bool :=
  match x with JNaN => true | _ => false end.

(** [Number.isInteger] *)
Definition isInteger (x : JsNumber) : bool :=
  match x with
  | JFinite q => Qnum q mod Zpos (Qden q) =? 0
  | _ => false
  end.

(** [x < y], [x > y], [x === y] on numbers; every comparison with NaN is
    false. *)
Definition lt (x y : JsNumber) : bool :=
  match x, y with
  | JFinite p, JFinite q => negb (Qle_bool q p)
  | JFinite _, JInfinity negative => negb negative
  | JInfinity negative, JFinite _ => negative
  | JInfinity negative, JInfinity negative' => negative && negb negative'
  | _, _ => false
  end.

Definition gt (x y : JsNumber) : bool := lt y x.

Definition same (x y : JsNumber) : bool :=
  match x, y with
  | JFinite p, JFinite q => Qeq_bool p q
  | JInfinity negative, JInfinity negative' => Bool.eqb negative negative'
  | _, _ => false
  end.

Definition num (z : Z) : JsNumber := JFinite (inject_Z z).

(** The integer an integral number holds. *)
Definition to_Z (x : JsNumber) : Z :=
  match x with
  | JFinite q => Qnum q / Zpos (Qden q)
  | _ => 0
  end.

(** [Array.prototype.includes] on [SIDES]. *)
Definition includes (l : list Z) (x : JsNumber) : bool :=
  existsb (fun o => same (num o) x) l.

(** ** Strings: [trim], [includes], [/^\d+$/.test], [parseInt(_, 10)]

    A string is a sequence of code units below 256.  Among them the white
    space of [trim] and [parseInt] is TAB, LF, VT, FF, CR, SPACE and the
    no-break space. *)

Definition is_space (c : ascii) : bool :=
  let n := N_of_ascii c in
  ((9 <=? n) && (n <=? 13) || (n =? 32) || (n =? 160))%N.

Definition is_digit (c : ascii) : bool :=
  let n := N_of_ascii c in
  ((48 <=? n) && (n <=? 57))%N.

Definition digit_value (c : ascii) : Z := Z.of_N (N_of_ascii c) - 48.

Fixpoint trimStart (s : string) : string :=
  match s with
  | String c rest => if is_space c then trimStart rest else s
  | EmptyString => EmptyString
  end.

Fixpoint all_space (s : string) : bool :=
  match s with
  | String c rest => is_space c && all_space rest
  | EmptyString => true
  end.

Fixpoint trimEnd (s : string) : string :=
  match s with
  | String c rest => if all_space s then EmptyString else String c (trimEnd rest)
  | EmptyString => EmptyString
  end.

Definition trim (s : string) : string := trimEnd (trimStart s).

Fixpoint contains (c : ascii) (s : string) : bool :=
  match s with
  | String c' rest => Ascii.eqb c' c || contains c rest
  | EmptyString => false
  end.

Fixpoint all_digits (s : string) : bool :=
  match s with
  | String c rest => is_digit c && all_digits rest
  | EmptyString => true
  end.

(** [/^\d+$/.test(s)] *)
Definition only_digits (s : string) : bool :=
  match s with
  | EmptyString => false
  | _ => all_digits s
  end.

(** The longest prefix of decimal digits, read into [acc]; [None] when
    there is no digit and nothing was read before. *)
Fixpoint read_digits (s : string) (acc : option Z) : option Z :=
  match s with
  | String c rest =>
      if is_digit c then
        read_digits rest (Some (10 * match acc with Some a => a | None => 0 end
                                + digit_value c))
      else acc
  | EmptyString => acc
  end.

(** [a / d] rounded to the nearest integer, a tie to the even one. *)
Definition nearest (a d : Z) : Z :=
  let q := a / d in
  let r := a mod d in
  if 2 * r <? d then q
  else if d <? 2 * r then q + 1
  else if Z.even q then q else q + 1.

(** The number an integer becomes: the nearest double, which has 53
    significant bits, and an infinity when that lies beyond the largest
    double, that is from [2^1024 - 2^970] on in absolute value. *)
Definition double_of_Z (z : Z) : JsNumber :=
  let a := Z.abs z in
  let e := Z.log2 a - 52 in
  let r := if e <=? 0 then a else nearest a (2 ^ e) * 2 ^ e in
  if 2 ^ 1024 <=? r then JInfinity (z <? 0)
  else JFinite (inject_Z (Z.sgn z * r)).

(** [parseInt(s, 10)]: leading white space, an optional sign, then the longest
    prefix of digits; NaN when that prefix is empty, and otherwise the number
    the integer read becomes. *)
Definition parseInt (s : string) : JsNumber :=
  let s1 := trimStart s in
  let '(sign, s2) :=
    match s1 with
    | String "-" rest => (-1, rest)
    | String "+" rest => (1, rest)
    | _ => (1, s1)
    end in
  match read_digits s2 None with
  | Some n => double_of_Z (sign * n)
  | None => JNaN
  end.

(** ** Zod schemas ([diceConfigValidation.ts])

    A schema is the function [safeParse] computes.  A failure carries its
    issues in the order the checks are declared, the first one apart; an issue
    has the message given in the schema, if one is given. *)

Inductive IssueCode : Type :=
| invalid_type | not_integer | too_small | too_big | invalid_enum_value
| failed_refinement.

Record Issue : Type := mkIssue {
  issue_code : IssueCode;
  issue_message : option string     (* [None]: the library's own wording *)
}.

Inductive SafeParse (A : Type) : Type :=
| Success (data : A)
| Failure (first : Issue) (others : list Issue).

Arguments Success {A} data.
Arguments Failure {A} first others.

Definition report {A : Type} (data : A) (issues : list Issue) : SafeParse A :=
  match issues with
  | [] => Success data
  | i :: rest => Failure i rest
  end.

Definition check (ok : bool) (i : Issue) : list Issue :=
  if ok then [] else [i].

(** [z.number()]: a number that is not NaN; an infinity passes. *)
Definition z_number (v : JsValue) : SafeParse JsNumber :=
  match v with
  | JNumber JNaN => Failure (mkIssue invalid_type None) []
  | JNumber x => Success x
  | _ => Failure (mkIssue invalid_type None) []
  end.

Definition predefinedSidesSchema (v : JsValue) : SafeParse JsNumber :=
  match z_number v with
  | Success val =>
      report val
        (check (includes SIDES val)
           (mkIssue failed_refinement
              (Some "Dice sides must be one of: 4, 6, 8, 10, 12, 20")))
  | Failure i rest => Failure i rest
  end.

Definition customSidesSchema (v : JsValue) : SafeParse JsNumber :=
  match z_number v with
  | Success val =>
      report val
        (check (isInteger val)
           (mkIssue not_integer (Some "Digite apenas números inteiros"))
         ++ check (negb (lt val (num MIN_SIDES)))
              (mkIssue too_small (Some "O dado deve ter pelo menos 2 lados"))
         ++ check (negb (gt val (num MAX_SIDES)))
              (mkIssue too_big (Some "Máximo de 1000 lados permitido")))%list
  | Failure i rest => Failure i rest
  end.

Definition selectionMethodSchema (v : JsValue) : SafeParse DiceSelectionMethod :=
  match v with
  | JString s =>
      if (s =? "predefined")%string then Success PREDEFINED
      else if (s =? "custom")%string then Success CUSTOM
      else Failure (mkIssue invalid_enum_value None) []
  | _ => Failure (mkIssue invalid_enum_value None) []
  end.

Record SetConfigInput : Type := mkSetConfigInput {
  in_diceSides : Z;                 (* an integral number: [.int()] *)
  in_selectionMethod : DiceSelectionMethod
}.

Definition issues_of {A : Type} (r : SafeParse A) : list Issue :=
  match r with
  | Success _ => []
  | Failure i rest => i :: rest
  end.

(** [z.number().int().positive()] *)
Definition positive_int (v : JsValue) : SafeParse JsNumber :=
  match z_number v with
  | Success val =>
      report val
        (check (isInteger val) (mkIssue not_integer None)
         ++ check (gt val (num 0)) (mkIssue too_small None))%list
  | Failure i rest => Failure i rest
  end.

Definition setConfigSchema (body : JsValue) : SafeParse SetConfigInput :=
  match body with
  | JObject members =>
      let sides := positive_int (lookup "diceSides" members) in
      let method := selectionMethodSchema (lookup "selectionMethod" members) in
      match sides, method with
      | Success n, Success m => Success (mkSetConfigInput (to_Z n) m)
      | _, _ =>
          match (issues_of sides ++ issues_of method)%list with
          | i :: rest => Failure i rest
          | [] => Failure (mkIssue invalid_type None) []
          end
      end
  | _ => Failure (mkIssue invalid_type None) []
  end.

(** ** The service ([diceConfigService.ts]) *)

Record ServiceError : Type := mkServiceError {
  code : string;
  message : option string;
  statusCode : Z;
  details : list Issue
}.

Inductive Outcome (A : Type) : Type :=
| Returns (a : A)
| Throws (e : ServiceError).

Arguments Returns {A} a.
Arguments Throws {A} e.

Record DiceConfigResponse : Type := mkResponse {
  diceSides : Z;
  selectionMethod : DiceSelectionMethod;
  probabilityRange : Z * Z;         (* min, max *)
  individualProbability : Q;
  displayFormat : string
}.

(** The member [individualProbability] stands for the quotient [1 / sides]
    as JavaScript computes it. *)
Definition calculateProbability (sides : Z) : (Z * Z) * Q :=
  ((1, sides), (1 / inject_Z sides)%Q).

Definition diceConfigSet (body : JsValue) : Outcome DiceConfigResponse :=
  match setConfigSchema body with
  | Failure i rest =>
      Throws (mkServiceError "VALIDATION_ERROR" (Some "Validation failed") 400
                (i :: rest))
  | Success params =>
      let checked :=
        match in_selectionMethod params with
        | PREDEFINED =>
            match predefinedSidesSchema (JNumber (num (in_diceSides params))) with
            | Failure _ _ =>
                Throws (mkServiceError "VALIDATION_ERROR"
                          (Some "Dice sides must be one of: 4, 6, 8, 10, 12, 20")
                          400 [])
            | Success _ => Returns tt
            end
        | CUSTOM =>
            match customSidesSchema (JNumber (num (in_diceSides params))) with
            | Failure i _ =>
                Throws (mkServiceError "VALIDATION_ERROR" (issue_message i) 400
                          [])
            | Success _ => Returns tt
            end
        end in
      match checked with
      | Throws e => Throws e
      | Returns _ =>
          let probability := calculateProbability (in_diceSides params) in
          Returns (mkResponse (in_diceSides params) (in_selectionMethod params)
                     (fst probability) (snd probability)
                     ("D" ++ toString (in_diceSides params)))
      end
  end.

Record DiceConfigValidationResult : Type := mkValidation {
  isValid : bool;
  status : DiceValidationStatus;
  errorMessage : option string;
  errorPriority : option Z
}.

Definition invalid (msg : string) (priority : Z) : DiceConfigValidationResult :=
  mkValidation false INVALID (Some msg) (Some priority).

(** [inputSchema]: an object whose [customSides] is a number or a string. *)
Definition inputSchema (body : JsValue) : SafeParse (JsNumber + string) :=
  match body with
  | JObject members =>
      match lookup "customSides" members with
      | JNumber JNaN => Failure (mkIssue invalid_type None) []
      | JNumber x => Success (inl x)
      | JString s => Success (inr s)
      | _ => Failure (mkIssue invalid_type None) []
      end
  | _ => Failure (mkIssue invalid_type None) []
  end.

Definition format_check (customSides : JsNumber + string)
  : option DiceConfigValidationResult :=
  match customSides with
  | inr s =>
      if (trim s =? "")%string then
        Some (invalid "Por favor, insira a quantidade de lados" 2)
      else if contains "." s || contains "," s then
        Some (invalid "Digite apenas números inteiros, sem casas decimais" 1)
      else if negb (only_digits s) then
        Some (invalid "Digite apenas números inteiros" 1)
      else None
  | inl _ => None
  end.

(** The checks on [numericValue]: not NaN, an integer, then the range. *)
Definition numeric_check (numericValue : JsNumber)
  : DiceConfigValidationResult :=
  if isNaN numericValue then
    invalid "Digite apenas números inteiros" 1
  else if negb (isInteger numericValue) then
    invalid "Digite apenas números inteiros, sem casas decimais" 1
  else if lt numericValue (num MIN_SIDES) then
    invalid "O dado deve ter pelo menos 2 lados" 2
  else if gt numericValue (num MAX_SIDES) then
    invalid "Máximo de 1000 lados permitido" 2
  else mkValidation true VALID None None.

Definition diceConfigValidateCustom (body : JsValue)
  : DiceConfigValidationResult :=
  match inputSchema body with
  | Failure _ _ => invalid "Por favor, insira a quantidade de lados" 2
  | Success customSides =>
      match format_check customSides with
      | Some r => r
      | None =>
          let numericValue :=
            match customSides with
            | inl x => x
            | inr s => parseInt s
            end in
          numeric_check numericValue
      end
  end.

(** ** Vocabulary of the properties *)

(** The largest integer up to which every integer is a number of its own:
    [Number.MAX_SAFE_INTEGER]. *)
Definition MAX_SAFE_INTEGER : Z := 2 ^ 53 - 1.

(** The request bodies [{ customSides: v }] and
    [{ diceSides: v, selectionMethod: m }]. *)
Definition custom_body (v : JsValue) : JsValue :=
  JObject [("customSides", v)].

Definition set_body (v m : JsValue) : JsValue :=
  JObject [("diceSides", v); ("selectionMethod", m)].

(** The number [x] is the integer [n]. *)
Definition denotes (x : JsNumber) (n : Z) : Prop :=
  match x with
  | JFinite q => (q == inject_Z n)%Q
  | _ => False
  end.

(** A body that passes validation: its [selectionMethod] is "predefined" and
    its [diceSides] one of 4, 6, 8, 10, 12, 20, or its [selectionMethod] is
    "custom" and its [diceSides] an integer from 2 to 1000. *)
Inductive valid_request : JsValue -> Z -> DiceSelectionMethod -> Prop :=
| valid_predefined members x n :
    lookup "diceSides" members = JNumber x ->
    denotes x n ->
    lookup "selectionMethod" members = JString "predefined" ->
    In n [4; 6; 8; 10; 12; 20] ->
    valid_request (JObject members) n PREDEFINED
| valid_custom members x n :
    lookup "diceSides" members = JNumber x ->
    denotes x n ->
    lookup "selectionMethod" members = JString "custom" ->
    2 <= n <= 1000 ->
    valid_request (JObject members) n CUSTOM.

Definition valid_result : DiceConfigValidationResult :=
  mkValidation true VALID None None.

(** The verdict on an integer: too small, too large, or valid. *)
Definition range_verdict (n : Z) : DiceConfigValidationResult :=
  if n <? 2 then invalid "O dado deve ter pelo menos 2 lados" 2
  else if 1000 <? n then invalid "Máximo de 1000 lados permitido" 2
  else valid_result.

(** The two families of error messages. *)
Definition format_message (m : string) : bool :=
  ((m =? "Digite apenas números inteiros")
   || (m =? "Digite apenas números inteiros, sem casas decimais"))%string.

Definition presence_or_range_message (m : string) : bool :=
  ((m =? "Por favor, insira a quantidade de lados")
   || (m =? "O dado deve ter pelo menos 2 lados")
   || (m =? "Máximo de 1000 lados permitido"))%string.

(** The value of a decimal numeral read after [acc], most significant digit
    first. *)
Fixpoint horner (d : Decimal.uint) (acc : Z) : Z :=
  match d with
  | Decimal.Nil => acc
  | Decimal.D0 d => horner d (10 * acc + 0)
  | Decimal.D1 d => horner d (10 * acc + 1)
  | Decimal.D2 d => horner d (10 * acc + 2)
  | Decimal.D3 d => horner d (10 * acc + 3)
  | Decimal.D4 d => horner d (10 * acc + 4)
  | Decimal.D5 d => horner d (10 * acc + 5)
  | Decimal.D6 d => horner d (10 * acc + 6)
  | Decimal.D7 d => horner d (10 * acc + 7)
  | Decimal.D8 d => horner d (10 * acc + 8)
  | Decimal.D9 d => horner d (10 * acc + 9)
  end.

(** A text of [n] nines. *)
Fixpoint nines (n : nat) : string :=
  match n with
  | O => EmptyString
  | S k => String "9" (nines k)
  end.

(** ** The rest of the service: the default configuration and the options *)

Inductive DiceStorageStatus : Type :=
| LOCAL_STORAGE | SESSION_STORAGE | UNAVAILABLE.

Record DiceConfigEntity : Type := mkEntity {
  e_diceSides : Z;
  e_selectionMethod : DiceSelectionMethod;
  e_probabilityRange : Z * Z;
  e_individualProbability : Q;
  e_displayFormat : string;
  sessionTimestamp : string;
  storageFallbackStatus : DiceStorageStatus;
  instanceSyncKey : string
}.

(** [isoNow] is [new Date().toISOString()], [syncKey] the value of the
    service's [generateSyncKey()]. *)
Definition createDefaultConfig (isoNow syncKey : string) : DiceConfigEntity :=
  let sides := DEFAULT_SIDES in
  mkEntity sides PREDEFINED (1, sides) (1 / inject_Z sides)%Q
    ("D" ++ toString sides) isoNow LOCAL_STORAGE syncKey.

Definition diceConfigGet (isoNow syncKey : string) : DiceConfigResponse :=
  let config := createDefaultConfig isoNow syncKey in
  mkResponse (e_diceSides config) (e_selectionMethod config)
    (e_probabilityRange config) (e_individualProbability config)
    (e_displayFormat config).

Definition diceConfigGetPredefinedOptions : list Z := SIDES.

(** The text of a selection method in a body. *)
Definition method_text (m : DiceSelectionMethod) : string :=
  match m with
  | PREDEFINED => "predefined"
  | CUSTOM => "custom"
  end.

(** The request that asks for the sides and the method of a response. *)
Definition request_of (r : DiceConfigResponse) : JsValue :=
  set_body (JNumber (num (diceSides r))) (JString (method_text (selectionMethod r))).

End Service.

(** * The controller ([api/internal/dice-config/controller.ts])

    A handler's answer is the status it sets (200 when it sets none) and the
    envelope it sends: [successResponse(data)] or
    [errorResponse(message, code, details)]. *)
Module Controller.
Import Service.

Inductive Envelope (A : Type) : Type :=
| successResponse (data : A)
| errorResponse (message : option string) (code : string)
    (details : list Issue).

Arguments successResponse {A} data.
Arguments errorResponse {A} message code details.

Record HttpResponse (A : Type) : Type := mkHttp {
  status : Z;
  json : Envelope A
}.

Arguments mkHttp {A} status json.
Arguments status {A} h.
Arguments json {A} h.

(** The [try]/[catch] every handler is made of; what the services throw is
    a [ServiceError]. *)
Definition respond {A : Type} (o : Outcome A) : HttpResponse A :=
  match o with
  | Returns data => mkHttp 200 (successResponse data)
  | Throws error =>
      mkHttp (statusCode error)
        (errorResponse (message error) (code error) (details error))
  end.

Definition setHandler (body : JsValue) : HttpResponse DiceConfigResponse :=
  respond (diceConfigSet body).

Definition validateCustomHandler (body : JsValue)
  : HttpResponse DiceConfigValidationResult :=
  respond (Returns (diceConfigValidateCustom body)).

End Controller.

(** * The client: form schemas, API service, hook and selector component

    [validations/diceConfig.ts], the API service of the domain, the
    [useDiceConfig] hook and the handlers of [DiceConfigSelector]. *)
Module Client.
Import Service Controller.

(** ** Form schemas ([validations/diceConfig.ts]) *)

Definition PREDEFINED_OPTIONS : list Z := [4; 6; 8; 10; 12; 20].

Record DiceConfigFormOutput : Type := mkForm {
  form_diceSides : JsNumber;
  form_selectionMethod : Store.SelectionMethod
}.

(** [z.number().int().min(2).max(1000)], with the messages of
    [diceConfigSchema] when [labelled]. *)
Definition sides_in_range (labelled : bool) (v : JsValue) : SafeParse JsNumber :=
  let msg (m : string) := if labelled then Some m else None in
  match v with
  | JNumber JNaN =>
      Failure (mkIssue invalid_type (msg "Número de lados é obrigatório")) []
  | JNumber val =>
      report val
        (check (isInteger val)
           (mkIssue not_integer (msg "Digite apenas números inteiros"))
         ++ check (negb (lt val (num 2)))
              (mkIssue too_small (msg "O dado deve ter pelo menos 2 lados"))
         ++ check (negb (gt val (num 1000)))
              (mkIssue too_big (msg "Máximo de 1000 lados permitido")))%list
  | _ =>
      Failure (mkIssue invalid_type (msg "Número de lados é obrigatório")) []
  end.

(** [z.enum(['predefined', 'custom'], ...).default('predefined')] *)
Definition method_or_default (v : JsValue) : SafeParse Store.SelectionMethod :=
  match v with
  | JUndefined => Success Store.predefined
  | JString s =>
      if (s =? "predefined")%string then Success Store.predefined
      else if (s =? "custom")%string then Success Store.custom
      else Failure (mkIssue invalid_enum_value
                      (Some "Método de seleção inválido")) []
  | _ => Failure (mkIssue invalid_enum_value
                    (Some "Método de seleção inválido")) []
  end.

Definition diceConfigSchema (input : JsValue) : SafeParse DiceConfigFormOutput :=
  match input with
  | JObject members =>
      let sides := sides_in_range true (lookup "diceSides" members) in
      let method := method_or_default (lookup "selectionMethod" members) in
      match sides, method with
      | Success n, Success m => Success (mkForm n m)
      | _, _ =>
          match (issues_of sides ++ issues_of method)%list with
          | i :: rest => Failure i rest
          | [] => Failure (mkIssue invalid_type None) []
          end
      end
  | _ => Failure (mkIssue invalid_type None) []
  end.

(** [z.string().regex(/^\d+$/, ...)] *)
Definition digits_only (v : JsValue) : SafeParse string :=
  match v with
  | JString s =>
      if only_digits s then Success s
      else Failure (mkIssue failed_refinement
                      (Some "Digite apenas números inteiros")) []
  | _ => Failure (mkIssue invalid_type None) []
  end.

(** The union tries the number schema, then the string schema; [None] is a
    failed parse. *)
Definition customDiceValidationSchema (input : JsValue)
  : option (JsNumber + string) :=
  match input with
  | JObject members =>
      let v := lookup "customSides" members in
      match sides_in_range false v with
      | Success n => Some (inl n)
      | Failure _ _ =>
          match digits_only v with
          | Success s => Some (inr s)
          | Failure _ _ => None
          end
      end
  | _ => None
  end.

(** ** The API service

    A request reaches the server or not; the client's promise is rejected
    when it does not or when the answer has no 2xx status, and is fulfilled
    with the [data] of the envelope otherwise. *)
Inductive Reply (A : Type) : Type :=
| Fulfilled (a : A)
| Rejected.

Arguments Fulfilled {A} a.
Arguments Rejected {A}.

Definition exchange {A : Type} (reachable : bool) (answer : HttpResponse A)
  : Reply A :=
  if reachable && (200 <=? status answer) && (status answer <? 300) then
    match json answer with
    | successResponse data => Fulfilled data
    | errorResponse _ _ _ => Rejected
    end
  else Rejected.

Definition method_of (m : DiceSelectionMethod) : Store.SelectionMethod :=
  match m with
  | PREDEFINED => Store.predefined
  | CUSTOM => Store.custom
  end.

Definition method_name (m : Store.SelectionMethod) : string :=
  match m with
  | Store.predefined => "predefined"
  | Store.custom => "custom"
  end.

(** A response as the client reads it from the reply. *)
Definition decode (r : DiceConfigResponse) : Store.DiceConfig :=
  Store.mkDiceConfig (diceSides r) (method_of (selectionMethod r))
    (probabilityRange r) (individualProbability r) (displayFormat r).

(** A number as [JSON.stringify] sends it: NaN and the infinities become
    [null]. *)
Definition send_number (x : JsNumber) : JsValue :=
  match x with
  | JFinite q => JNumber (JFinite q)
  | _ => JNull
  end.

Definition encode (c : DiceConfigFormOutput) : JsValue :=
  set_body (send_number (form_diceSides c))
    (JString (method_name (form_selectionMethod c))).

Definition map_reply {A B : Type} (f : A -> B) (r : Reply A) : Reply B :=
  match r with
  | Fulfilled a => Fulfilled (f a)
  | Rejected => Rejected
  end.

Definition service_set (reachable : bool) (config : DiceConfigFormOutput)
  : Reply Store.DiceConfig :=
  map_reply decode (exchange reachable (setHandler (encode config))).

Definition service_validateCustom (reachable : bool) (customSides : JsValue)
  : Reply DiceConfigValidationResult :=
  exchange reachable (validateCustomHandler (custom_body customSides)).

(** ** The hook ([useDiceConfig]) *)

(** [updateConfig]: the mutation, whose [onSuccess] puts the answer into the
    store.  The promise of [mutateAsync] is rejected when the request is, and
    also when [onSuccess] throws, which [setConfig] does where the write of
    [persist] is refused; the store has the answer by then. *)
Definition updateConfig (b : Store.Browser) (reachable : bool) (now : Z)
  (key : string) (newConfig : DiceConfigFormOutput) (t : Store.Tab)
  : Reply Store.DiceConfig * Store.Tab :=
  match service_set reachable newConfig with
  | Fulfilled updatedConfig =>
      match Store.setConfig b now key updatedConfig t with
      | (t', Ok _) => (Fulfilled updatedConfig, t')
      | (t', Throw _) => (Rejected, t')
      end
  | Rejected => (Rejected, t)
  end.

(** The effect that copies the fetched configuration into an empty store. *)
Definition sync_on_mount (b : Store.Browser) (now : Z) (key : string)
  (data : option Store.DiceConfig) : Store.Effect unit :=
  fun t =>
    match data, Store.config (Store.store t) with
    | Some d, None => Store.setConfig b now key d t
    | _, _ => (t, Ok tt)
    end.

(** [config || data] *)
Definition shown_config (data : option Store.DiceConfig) (t : Store.Tab)
  : option Store.DiceConfig :=
  match Store.config (Store.store t) with
  | Some c => Some c
  | None => data
  end.

(** ** The selector component *)

Inductive Toast : Type :=
| toast_success (msg : string)
| toast_error (msg : string).

Record Selector : Type := mkSelector {
  selectedTab : Store.SelectionMethod;
  selectedPredefined : Z;
  customValue : string;
  customError : string;
  isValidating : bool;
  toasts : list Toast
}.

Definition initialSelector : Selector :=
  mkSelector Store.predefined 6 "" "" false [].

Definition with_customValue (v : string) (u : Selector) : Selector :=
  mkSelector (selectedTab u) (selectedPredefined u) v (customError u)
    (isValidating u) (toasts u).

Definition with_customError (e : string) (u : Selector) : Selector :=
  mkSelector (selectedTab u) (selectedPredefined u) (customValue u) e
    (isValidating u) (toasts u).

Definition with_isValidating (b : bool) (u : Selector) : Selector :=
  mkSelector (selectedTab u) (selectedPredefined u) (customValue u)
    (customError u) b (toasts u).

Definition with_toast (x : Toast) (u : Selector) : Selector :=
  mkSelector (selectedTab u) (selectedPredefined u) (customValue u)
    (customError u) (isValidating u) (toasts u ++ [x])%list.

(** The effect that initialises the form from the configuration shown. *)
Definition initialize (config : option Store.DiceConfig) (u : Selector)
  : Selector :=
  match config with
  | Some c =>
      let u1 := mkSelector (Store.selectionMethod c) (selectedPredefined u)
                  (customValue u) (customError u) (isValidating u) (toasts u) in
      match Store.selectionMethod c with
      | Store.predefined =>
          mkSelector (selectedTab u1) (Store.diceSides c) (customValue u1)
            (customError u1) (isValidating u1) (toasts u1)
      | Store.custom => with_customValue (toString (Store.diceSides c)) u1
      end
  | None => u
  end.

(** [value.replace(/[^0-9]/g, '')] *)
Fixpoint keep_digits (value : string) : string :=
  match value with
  | String c rest =>
      if is_digit c then String c (keep_digits rest) else keep_digits rest
  | EmptyString => EmptyString
  end.

(** [validateCustom] is the hook's mutation, called with the filtered text. *)
Definition handleCustomInputChange
  (validateCustom : string -> Reply DiceConfigValidationResult)
  (value : string) (u : Selector) : Selector :=
  let u1 := with_customError "" (with_customValue value u) in
  let filtered := keep_digits value in
  if negb (filtered =? value)%string then with_customValue filtered u1
  else if (filtered =? "")%string then
    with_customError "Por favor, insira a quantidade de lados" u1
  else
    let u2 := with_isValidating true u1 in
    let u3 :=
      match validateCustom filtered with
      | Fulfilled result =>
          match errorMessage result with
          | Some msg =>
              if negb (isValid result) && negb (msg =? "")%string
              then with_customError msg u2
              else u2
          | None => u2
          end
      | Rejected => with_customError "Erro ao validar entrada" u2
      end in
    with_isValidating false u3.

(** The mutation of the hook behind [validateCustom]. *)
Definition validateCustom (reachable : bool) (customSides : string)
  : Reply DiceConfigValidationResult :=
  service_validateCustom reachable (JString customSides).

Definition handlePredefinedSelect (b : Store.Browser) (reachable : bool)
  (now : Z) (key : string) (sides : Z) (u : Selector) (t : Store.Tab)
  : Selector * Store.Tab :=
  let u1 := mkSelector (selectedTab u) sides (customValue u) (customError u)
              (isValidating u) (toasts u) in
  match updateConfig b reachable now key (mkForm (num sides) Store.predefined) t
  with
  | (Fulfilled _, t') =>
      (with_toast (toast_success
                     ("Dado de " ++ toString sides ++ " lados selecionado")) u1,
       t')
  | (Rejected, t') =>
      (with_toast (toast_error "Erro ao atualizar configuração") u1, t')
  end.

Definition handleCustomSubmit (b : Store.Browser) (reachable : bool) (now : Z)
  (key : string) (u : Selector) (t : Store.Tab) : Selector * Store.Tab :=
  if (customValue u =? "")%string || negb (customError u =? "")%string
     || isValidating u
  then (u, t)
  else
    let sides := parseInt (customValue u) in
    match updateConfig b reachable now key (mkForm sides Store.custom) t with
    | (Fulfilled _, t') =>
        (* the server has accepted [sides]: it is an integer *)
        (with_toast
           (toast_success
              ("Dado personalizado de " ++ toString (to_Z sides)
               ++ " lados configurado")) u,
         t')
    | (Rejected, t') =>
        (with_toast (toast_error "Erro ao configurar dado personalizado") u, t')
    end.

End Client.

(** * Properties of the synchronisation store *)

Module StoreFacts.
Import Store.

(** ** [setState], the subscriber and the write of [persist] *)

Lemma store_subscriber (t : Tab) : store (subscriber t) = store t.
Proof.
  unfold subscriber.
  destruct (pollingActive (store t)), (pollingInterval t); reflexivity.
Qed.

Lemma console_subscriber (t : Tab) : console (subscriber t) = console t.
Proof.
  unfold subscriber.
  destruct (pollingActive (store t)), (pollingInterval t); reflexivity.
Qed.

Lemma store_setState (f : DiceConfigStore -> DiceConfigStore) (t : Tab) :
  store (setState f t) = f (store t).
Proof. unfold setState. now rewrite store_subscriber. Qed.

Lemma console_setState (f : DiceConfigStore -> DiceConfigStore) (t : Tab) :
  console (setState f t) = console t.
Proof. unfold setState. now rewrite console_subscriber. Qed.

(** The interval runs after a [setState] exactly when the new state has
    polling active. *)
Lemma interval_setState (f : DiceConfigStore -> DiceConfigStore) (t : Tab) :
  pollingInterval (setState f t) =
  if pollingActive (f (store t)) then
    match pollingInterval t with
    | Some captured => Some captured
    | None => Some (f (store t))
    end
  else None.
Proof.
  unfold setState, subscriber; cbn.
  destruct (pollingActive (f (store t))), (pollingInterval t); reflexivity.
Qed.

Lemma persist_write_accepted b :
  throws b localStorageObject setItem = false -> persist_write b = Ok tt.
Proof. unfold persist_write. now intros ->. Qed.

Lemma persist_write_refused b :
  throws b localStorageObject setItem = true ->
  persist_write b = Throw DOMException.
Proof. unfold persist_write. now intros ->. Qed.

(** Every action made of one [set] leaves the tab [setState] gives and ends
    as the write does. *)
Lemma set_eq b f t : set b f t = (setState f t, persist_write b).
Proof. reflexivity. Qed.

Create Rewrite HintDb store.
#[local] Hint Rewrite store_setState console_setState : store.

Ltac store_simpl := autorewrite with store; cbn.

Lemma store_setConfig b now k cfg t :
  store (fst (setConfig b now k cfg t)) =
  mkStore (Some cfg)
    (Some (mkSessionConfig (diceSides cfg) (selectionMethod cfg) now
             (storageType (store t)) k))
    (storageType (store t)) (syncRetryCount (store t))
    (pollingActive (store t)).
Proof. unfold setConfig, set; cbn [fst]. now store_simpl. Qed.

Lemma snd_setConfig b now k cfg t :
  snd (setConfig b now k cfg t) = persist_write b.
Proof. reflexivity. Qed.

Lemma store_resetSyncRetry b t :
  store (fst (resetSyncRetry b t)) =
  mkStore (config (store t)) (sessionConfig (store t)) (storageType (store t))
    0 false.
Proof. unfold resetSyncRetry, set; cbn [fst]. now store_simpl. Qed.

Lemma interval_resetSyncRetry b t :
  pollingInterval (fst (resetSyncRetry b t)) = None.
Proof. unfold resetSyncRetry, set; cbn [fst]. now rewrite interval_setState. Qed.

Lemma store_clearConfig b t :
  store (fst (clearConfig b t))
  = mkStore None None (storageType (store t)) 0 false.
Proof. unfold clearConfig, set; cbn [fst]. now store_simpl. Qed.

Lemma store_setStorageType b type t :
  store (fst (setStorageType b type t)) =
  mkStore (config (store t)) (sessionConfig (store t)) type
    (syncRetryCount (store t)) (pollingActive (store t)).
Proof. unfold setStorageType, set; cbn [fst]. now store_simpl. Qed.

Lemma store_setPollingActive b active t :
  store (fst (setPollingActive b active t)) =
  mkStore (config (store t)) (sessionConfig (store t)) (storageType (store t))
    (syncRetryCount (store t)) active.
Proof. unfold setPollingActive, set; cbn [fst]. now store_simpl. Qed.

Lemma store_updateSessionConfig b now updates t current :
  sessionConfig (store t) = Some current ->
  store (fst (updateSessionConfig b now updates t)) =
  mkStore (config (store t)) (Some (merge current updates now))
    (storageType (store t)) (syncRetryCount (store t))
    (pollingActive (store t)).
Proof.
  intro H. unfold updateSessionConfig, set. rewrite H. cbn [fst].
  now store_simpl.
Qed.

Lemma updateSessionConfig_absent b now updates t :
  sessionConfig (store t) = None ->
  updateSessionConfig b now updates t = (t, Ok tt).
Proof. intro H. unfold updateSessionConfig. now rewrite H. Qed.

(** [incrementSyncRetry] makes its second [set] only when the write of the
    first one went through. *)
Lemma incrementSyncRetry_eq b t :
  incrementSyncRetry b t =
  let count := syncRetryCount (store t) + 1 in
  let t1 := setState (fun s => mkStore (config s) (sessionConfig s)
                                 (storageType s) count (pollingActive s)) t in
  if throws b localStorageObject setItem then (t1, Throw DOMException)
  else if count >=? 3 then
         (setState (fun s => mkStore (config s) (sessionConfig s)
                               (storageType s) (syncRetryCount s) true) t1,
          Ok tt)
       else (t1, Ok tt).
Proof.
  unfold incrementSyncRetry, bind, set, persist_write, ret.
  destruct (throws b localStorageObject setItem); [reflexivity|].
  cbv iota beta zeta.
  destruct (syncRetryCount (store t) + 1 >=? 3); reflexivity.
Qed.

Lemma store_incrementSyncRetry b t :
  store (fst (incrementSyncRetry b t)) =
  mkStore (config (store t)) (sessionConfig (store t)) (storageType (store t))
    (syncRetryCount (store t) + 1)
    (if negb (throws b localStorageObject setItem)
        && (syncRetryCount (store t) + 1 >=? 3)
     then true else pollingActive (store t)).
Proof.
  rewrite incrementSyncRetry_eq. cbv zeta.
  destruct (throws b localStorageObject setItem); cbn [negb andb fst];
    [now store_simpl|].
  destruct (syncRetryCount (store t) + 1 >=? 3); cbn [fst]; now store_simpl.
Qed.

Lemma snd_incrementSyncRetry b t :
  snd (incrementSyncRetry b t) = persist_write b.
Proof.
  rewrite incrementSyncRetry_eq. cbv zeta. unfold persist_write.
  destruct (throws b localStorageObject setItem); [reflexivity|].
  now destruct (syncRetryCount (store t) + 1 >=? 3).
Qed.

(** ** Escalation *)

(** Where the browser accepts the write of [persist]: from a failure counter
    of 0 with polling off, one or two calls of [incrementSyncRetry] leave
    polling off and the third one turns it on and starts the interval;
    [resetSyncRetry] puts the counter at 0 and polling off. *)
Lemma escalation_where_writes_are_accepted (b : Browser) (t : Tab) :
  throws b localStorageObject setItem = false ->
  syncRetryCount (store t) = 0 ->
  pollingActive (store t) = false ->
  let t1 := fst (incrementSyncRetry b t) in
  let t2 := fst (incrementSyncRetry b t1) in
  let t3 := fst (incrementSyncRetry b t2) in
  (syncRetryCount (store t1) = 1 /\ pollingActive (store t1) = false) /\
  (syncRetryCount (store t2) = 2 /\ pollingActive (store t2) = false) /\
  (syncRetryCount (store t3) = 3 /\ pollingActive (store t3) = true
   /\ pollingInterval t3 <> None) /\
  (syncRetryCount (store (fst (resetSyncRetry b t2))) = 0
   /\ pollingActive (store (fst (resetSyncRetry b t2))) = false).
Proof.
  intros Hb Hcount Hpoll t1 t2 t3.
  assert (H1 : syncRetryCount (store t1) = 1 /\ pollingActive (store t1) = false).
  { subst t1. rewrite store_incrementSyncRetry, Hcount, Hpoll, Hb. now cbn. }
  assert (H2 : syncRetryCount (store t2) = 2 /\ pollingActive (store t2) = false).
  { subst t2. destruct H1 as [H1 H1'].
    rewrite store_incrementSyncRetry, H1, H1', Hb. now cbn. }
  split; [exact H1|]. split; [exact H2|]. split.
  - subst t3. destruct H2 as [H2 H2']. split; [|split].
    + rewrite store_incrementSyncRetry, H2. reflexivity.
    + rewrite store_incrementSyncRetry, H2, Hb. reflexivity.
    + rewrite incrementSyncRetry_eq, H2, Hb. cbv zeta.
      change (2 + 1 >=? 3) with true. cbv iota. cbn [fst].
      rewrite interval_setState. cbn.
      destruct (pollingInterval _); discriminate.
  - rewrite store_resetSyncRetry. now cbn.
Qed.

(** C4 at the failing input.  In a browser whose [localStorage] refuses
    writes, each call of [incrementSyncRetry] throws after it has raised the
    counter: after three calls in a row from a new tab the counter is 3,
    polling is off and no interval runs.  The same three calls turn polling
    on where the writes are accepted. *)
Theorem C4_three_failures_leave_polling_off :
  let t := initialTab full_localStorage in
  let r1 := incrementSyncRetry full_localStorage t in
  let r2 := incrementSyncRetry full_localStorage (fst r1) in
  let r3 := incrementSyncRetry full_localStorage (fst r2) in
  (syncRetryCount (store t) = 0 /\ pollingActive (store t) = false) /\
  (snd r1 = Throw DOMException /\ snd r2 = Throw DOMException
   /\ snd r3 = Throw DOMException) /\
  (syncRetryCount (store (fst r3)) = 3
   /\ pollingActive (store (fst r3)) = false
   /\ pollingInterval (fst r3) = None) /\
  (let u := initialTab working_browser in
   let u3 := fst (incrementSyncRetry working_browser
                    (fst (incrementSyncRetry working_browser
                            (fst (incrementSyncRetry working_browser u))))) in
   syncRetryCount (store u3) = 3 /\ pollingActive (store u3) = true).
Proof. repeat split. Qed.

(** ** Expiry at load time *)

Lemma isSessionExpired_spec now ts :
  isSessionExpired now ts = true <-> now - ts > 24 * 60 * 60 * 1000.
Proof.
  unfold isSessionExpired, SESSION_EXPIRY_MS. rewrite Z.gtb_ltb, Z.ltb_lt. lia.
Qed.

Lemma StorageType_eqb_eq a b : StorageType_eqb a b = true <-> a = b.
Proof. destruct a, b; cbn; split; congruence. Qed.

(** The hook on an expired record is [clearConfig]. *)
Lemma rehydrate_expired b now now' t sc :
  sessionConfig (store t) = Some sc ->
  isSessionExpired now (timestamp sc) = true ->
  onRehydrateStorage b now now' t = clearConfig b t.
Proof. intros Hsc Hexp. unfold onRehydrateStorage. now rewrite Hsc, Hexp. Qed.

(** The hook on a fresh record that names the probed medium does nothing. *)
Lemma rehydrate_aligned b now now' t sc :
  sessionConfig (store t) = Some sc ->
  isSessionExpired now (timestamp sc) = false ->
  sc_storageType sc = getStorageType b ->
  onRehydrateStorage b now now' t = (t, Ok tt).
Proof.
  intros Hsc Hexp Heq. unfold onRehydrateStorage. rewrite Hsc, Hexp.
  apply StorageType_eqb_eq in Heq. now rewrite Heq.
Qed.

(** The hook on a fresh record that names another medium: [setStorageType],
    and [updateSessionConfig] when the write of the former went through. *)
Lemma rehydrate_realigned b now now' t sc :
  sessionConfig (store t) = Some sc ->
  isSessionExpired now (timestamp sc) = false ->
  sc_storageType sc <> getStorageType b ->
  onRehydrateStorage b now now' t =
  let t1 := fst (setStorageType b (getStorageType b) t) in
  if throws b localStorageObject setItem then (t1, Throw DOMException)
  else (fst (updateSessionConfig b now' (storage_only (getStorageType b)) t1),
        Ok tt).
Proof.
  intros Hsc Hexp Hneq. unfold onRehydrateStorage. rewrite Hsc, Hexp.
  destruct (StorageType_eqb (sc_storageType sc) (getStorageType b)) eqn:E;
    [apply StorageType_eqb_eq in E; contradiction|].
  cbn [negb]. unfold bind, setStorageType, updateSessionConfig, set,
    persist_write, storage_only.
  cbn [fst]. rewrite store_setState. cbn [sessionConfig]. rewrite Hsc.
  now destruct (throws b localStorageObject setItem).
Qed.

(** What the hook leaves in the store when the restored record is fresh. *)
Lemma rehydrate_fresh b now now' t sc :
  sessionConfig (store t) = Some sc ->
  isSessionExpired now (timestamp sc) = false ->
  let t' := fst (onRehydrateStorage b now now' t) in
  config (store t') = config (store t) /\
  exists sc', sessionConfig (store t') = Some sc'
              /\ sc_diceSides sc' = sc_diceSides sc
              /\ sc_selectionMethod sc' = sc_selectionMethod sc.
Proof.
  intros Hsc Hfresh t'. subst t'.
  destruct (StorageType_eqb (sc_storageType sc) (getStorageType b)) eqn:E.
  - apply StorageType_eqb_eq in E.
    rewrite (rehydrate_aligned b now now' t sc Hsc Hfresh E). cbn [fst].
    split; [reflexivity|]. now exists sc.
  - assert (Hneq : sc_storageType sc <> getStorageType b).
    { intro H. apply StorageType_eqb_eq in H. congruence. }
    rewrite (rehydrate_realigned b now now' t sc Hsc Hfresh Hneq). cbv zeta.
    destruct (throws b localStorageObject setItem); cbn [fst].
    + rewrite store_setStorageType. cbn. split; [reflexivity|]. now exists sc.
    + rewrite (store_updateSessionConfig _ _ _ _ sc)
        by (rewrite store_setStorageType; exact Hsc).
      rewrite store_setStorageType. cbn. split; [reflexivity|].
      eexists; split; [reflexivity|]. now cbn.
Qed.

(** Where the browser accepts the write of [persist]: a restored record
    counts as expired exactly when [now - timestamp] exceeds 24 hours; the
    hook returns, an expired record is cleared and a record that is not
    expired is kept. *)
Lemma expiry_where_writes_are_accepted
  (b : Browser) (now now' : Z) (t : Tab) (sc : SessionConfig) :
  throws b localStorageObject setItem = false ->
  sessionConfig (store t) = Some sc ->
  let t' := hydrate b now now' t in
  (isSessionExpired now (timestamp sc) = true
   <-> now - timestamp sc > 24 * 60 * 60 * 1000) /\
  t' = fst (onRehydrateStorage b now now' t) /\
  (now - timestamp sc > 24 * 60 * 60 * 1000 ->
   config (store t') = None /\ sessionConfig (store t') = None) /\
  (now - timestamp sc <= 24 * 60 * 60 * 1000 ->
   config (store t') = config (store t) /\
   exists sc', sessionConfig (store t') = Some sc'
               /\ sc_diceSides sc' = sc_diceSides sc
               /\ sc_selectionMethod sc' = sc_selectionMethod sc).
Proof.
  intros Hb Hsc t'.
  split; [apply isSessionExpired_spec|].
  assert (Ht' : t' = fst (onRehydrateStorage b now now' t)).
  { subst t'. unfold hydrate.
    destruct (isSessionExpired now (timestamp sc)) eqn:Hexp.
    - rewrite (rehydrate_expired b now now' t sc Hsc Hexp).
      unfold clearConfig. rewrite set_eq, (persist_write_accepted b Hb).
      reflexivity.
    - destruct (StorageType_eqb (sc_storageType sc) (getStorageType b)) eqn:E.
      + apply StorageType_eqb_eq in E.
        now rewrite (rehydrate_aligned b now now' t sc Hsc Hexp E).
      + assert (Hneq : sc_storageType sc <> getStorageType b).
        { intro H. apply StorageType_eqb_eq in H. congruence. }
        rewrite (rehydrate_realigned b now now' t sc Hsc Hexp Hneq), Hb.
        reflexivity. }
  split; [exact Ht'|]. rewrite Ht'. split.
  - intro H. apply isSessionExpired_spec in H.
    rewrite (rehydrate_expired b now now' t sc Hsc H), store_clearConfig.
    now cbn.
  - intro H.
    assert (Hf : isSessionExpired now (timestamp sc) = false).
    { destruct (isSessionExpired now (timestamp sc)) eqn:E; [|reflexivity].
      apply isSessionExpired_spec in E. lia. }
    exact (rehydrate_fresh b now now' t sc Hsc Hf).
Qed.

(** C3 at the failing input.  A tab is restored from a record of D6 stamped
    25 hours ago, in a browser whose [localStorage] refuses writes.  The
    record is expired and the hook calls [clearConfig], which throws on the
    write of [persist]: the hook does not return, and the tab starts with
    the restored state, the expired configuration and session record
    included.  Where the writes are accepted the same record is cleared, and
    a record stamped 23 hours ago is kept in both browsers. *)
Theorem C3_expired_record_survives_refused_write :
  let hours (n : Z) := n * 60 * 60 * 1000 in
  let t := restored_tab full_localStorage in
  sessionConfig (store t)
  = Some (mkSessionConfig 6 predefined 0 localStorage "k") /\
  isSessionExpired (hours 25) 0 = true /\
  snd (onRehydrateStorage full_localStorage (hours 25) (hours 25) t)
  = Throw DOMException /\
  (let t' := hydrate full_localStorage (hours 25) (hours 25) t in
   config (store t') = Some (D 6) /\ sessionConfig (store t') <> None) /\
  (let u' := hydrate working_browser (hours 25) (hours 25)
               (restored_tab working_browser) in
   config (store u') = None /\ sessionConfig (store u') = None) /\
  (let t' := hydrate full_localStorage (hours 23) (hours 23) t in
   config (store t') = Some (D 6) /\ sessionConfig (store t') <> None) /\
  (let u' := hydrate working_browser (hours 23) (hours 23)
               (restored_tab working_browser) in
   config (store u') = Some (D 6) /\ sessionConfig (store u') <> None).
Proof.
  cbv zeta. split; [reflexivity|]. split; [reflexivity|].
  split; [reflexivity|].
  split; [split; [reflexivity | vm_compute; discriminate]|].
  split; [split; reflexivity|].
  split; [split; [reflexivity | vm_compute; discriminate]|].
  split; [reflexivity | vm_compute; discriminate].
Qed.

(** ** Choice of the storage medium *)

(** A probe succeeds when neither [setItem] nor [removeItem] throws. *)
Lemma probe_outcome b o tr :
  probe b o tr =
  if throws b o setItem then (Throw DOMException, (tr ++ [(o, setItem)])%list)
  else if throws b o removeItem
       then (Throw DOMException,
             (tr ++ [(o, setItem); (o, removeItem)])%list)
       else (Ok tt, (tr ++ [(o, setItem); (o, removeItem)])%list).
Proof.
  unfold probe, call.
  destruct (throws b o setItem); [reflexivity|].
  rewrite <- app_assoc. now destruct (throws b o removeItem).
Qed.

Lemma probe_never_reads b o tr o' :
  ~ In (o', getItem) tr -> ~ In (o', getItem) (snd (probe b o tr)).
Proof.
  intros Hnot. rewrite probe_outcome.
  destruct (throws b o setItem); [|destruct (throws b o removeItem)];
    cbn [snd]; rewrite in_app_iff; cbn;
    intros [H | H]; try contradiction;
    repeat (destruct H as [H | H]; try discriminate H); exact H.
Qed.

(** C6, as the code has it.  The media are probed in order, [localStorage]
    first, each by writing and deleting the sentinel key; the key is never
    read back.  If the first probe succeeds the result is [localStorage]; if
    it throws on the write, [sessionStorage] is probed and is the result when
    its probe succeeds; if both probes throw the result is [unavailable]. *)
Theorem C6_medium_selection_by_write_and_delete (b : Browser) :
  (throws b localStorageObject setItem = false ->
   throws b localStorageObject removeItem = false ->
   getStorageType_traced b =
   (localStorage,
    [(localStorageObject, setItem); (localStorageObject, removeItem)])) /\
  (throws b localStorageObject setItem = true ->
   throws b sessionStorageObject setItem = false ->
   throws b sessionStorageObject removeItem = false ->
   getStorageType_traced b =
   (sessionStorage,
    [(localStorageObject, setItem);
     (sessionStorageObject, setItem); (sessionStorageObject, removeItem)])) /\
  (throws b localStorageObject setItem = true ->
   throws b sessionStorageObject setItem = true ->
   getStorageType_traced b =
   (unavailable,
    [(localStorageObject, setItem); (sessionStorageObject, setItem)])) /\
  (forall succeeds : StorageObject -> bool,
   (forall o, succeeds o
              = negb (throws b o setItem) && negb (throws b o removeItem)) ->
   getStorageType b =
   if succeeds localStorageObject then localStorage
   else if succeeds sessionStorageObject then sessionStorage
        else unavailable) /\
  (forall o, ~ In (o, getItem) (snd (getStorageType_traced b))).
Proof.
  split; [|split; [|split; [|split]]].
  - intros H1 H2. unfold getStorageType_traced.
    rewrite probe_outcome, H1, H2. reflexivity.
  - intros H1 H2 H3. unfold getStorageType_traced.
    rewrite probe_outcome, H1. cbv iota beta.
    rewrite probe_outcome, H2, H3. reflexivity.
  - intros H1 H2. unfold getStorageType_traced.
    rewrite probe_outcome, H1. cbv iota beta.
    rewrite probe_outcome, H2. reflexivity.
  - intros succeeds Hs. unfold getStorageType, getStorageType_traced.
    rewrite !Hs, probe_outcome.
    destruct (throws b localStorageObject setItem),
             (throws b localStorageObject removeItem);
      cbv iota beta; try reflexivity; rewrite probe_outcome;
      destruct (throws b sessionStorageObject setItem),
               (throws b sessionStorageObject removeItem); reflexivity.
  - intro o. unfold getStorageType_traced.
    pose proof (probe_never_reads b localStorageObject [] o (fun H => H)) as H1.
    destruct (probe b localStorageObject []) as [[u | e] tr] eqn:E1;
      cbn [snd] in *; [exact H1|].
    pose proof (probe_never_reads b sessionStorageObject tr o H1) as H2.
    destruct (probe b sessionStorageObject tr) as [[u | e'] tr']; exact H2.
Qed.

Lemma C6_medium_selection_witness :
  getStorageType working_browser = localStorage /\
  getStorageType full_localStorage = sessionStorage /\
  getStorageType no_storage = unavailable.
Proof.
  split; [|split].
  - exact (f_equal fst
             (proj1 (C6_medium_selection_by_write_and_delete working_browser)
                eq_refl eq_refl)).
  - exact (f_equal fst
             (proj1 (proj2
                (C6_medium_selection_by_write_and_delete full_localStorage))
                eq_refl eq_refl eq_refl)).
  - exact (f_equal fst
             (proj1 (proj2 (proj2
                (C6_medium_selection_by_write_and_delete no_storage)))
                eq_refl eq_refl)).
Defined.

(** C6 as stated fails: on a browser whose Storage calls all succeed the
    probe makes two calls, a write and a delete, and no read; and where only
    reading [localStorage] throws, a probe that read the key back would fall
    back to [sessionStorage], while [getStorageType] answers
    [localStorage]. *)
Lemma C6_probe_never_reads_the_sentinel :
  snd (getStorageType_traced working_browser)
  <> [(localStorageObject, setItem); (localStorageObject, getItem);
      (localStorageObject, removeItem)] /\
  snd (getStorageType_traced working_browser)
  <> snd (selectActiveStorageMedium_spec working_browser) /\
  getStorageType unreadable_localStorage
  <> fst (selectActiveStorageMedium_spec unreadable_localStorage).
Proof. repeat split; vm_compute; discriminate. Qed.

(** ** Timestamps of successive writes *)

Lemma write_stamps_clock b now w t :
  sessionConfig (store t) <> None ->
  stored_timestamp (fst (write b now w t)) = Some now.
Proof.
  intro H. unfold stored_timestamp. destruct w as [k cfg | updates]; cbn [write].
  - now rewrite store_setConfig.
  - destruct (sessionConfig (store t)) as [current|] eqn:E; [|contradiction].
    now rewrite (store_updateSessionConfig _ _ _ _ current E).
Qed.

Lemma write_keeps_session b now w t :
  sessionConfig (store t) <> None ->
  sessionConfig (store (fst (write b now w t))) <> None.
Proof.
  intros H E. pose proof (write_stamps_clock b now w t H) as Hs.
  unfold stored_timestamp in Hs. rewrite E in Hs. discriminate.
Qed.

(** C5, as the code has it.  In a tab that holds a session record, the
    timestamp stored by each write is the clock reading of that write,
    whether the browser accepts the write of [persist] or not.  Over two
    successive writes it is therefore strictly greater after the second one
    exactly when the clock advanced between them. *)
Theorem C5_written_timestamp_is_clock_reading (b : Browser) (t : Tab) :
  sessionConfig (store t) <> None ->
  (forall ws, timestamps_after b ws t = map (fun w => Some (fst w)) ws) /\
  (forall now1 w1 now2 w2,
     exists s1 s2,
       timestamps_after b [(now1, w1); (now2, w2)] t = [Some s1; Some s2]
       /\ (s1 < s2 <-> now1 < now2)).
Proof.
  intro H.
  assert (Hall : forall ws u, sessionConfig (store u) <> None ->
                 timestamps_after b ws u = map (fun w => Some (fst w)) ws).
  { induction ws as [|[now w] rest IH]; intros u Hu; [reflexivity|].
    cbn [timestamps_after map fst]. rewrite write_stamps_clock by exact Hu.
    f_equal. apply IH. now apply write_keeps_session. }
  split.
  - intro ws. now apply Hall.
  - intros now1 w1 now2 w2. exists now1, now2. split; [|tauto].
    now rewrite Hall.
Qed.

Lemma C5_written_timestamp_witness :
  timestamps_after working_browser
    [(2000, WriteSession no_updates); (3000, WriteConfig "b" (D 8))]
    (showing (D 20) 1000 "a")
  = [Some 2000; Some 3000].
Proof.
  apply (C5_written_timestamp_is_clock_reading working_browser
           (showing (D 20) 1000 "a")).
  vm_compute. discriminate.
Defined.

(** C5 as stated fails: two writes of one tab within the same millisecond
    store equal timestamps. *)
Lemma C5_two_writes_in_one_millisecond :
  exists s1 s2,
    timestamps_after working_browser
      [(1000, WriteConfig "a" (D 20)); (1000, WriteConfig "b" (D 8))]
      (initialTab working_browser) = [Some s1; Some s2]
    /\ ~ s1 < s2.
Proof. exists 1000, 1000. split; [reflexivity | lia]. Qed.

(** ** The [storage] event listener *)

Lemma timestamp_or_0_Some sc : timestamp_or_0 (Some sc) = timestamp sc.
Proof.
  unfold timestamp_or_0. destruct (Z.eqb_spec (timestamp sc) 0); congruence.
Qed.

(** What the [catch] block of the listener does. *)
Lemma listener_catch b t :
  (console_error "Storage sync error:" ;; incrementSyncRetry b) t
  = incrementSyncRetry b (fst (console_error "Storage sync error:" t)).
Proof. reflexivity. Qed.

(** On a record that carries a configuration and a session record the
    listener adopts the configuration exactly when the record's timestamp is
    greater than the tab's (0 when the tab has none).  [resetSyncRetry]
    follows when the write of [setConfig] went through; when it threw, the
    [catch] block counts a failure. *)
Lemma storageListener_written b now k cfg sc t :
  storageListener b now k (written (mkPersisted (Some cfg) (Some sc))) t =
  if timestamp sc >? timestamp_or_0 (sessionConfig (store t))
  then
    let t1 := fst (setConfig b now k cfg t) in
    if throws b localStorageObject setItem
    then incrementSyncRetry b (fst (console_error "Storage sync error:" t1))
    else resetSyncRetry b t1
  else (t, Ok tt).
Proof.
  unfold storageListener, written, try_catch, bind, lift, getState, ret.
  cbn [key newValue String.eqb Ascii.eqb Bool.eqb JSON_parse]. cbv iota beta.
  destruct (timestamp sc >? timestamp_or_0 (sessionConfig (store t)));
    [|reflexivity].
  cbn [call_setConfig]. unfold resetSyncRetry, setConfig, set, persist_write.
  cbv zeta. cbn [fst].
  destruct (throws b localStorageObject setItem); reflexivity.
Qed.

(** A record that is not newer is ignored, in every browser. *)
Lemma storageListener_stale b now k cfg sc t :
  timestamp sc <= timestamp_or_0 (sessionConfig (store t)) ->
  storageListener b now k (written (mkPersisted (Some cfg) (Some sc))) t
  = (t, Ok tt).
Proof.
  intro H. rewrite storageListener_written.
  replace (timestamp sc >? timestamp_or_0 (sessionConfig (store t))) with false
    by (symmetry; rewrite Z.gtb_ltb; apply Z.ltb_ge; lia).
  reflexivity.
Qed.

(** A newer record is adopted, in every browser: the tab has its
    configuration, stamped with the local clock, when the listener ends. *)
Lemma storageListener_newer b now k cfg sc t :
  timestamp sc > timestamp_or_0 (sessionConfig (store t)) ->
  let t' := fst (storageListener b now k
                   (written (mkPersisted (Some cfg) (Some sc))) t) in
  config (store t') = Some cfg /\
  sessionConfig (store t')
  = Some (mkSessionConfig (diceSides cfg) (selectionMethod cfg) now
            (storageType (store t)) k) /\
  storageType (store t') = storageType (store t).
Proof.
  intros H t'. subst t'. rewrite storageListener_written.
  replace (timestamp sc >? timestamp_or_0 (sessionConfig (store t))) with true
    by (symmetry; rewrite Z.gtb_ltb; apply Z.ltb_lt; lia).
  cbv zeta. destruct (throws b localStorageObject setItem).
  - rewrite store_incrementSyncRetry. cbn [store console_error fst config
      sessionConfig storageType]. rewrite store_setConfig. now cbn.
  - rewrite store_resetSyncRetry, store_setConfig. now cbn.
Qed.

Lemma storageListener_adopts_iff_newer b now k cfg sc current t :
  sessionConfig (store t) = Some current ->
  let r := storageListener b now k
             (written (mkPersisted (Some cfg) (Some sc))) t in
  (timestamp sc > timestamp current -> config (store (fst r)) = Some cfg) /\
  (timestamp sc <= timestamp current -> r = (t, Ok tt)).
Proof.
  intros Hcur r. subst r. split; intro H.
  - apply storageListener_newer. now rewrite Hcur, timestamp_or_0_Some.
  - apply storageListener_stale. now rewrite Hcur, timestamp_or_0_Some.
Qed.

(** The end-to-end scenario: D20 is set at time [now]; a notification with
    D8 stamped [now + 1000] is adopted, one stamped [now - 1000] is ignored. *)
Lemma storageListener_end_to_end b b' now now' k k' other :
  let t := fst (setConfig b now k (D 20) (initialTab b)) in
  option_map diceSides
    (config (store (fst (storageListener b' now' k'
                           (written (record (D 8) (now + 1000) other)) t))))
  = Some 8 /\
  storageListener b' now' k' (written (record (D 8) (now - 1000) other)) t
  = (t, Ok tt).
Proof.
  intro t.
  assert (Hcur : sessionConfig (store t)
                 = Some (mkSessionConfig 20 predefined now
                           (getStorageType b) k)).
  { subst t. now rewrite store_setConfig. }
  split.
  - destruct (storageListener_adopts_iff_newer b' now' k' (D 8)
                (mkSessionConfig 8 predefined (now + 1000) localStorage other)
                _ t Hcur) as [Hnew _].
    unfold record; cbn [diceSides selectionMethod D].
    rewrite Hnew; [reflexivity | cbn; lia].
  - apply (storageListener_adopts_iff_newer b' now' k' (D 8)
             (mkSessionConfig 8 predefined (now - 1000) localStorage other)
             _ t Hcur).
    cbn; lia.
Qed.

(** C10. A notification whose new value parses but carries no session
    record (a null new value, a value without [state], a record whose
    [sessionConfig] is null, such as the one another tab's [clearConfig]
    persists) leaves the whole tab as it was, in every browser: nothing is
    adopted, nothing is cleared, the failure counter is not touched and the
    listener returns.  A polling tick that reads the record of a cleared tab
    leaves the store as it was, too: a [clearConfig] never reaches another
    tab. *)
Theorem C10_notification_without_session_ignored
  (b : Browser) (now : Z) (k : string) (t : Tab) :
  (forall key, storageListener b now k (mkEvent key None) t = (t, Ok tt)) /\
  (forall key,
     storageListener b now k (mkEvent key (Some (Json None))) t = (t, Ok tt)) /\
  (forall key cfg,
     storageListener b now k
       (mkEvent key (Some (Json (Some (mkPersisted cfg None))))) t
     = (t, Ok tt)) /\
  (forall (b' : Browser) (other : Tab),
     storageListener b now k
       (written (partialize (store (fst (clearConfig b' other))))) t
     = (t, Ok tt)) /\
  (forall (b' : Browser) (other : Tab),
     let r := pollingTick b now k
                (fun _ => Ok (Some (Json (Some (partialize
                   (store (fst (clearConfig b' other))))))))
                t in
     store (fst r) = store t /\ snd r = Ok tt).
Proof.
  split; [|split; [|split; [|split]]].
  - intro key. unfold storageListener; cbn.
    now destruct (key =? "dice-config-store")%string.
  - intro key. unfold storageListener; cbn.
    now destruct (key =? "dice-config-store")%string.
  - intros key cfg. unfold storageListener; cbn.
    now destruct (key =? "dice-config-store")%string.
  - intros b' other. rewrite store_clearConfig. reflexivity.
  - intros b' other. rewrite store_clearConfig. unfold pollingTick.
    destruct (pollingInterval t) as [state|]; [|now split].
    unfold try_catch, bind, lift, ret.
    destruct (storageType state); cbn -[timestamp_or_0 Z.gtb];
      try (now split);
      destruct (timestamp_or_0 None >? timestamp_or_0 (sessionConfig state));
      cbn; split; reflexivity.
Qed.

(** ** The polling callback *)

(** What the [try] block of a tick comes to, once the captured state and
    the text read are known: the tick ends at once, it throws before any
    action is called, or it calls [setConfig] and then [resetSyncRetry]. *)
Lemma pollingTick_unavailable b now k read t state :
  pollingInterval t = Some state ->
  storageType state = unavailable ->
  pollingTick b now k read t = (t, Ok tt).
Proof. intros Hint Hst. unfold pollingTick. now rewrite Hint, Hst. Qed.

Lemma pollingTick_read_fails b now k read t state :
  pollingInterval t = Some state ->
  storageType state <> unavailable ->
  (exists e, read (polled_medium state) = Throw e)
  \/ read (polled_medium state) = Ok (Some Unparsable) ->
  pollingTick b now k read t = console_error "Polling sync error:" t.
Proof.
  intros Hint Hst Hread. unfold pollingTick. rewrite Hint.
  unfold polled_medium in Hread.
  destruct (storageType state); try contradiction;
    destruct Hread as [[e He] | He];
    unfold try_catch, bind, lift; rewrite He; reflexivity.
Qed.

(** An adoption by a tick: [setConfig], then [resetSyncRetry] when the write
    went through; when it threw, the [catch] block logs it and the interval
    stays. *)
Lemma pollingTick_adoption b now k cfg t :
  try_catch (call_setConfig b now k (Some cfg) ;; resetSyncRetry b)
    (fun _ => console_error "Polling sync error:") t
  = let t1 := fst (setConfig b now k cfg t) in
    if throws b localStorageObject setItem
    then console_error "Polling sync error:" t1
    else resetSyncRetry b t1.
Proof.
  unfold try_catch, bind, call_setConfig, resetSyncRetry, setConfig, set,
    persist_write.
  cbv zeta. cbn [fst].
  destruct (throws b localStorageObject setItem); reflexivity.
Qed.

Lemma pollingTick_read b now k read t state cfg sc :
  pollingInterval t = Some state ->
  storageType state <> unavailable ->
  read (polled_medium state)
  = Ok (Some (Json (Some (mkPersisted (Some cfg) sc)))) ->
  pollingTick b now k read t =
  if timestamp_or_0 sc >? timestamp_or_0 (sessionConfig state)
  then
    let t1 := fst (setConfig b now k cfg t) in
    if throws b localStorageObject setItem
    then console_error "Polling sync error:" t1
    else resetSyncRetry b t1
  else (t, Ok tt).
Proof.
  intros Hint Hst Hread. unfold pollingTick. rewrite Hint.
  unfold polled_medium in Hread.
  destruct (storageType state); try contradiction;
    (unfold try_catch at 1, bind at 1, lift at 1; rewrite Hread;
     unfold bind at 1, lift at 1; cbn [JSON_parse p_sessionConfig];
     destruct (timestamp_or_0 sc >? timestamp_or_0 (sessionConfig state));
     [|reflexivity];
     rewrite <- pollingTick_adoption; reflexivity).
Qed.

(** What a tick does with a complete record read from the polled medium:
    the record's timestamp is compared with that of the state captured when
    the interval started. *)
Lemma pollingTick_written b now k read t state cfg sc :
  pollingInterval t = Some state ->
  storageType state <> unavailable ->
  read (polled_medium state)
  = Ok (Some (Json (Some (mkPersisted (Some cfg) (Some sc))))) ->
  pollingTick b now k read t =
  if timestamp sc >? timestamp_or_0 (sessionConfig state)
  then
    let t1 := fst (setConfig b now k cfg t) in
    if throws b localStorageObject setItem
    then console_error "Polling sync error:" t1
    else resetSyncRetry b t1
  else (t, Ok tt).
Proof.
  intros Hint Hst Hread.
  rewrite (pollingTick_read b now k read t state cfg (Some sc) Hint Hst Hread).
  now rewrite timestamp_or_0_Some.
Qed.

(** A tick never throws. *)
Lemma pollingTick_returns b now k read t :
  snd (pollingTick b now k read t) = Ok tt.
Proof.
  unfold pollingTick. destruct (pollingInterval t) as [state|]; [|reflexivity].
  unfold try_catch.
  match goal with |- snd (match ?body with _ => _ end) = _ =>
    destruct body as [t1 [[]|e]]; reflexivity end.
Qed.

(** How a tick ends depends on the captured state and on what it reads, not
    on the live store: nothing happens, an error is logged, or a
    configuration is adopted. *)
Lemma pollingTick_cases read state :
  (forall b now k t, pollingInterval t = Some state ->
                     pollingTick b now k read t = (t, Ok tt))
  \/ (forall b now k t, pollingInterval t = Some state ->
        pollingTick b now k read t = console_error "Polling sync error:" t)
  \/ (exists cfg, forall b now k t, pollingInterval t = Some state ->
        pollingTick b now k read t =
        let t1 := fst (setConfig b now k cfg t) in
        if throws b localStorageObject setItem
        then console_error "Polling sync error:" t1
        else resetSyncRetry b t1).
Proof.
  destruct (storageType state) eqn:Hst;
    [ | | left; intros b now k t H; now apply (pollingTick_unavailable _ _ _ _ _ state)].
  all: assert (Hne : storageType state <> unavailable) by congruence.
  all: destruct (read (polled_medium state)) as [[[|[[cfg sc]|]]|]|e] eqn:Hread.
  all: try (right; left; intros b now k t H;
            apply (pollingTick_read_fails _ _ _ _ _ state H Hne);
            (right; exact Hread) || (left; now exists e)).
  all: try (destruct cfg as [cfg|]).
  all: try (destruct (timestamp_or_0 sc >? timestamp_or_0 (sessionConfig state))
              eqn:Hgt).
  all: try (destruct (timestamp_or_0 None >? timestamp_or_0 (sessionConfig state))
              eqn:Hgt').
  all: try (right; right; exists cfg; intros b now k t H;
            rewrite (pollingTick_read b now k read t state cfg sc H Hne Hread);
            rewrite Hgt; reflexivity).
  all: try (left; intros b now k t H;
            rewrite (pollingTick_read b now k read t state cfg sc H Hne Hread);
            rewrite Hgt; reflexivity).
  all: unfold polled_medium in Hread; rewrite Hst in Hread.
  all: try (left; intros b now k t H; unfold pollingTick;
            rewrite H, Hst; unfold try_catch, bind, lift; rewrite Hread;
            cbn [JSON_parse p_sessionConfig p_config];
            rewrite ?Hgt, ?Hgt'; reflexivity).
  all: try (right; left; intros b now k t H; unfold pollingTick;
            rewrite H, Hst; unfold try_catch, bind, lift; rewrite Hread;
            cbn [JSON_parse p_sessionConfig p_config call_setConfig];
            rewrite ?Hgt, ?Hgt'; reflexivity).

Qed.

(** ** Malformed payloads *)

(** On an unparsable new value the listener logs the error and calls
    [incrementSyncRetry], and ends as that call does. *)
Lemma storageListener_garbled b now k t :
  storageListener b now k garbled t
  = incrementSyncRetry b (fst (console_error "Storage sync error:" t)).
Proof. reflexivity. Qed.

(** Where the browser accepts the write of [persist], neither handler lets
    an exception escape.  In the listener an unparsable new value is logged
    and counted as a sync failure, which turns polling on once the counter
    reaches 3.  In the polling callback a read that throws or a text that
    does not parse is logged and the tick ends there: the store, its failure
    counter included, and the interval are as before. *)
Lemma malformed_payload_where_writes_are_accepted
  (b : Browser) (now : Z) (k : string) (t : Tab) :
  throws b localStorageObject setItem = false ->
  (forall event, snd (storageListener b now k event t) = Ok tt) /\
  (let t' := fst (storageListener b now k garbled t) in
   syncRetryCount (store t') = syncRetryCount (store t) + 1
   /\ (syncRetryCount (store t) + 1 >= 3 -> pollingActive (store t') = true)
   /\ config (store t') = config (store t)
   /\ sessionConfig (store t') = sessionConfig (store t)).
Proof.
  intro Hb. split.
  - intro event. unfold storageListener.
    destruct (key event =? "dice-config-store")%string; [|reflexivity].
    unfold try_catch.
    match goal with |- snd (match ?body with _ => _ end) = _ =>
      destruct body as [t1 [[]|e]]; [reflexivity|] end.
    rewrite listener_catch, snd_incrementSyncRetry.
    now apply persist_write_accepted.
  - cbv zeta. rewrite storageListener_garbled, store_incrementSyncRetry, Hb.
    cbn. repeat split.
    intro H. destruct (Z.geb_spec (syncRetryCount (store t) + 1) 3);
      [reflexivity | lia].
Qed.

(** C9 at the failing input.  A new tab in a browser whose [localStorage]
    refuses writes meets three unparsable notifications in a row.  Each time
    the [catch] block logs the error and calls [incrementSyncRetry], whose
    write throws: the exception leaves the listener, and after the third
    notification the counter is 3 while polling is off and no interval runs.
    Where the writes are accepted the same notifications return and turn
    polling on.  The polling callback never throws, in any browser, and on a
    text that does not parse it logs and leaves the store alone. *)
Theorem C9_listener_raises_where_write_is_refused :
  (let t := initialTab full_localStorage in
   let r1 := storageListener full_localStorage 1 "k" garbled t in
   let r2 := storageListener full_localStorage 2 "k" garbled (fst r1) in
   let r3 := storageListener full_localStorage 3 "k" garbled (fst r2) in
   (snd r1 = Throw DOMException /\ snd r2 = Throw DOMException
    /\ snd r3 = Throw DOMException)
   /\ syncRetryCount (store (fst r3)) = 3
   /\ pollingActive (store (fst r3)) = false
   /\ pollingInterval (fst r3) = None) /\
  (let t := initialTab working_browser in
   let r1 := storageListener working_browser 1 "k" garbled t in
   let r2 := storageListener working_browser 2 "k" garbled (fst r1) in
   let r3 := storageListener working_browser 3 "k" garbled (fst r2) in
   (snd r1 = Ok tt /\ snd r2 = Ok tt /\ snd r3 = Ok tt)
   /\ syncRetryCount (store (fst r3)) = 3
   /\ pollingActive (store (fst r3)) = true) /\
  (forall b now k read t, snd (pollingTick b now k read t) = Ok tt) /\
  (forall b,
     let r := pollingTick b 5000 "k" (fun _ => Ok (Some Unparsable))
                polling_tab in
     store (fst r) = store polling_tab
     /\ pollingInterval (fst r) = pollingInterval polling_tab
     /\ console (fst r)
        = (console polling_tab ++ ["Polling sync error:"])%list).
Proof.
  split; [cbv zeta; repeat split|]. split; [cbv zeta; repeat split|].
  split; [exact pollingTick_returns|].
  intro b. cbv zeta.
  rewrite (pollingTick_read_fails b 5000 "k" _ polling_tab (store polling_tab));
    [now cbn | reflexivity | discriminate | now right].
Qed.

(** ** Applying a notification twice *)

(** C2, as the code has it.  An adopted record is stamped with the local
    clock, not with its own timestamp.  So a notification whose record
    carries a configuration and a timestamp not later than the clock read at
    its first application changes nothing when it is applied again, whatever
    the browser, the clock and the sync key of the second application: the
    tab is left as the first application left it, and the listener
    returns.  The first application returns as well where the browser
    accepts the write of [persist]. *)
Theorem C2_second_application_changes_nothing
  (b1 b2 : Browser) (now1 now2 : Z) (k1 k2 : string) (cfg : DiceConfig)
  (sc : SessionConfig) (t : Tab) :
  timestamp sc <= now1 ->
  let event := written (mkPersisted (Some cfg) (Some sc)) in
  let u := fst (storageListener b1 now1 k1 event t) in
  storageListener b2 now2 k2 event u = (u, Ok tt) /\
  (throws b1 localStorageObject setItem = false ->
   storageListener b1 now1 k1 event t = (u, Ok tt)).
Proof.
  intros Hle event u. split.
  2: { intro Hb. subst u.
       rewrite <- (proj1 (malformed_payload_where_writes_are_accepted
                            b1 now1 k1 t Hb) event).
       now destruct (storageListener b1 now1 k1 event t). }
  subst event. apply storageListener_stale.
  destruct (timestamp sc >? timestamp_or_0 (sessionConfig (store t))) eqn:E.
  - subst u.
    destruct (storageListener_newer b1 now1 k1 cfg sc t) as (_ & Hs & _).
    + rewrite Z.gtb_ltb in E. apply Z.ltb_lt in E. lia.
    + rewrite Hs, timestamp_or_0_Some. exact Hle.
  - subst u. rewrite storageListener_written, E. cbn [fst].
    rewrite Z.gtb_ltb in E. apply Z.ltb_ge in E. exact E.
Qed.

Lemma C2_second_application_witness :
  let event := written (record (D 8) 900 "other") in
  let u := fst (storageListener working_browser 1001 "k2" event
                  (showing (D 20) 500 "k1")) in
  storageListener full_localStorage 1002 "k3" event u = (u, Ok tt).
Proof.
  apply (proj1 (C2_second_application_changes_nothing working_browser
                  full_localStorage 1001 1002 "k2" "k3" (D 8)
                  (mkSessionConfig 8 predefined 900 localStorage "other")
                  (showing (D 20) 500 "k1")
                  ltac:(cbn; lia))).
Defined.

(** C2 as stated fails.  A record stamped ahead of the local clock (here
    2000, applied at 1001 and again at 1002) is adopted at both
    applications, and the second one changes the stored timestamp and sync
    key.  A record with a session record but no configuration is counted as
    a failure at each application. *)
Lemma C2_future_stamped_record_adopted_twice :
  let t := showing (D 20) 1000 "k1" in
  (let event := written (record (D 8) 2000 "other") in
   let r1 := storageListener working_browser 1001 "k2" event t in
   let r2 := storageListener working_browser 1002 "k3" event (fst r1) in
   snd r1 = Ok tt /\ snd r2 = Ok tt /\ store (fst r2) <> store (fst r1)) /\
  (let lone := mkPersisted None (p_sessionConfig (record (D 8) 2000 "other")) in
   let r1 := storageListener working_browser 1001 "k2" (written lone) t in
   let r2 := storageListener working_browser 1002 "k3" (written lone) (fst r1) in
   snd r1 = Ok tt /\ snd r2 = Ok tt
   /\ syncRetryCount (store (fst r2)) <> syncRetryCount (store (fst r1))).
Proof.
  cbv zeta. split.
  - split; [reflexivity|]. split; [reflexivity|]. vm_compute. discriminate.
  - split; [reflexivity|]. split; [reflexivity|]. vm_compute. discriminate.
Qed.

(** ** The polling callback compares with the captured state *)

(** C1 at the failing input.  The tab went into polling while showing D20
    (stamped 1000); its user then chose D8 at time 2000.  A tick that reads a
    record stamped 2000, equal to the tab's own timestamp, adopts it: read
    back, the tab's own record is stamped anew and ends polling; another
    tab's D6 of the same millisecond replaces D8.  The listener leaves the
    tab untouched on the same record. *)
Theorem C1_polling_adopts_record_not_newer :
  stored_timestamp polling_tab_after_local_write = Some 2000 /\
  (let r := pollingTick working_browser 3000 "k3"
              (fun _ => Ok (Some (Json (Some (partialize
                  (store polling_tab_after_local_write))))))
              polling_tab_after_local_write in
   snd r = Ok tt
   /\ stored_timestamp (fst r) = Some 3000
   /\ pollingActive (store (fst r)) = false
   /\ store (fst r) <> store polling_tab_after_local_write) /\
  (let r := pollingTick working_browser 3000 "k3"
              (fun _ => Ok (Some (Json (Some (record (D 6) 2000 "other")))))
              polling_tab_after_local_write in
   snd r = Ok tt
   /\ option_map diceSides (config (store (fst r))) = Some 6) /\
  storageListener working_browser 3000 "k3"
    (written (record (D 6) 2000 "other")) polling_tab_after_local_write
  = (polling_tab_after_local_write, Ok tt).
Proof.
  split; [reflexivity|]. split; [|split].
  - cbv zeta. split; [reflexivity|]. split; [reflexivity|].
    split; [reflexivity|]. vm_compute. discriminate.
  - cbv zeta. split; reflexivity.
  - reflexivity.
Qed.

End StoreFacts.

(** * Properties of the validation service *)

Module ServiceFacts.
Import Service.

(** ** Numbers *)

Lemma denotes_integer q n :
  (q == inject_Z n)%Q -> isInteger (JFinite q) = true /\ to_Z (JFinite q) = n.
Proof.
  unfold Qeq, isInteger, to_Z; cbn. rewrite Z.mul_1_r. intros ->.
  split.
  - apply Z.eqb_eq. apply Z_mod_mult.
  - apply Z_div_mult. lia.
Qed.

Lemma integer_denotes q :
  isInteger (JFinite q) = true -> (q == inject_Z (to_Z (JFinite q)))%Q.
Proof.
  unfold Qeq, isInteger, to_Z; cbn. rewrite Z.mul_1_r. intro H.
  apply Z.eqb_eq in H. rewrite Z.mul_comm.
  apply Z_div_exact_full_2; [lia | exact H].
Qed.

Lemma lt_denotes q n m :
  (q == inject_Z n)%Q -> lt (JFinite q) (num m) = (n <? m).
Proof.
  intro H. unfold lt, num.
  destruct (Z.ltb_spec n m) as [Hlt | Hge].
  - apply negb_true_iff. destruct (Qle_bool (inject_Z m) q) eqn:E; [|reflexivity].
    apply Qle_bool_iff in E. rewrite H, <- Zle_Qle in E. lia.
  - apply negb_false_iff. apply Qle_bool_iff. rewrite H, <- Zle_Qle. exact Hge.
Qed.

Lemma gt_denotes q n m :
  (q == inject_Z n)%Q -> gt (JFinite q) (num m) = (m <? n).
Proof.
  intro H. unfold gt, lt, num.
  destruct (Z.ltb_spec m n) as [Hlt | Hge].
  - apply negb_true_iff. destruct (Qle_bool q (inject_Z m)) eqn:E; [|reflexivity].
    apply Qle_bool_iff in E. rewrite H, <- Zle_Qle in E. lia.
  - apply negb_false_iff. apply Qle_bool_iff. rewrite H, <- Zle_Qle. exact Hge.
Qed.

Lemma num_denotes n : (inject_Z n == inject_Z n)%Q.
Proof. reflexivity. Qed.

Lemma same_num a b : same (num a) (num b) = (a =? b).
Proof.
  unfold same, num, Qeq_bool; cbn. now rewrite !Z.mul_1_r.
Qed.

Lemma includes_In l n : includes l (num n) = true <-> In n l.
Proof.
  unfold includes. rewrite existsb_exists. split.
  - intros (o & Ho & Hs). rewrite same_num in Hs. apply Z.eqb_eq in Hs.
    now subst.
  - intro H. exists n. split; [exact H|]. rewrite same_num. apply Z.eqb_refl.
Qed.

(** Up to [Number.MAX_SAFE_INTEGER] an integer is a number of its own. *)
Lemma double_of_Z_safe n :
  Z.abs n <= MAX_SAFE_INTEGER -> double_of_Z n = num n.
Proof.
  unfold MAX_SAFE_INTEGER, double_of_Z, num. intro H.
  assert (He : Z.log2 (Z.abs n) - 52 <= 0).
  { destruct (Z.eq_dec (Z.abs n) 0) as [E | E]; [rewrite E; cbn; lia|].
    assert (Z.log2 (Z.abs n) < 53); [|lia].
    apply Z.log2_lt_pow2; lia. }
  replace (Z.log2 (Z.abs n) - 52 <=? 0) with true
    by (symmetry; apply Z.leb_le; exact He).
  replace (2 ^ 1024 <=? Z.abs n) with false
    by (symmetry; apply Z.leb_gt;
        apply Z.le_lt_trans with (2 ^ 53 - 1); [exact H | reflexivity]).
  f_equal. f_equal. destruct n; cbn; lia.
Qed.

Lemma nearest_lower a d : nearest a d >= a / d.
Proof.
  unfold nearest. destruct (2 * (a mod d) <? d); [lia|].
  destruct (d <? 2 * (a mod d)); [lia|]. destruct (Z.even (a / d)); lia.
Qed.

(** Beyond the safe integers the number is an infinity or an integer of at
    least [2^53]. *)
Lemma double_of_Z_large n :
  MAX_SAFE_INTEGER < n ->
  double_of_Z n = JInfinity false
  \/ exists r, double_of_Z n = num r /\ 2 ^ 53 <= r.
Proof.
  unfold MAX_SAFE_INTEGER, double_of_Z, num. intro H.
  assert (Hn : Z.abs n = n) by lia. rewrite Hn.
  assert (Hlog : 53 <= Z.log2 n) by (apply Z.log2_le_pow2; lia).
  replace (Z.log2 n - 52 <=? 0) with false by (symmetry; apply Z.leb_gt; lia).
  replace (n <? 0) with false by (symmetry; apply Z.ltb_ge; lia).
  destruct (2 ^ 1024 <=? nearest n (2 ^ (Z.log2 n - 52)) * 2 ^ (Z.log2 n - 52));
    [now left|].
  right. eexists. split; [reflexivity|].
  replace (Z.sgn n) with 1 by lia. rewrite Z.mul_1_l.
  set (e := Z.log2 n - 52) in *.
  assert (He : 1 <= e) by lia.
  assert (Hpow : 2 ^ Z.log2 n = 2 ^ 52 * 2 ^ e).
  { rewrite <- Z.pow_add_r by lia. f_equal. lia. }
  assert (Hd : 0 < 2 ^ e) by (apply Z.pow_pos_nonneg; lia).
  assert (Hq : 2 ^ 52 <= n / 2 ^ e).
  { apply Z.div_le_lower_bound; [exact Hd|].
    rewrite Z.mul_comm, <- Hpow. apply Z.log2_spec. lia. }
  pose proof (nearest_lower n (2 ^ e)) as Hnear.
  assert (H2e : 2 <= 2 ^ e).
  { change 2 with (2 ^ 1) at 1. apply Z.pow_le_mono_r; lia. }
  change (2 ^ 53) with (2 ^ 52 * 2). nia.
Qed.

Lemma double_of_Z_shape n :
  0 <= n ->
  double_of_Z n = JInfinity false \/ exists r, double_of_Z n = num r.
Proof.
  intro H. unfold double_of_Z, num.
  replace (n <? 0) with false by (symmetry; apply Z.ltb_ge; lia).
  match goal with |- context [if ?c then JInfinity false else _] =>
    destruct c end; [now left | right; now eexists].
Qed.

(** ** [diceConfigSet] *)

Lemma positive_int_success v x :
  positive_int v = Success x ->
  exists q, v = JNumber (JFinite q) /\ x = JFinite q
            /\ isInteger (JFinite q) = true /\ gt (JFinite q) (num 0) = true.
Proof.
  unfold positive_int, z_number.
  destruct v as [| | |[q|negative|]| | |]; try discriminate.
  unfold report, check.
  destruct (isInteger (JFinite q)) eqn:Hi, (gt (JFinite q) (num 0)) eqn:Hg;
    cbn; try discriminate.
  intros [= <-]. exists q. auto.
Qed.

Lemma positive_int_denotes q n :
  (q == inject_Z n)%Q -> 0 < n ->
  positive_int (JNumber (JFinite q)) = Success (JFinite q).
Proof.
  intros H Hpos. unfold positive_int, z_number, report, check.
  destruct (denotes_integer q n H) as [-> _].
  rewrite (gt_denotes q n 0 H).
  replace (0 <? n) with true by (symmetry; apply Z.ltb_lt; exact Hpos).
  reflexivity.
Qed.

Lemma selectionMethodSchema_success v m :
  selectionMethodSchema v = Success m ->
  (v = JString "predefined" /\ m = PREDEFINED)
  \/ (v = JString "custom" /\ m = CUSTOM).
Proof.
  unfold selectionMethodSchema. destruct v as [| | | |s| |]; try discriminate.
  destruct (String.eqb_spec s "predefined") as [-> | _].
  - intros [= <-]. now left.
  - destruct (String.eqb_spec s "custom") as [-> | _]; [|discriminate].
    intros [= <-]. now right.
Qed.

Lemma setConfigSchema_success body params :
  setConfigSchema body = Success params ->
  exists members q,
    body = JObject members
    /\ lookup "diceSides" members = JNumber (JFinite q)
    /\ isInteger (JFinite q) = true
    /\ gt (JFinite q) (num 0) = true
    /\ in_diceSides params = to_Z (JFinite q)
    /\ selectionMethodSchema (lookup "selectionMethod" members)
       = Success (in_selectionMethod params).
Proof.
  unfold setConfigSchema. destruct body as [| | | | | |members]; try discriminate.
  destruct (positive_int (lookup "diceSides" members)) as [x | i rest] eqn:Hs.
  - destruct (selectionMethodSchema (lookup "selectionMethod" members))
      as [m | i rest] eqn:Hm; [|discriminate].
    intros [= <-]. apply positive_int_success in Hs.
    destruct Hs as (q & Hv & -> & Hi & Hg). exists members, q. cbn [in_diceSides in_selectionMethod].
    repeat split; assumption.
  - cbn. discriminate.
Qed.

Lemma predefined_check n :
  (exists x, predefinedSidesSchema (JNumber (num n)) = Success x)
  <-> In n [4; 6; 8; 10; 12; 20].
Proof.
  unfold predefinedSidesSchema, z_number, num, report, check.
  fold (num n). rewrite <- (includes_In SIDES n).
  destruct (includes SIDES (num n)); cbn; split; intro H;
    try reflexivity; try discriminate; try (now eexists).
  destruct H; discriminate.
Qed.

Lemma custom_check_denotes q n :
  (q == inject_Z n)%Q ->
  (exists x, customSidesSchema (JNumber (JFinite q)) = Success x)
  <-> 2 <= n <= 1000.
Proof.
  intro H. unfold customSidesSchema, z_number.
  rewrite (proj1 (denotes_integer q n H)), (lt_denotes q n _ H),
    (gt_denotes q n _ H).
  unfold report, check, MIN_SIDES, MAX_SIDES.
  destruct (Z.ltb_spec n 2), (Z.ltb_spec 1000 n); cbn; split; intro H';
    try lia; try (now eexists); destruct H'; discriminate.
Qed.

Lemma custom_check n :
  (exists x, customSidesSchema (JNumber (num n)) = Success x)
  <-> 2 <= n <= 1000.
Proof. apply custom_check_denotes, num_denotes. Qed.

(** When [diceConfigSet] returns, the body was a valid request and the
    answer is built from it. *)
Lemma diceConfigSet_returns body r :
  diceConfigSet body = Returns r ->
  valid_request body (diceSides r) (selectionMethod r)
  /\ r = mkResponse (diceSides r) (selectionMethod r) (1, diceSides r)
           (1 / inject_Z (diceSides r))%Q ("D" ++ toString (diceSides r)).
Proof.
  unfold diceConfigSet.
  destruct (setConfigSchema body) as [params | i rest] eqn:Hs; [|discriminate].
  apply setConfigSchema_success in Hs.
  destruct Hs as (members & q & -> & Hsides & Hi & Hg & Hn & Hm).
  apply selectionMethodSchema_success in Hm.
  pose proof (integer_denotes q Hi) as Hden. rewrite <- Hn in Hden.
  destruct params as [n m]; cbn [in_diceSides in_selectionMethod] in *.
  destruct Hm as [[Hv ->] | [Hv ->]]; cbv zeta.
  - destruct (predefinedSidesSchema (JNumber (num n))) as [x | i rest] eqn:Hp;
      [|discriminate].
    intros [= <-]; cbn. split; [|reflexivity].
    apply (valid_predefined members (JFinite q) n); auto.
    apply predefined_check. now exists x.
  - destruct (customSidesSchema (JNumber (num n))) as [x | i rest] eqn:Hc;
      [|discriminate].
    intros [= <-]; cbn. split; [|reflexivity].
    apply (valid_custom members (JFinite q) n); auto.
    apply custom_check. now exists x.
Qed.

Lemma diceConfigSet_valid body n m :
  valid_request body n m ->
  diceConfigSet body
  = Returns (mkResponse n m (1, n) (1 / inject_Z n)%Q ("D" ++ toString n)).
Proof.
  intro H.
  assert (Hpos : 0 < n).
  { destruct H as [? ? ? _ _ _ Hin | ? ? ? _ _ _ Hr]; [|lia].
    cbn in Hin. intuition lia. }
  assert (Hschema : setConfigSchema body = Success (mkSetConfigInput n m)).
  { destruct H as [members x n Hs Hd Hm _ | members x n Hs Hd Hm _];
      destruct x as [q| |]; try contradiction; cbn in Hd;
      unfold setConfigSchema; rewrite Hs, Hm, (positive_int_denotes q n Hd Hpos);
      cbn [selectionMethodSchema String.eqb Ascii.eqb Bool.eqb];
      destruct (denotes_integer q n Hd) as [_ ->]; reflexivity. }
  unfold diceConfigSet. rewrite Hschema. cbn [in_selectionMethod in_diceSides].
  destruct H as [members x n _ _ _ Hin | members x n _ _ _ Hr].
  - apply predefined_check in Hin. destruct Hin as [y ->]. reflexivity.
  - apply custom_check in Hr. destruct Hr as [y ->]. reflexivity.
Qed.

Lemma diceConfigSet_throws body e :
  diceConfigSet body = Throws e ->
  code e = "VALIDATION_ERROR" /\ statusCode e = 400.
Proof.
  unfold diceConfigSet.
  destruct (setConfigSchema body) as [params | i rest].
  - destruct (in_selectionMethod params).
    + destruct (predefinedSidesSchema _); [discriminate|].
      intros [= <-]. now cbn.
    + destruct (customSidesSchema _); [discriminate|].
      intros [= <-]. now cbn.
  - intros [= <-]. now cbn.
Qed.

(** C8. [diceConfigSet] throws exactly when the body is not a valid request
    (predefined with sides among 4, 6, 8, 10, 12, 20, or custom with an
    integer from 2 to 1000), and what it throws is a [ServiceError] with code
    VALIDATION_ERROR and status 400.  On a valid request it returns the sides
    and the method with the range 1 to sides, the probability 1/sides and the
    label "D" followed by the sides. *)
Theorem C8_set_throws_iff_invalid (body : JsValue) :
  ((exists e, diceConfigSet body = Throws e
              /\ code e = "VALIDATION_ERROR" /\ statusCode e = 400)
   <-> ~ exists n m, valid_request body n m) /\
  (forall e, diceConfigSet body = Throws e ->
             code e = "VALIDATION_ERROR" /\ statusCode e = 400) /\
  (forall n m, valid_request body n m ->
     diceConfigSet body
     = Returns (mkResponse n m (1, n) (1 / inject_Z n)%Q
                  ("D" ++ toString n))).
Proof.
  split; [|split].
  - split.
    + intros (e & He & _) (n & m & Hv).
      rewrite (diceConfigSet_valid body n m Hv) in He. discriminate.
    + intro Hnot. destruct (diceConfigSet body) as [r | e] eqn:E.
      * exfalso. apply Hnot. apply diceConfigSet_returns in E.
        exists (diceSides r), (selectionMethod r). apply E.
      * exists e. split; [reflexivity|]. exact (diceConfigSet_throws body e E).
  - intros e He. exact (diceConfigSet_throws body e He).
  - intros n m. apply diceConfigSet_valid.
Qed.

Lemma C8_set_witness :
  diceConfigSet (set_body (JNumber (num 20)) (JString "predefined"))
  = Returns (mkResponse 20 PREDEFINED (1, 20) (1 / inject_Z 20)%Q "D20") /\
  code (mkServiceError "VALIDATION_ERROR"
          (Some "Dice sides must be one of: 4, 6, 8, 10, 12, 20") 400 [])
  = "VALIDATION_ERROR".
Proof.
  split.
  - apply (proj2 (proj2 (C8_set_throws_iff_invalid
             (set_body (JNumber (num 20)) (JString "predefined"))))).
    apply (valid_predefined _ (num 20) 20); cbn; try reflexivity.
    right; right; right; right; right; left; reflexivity.
  - apply (proj1 (proj2 (C8_set_throws_iff_invalid
             (set_body (JNumber (num 7)) (JString "predefined"))))).
    reflexivity.
Defined.

(** ** Decimal numerals *)

Lemma read_digits_numeral d a :
  read_digits (NilEmpty.string_of_uint d) (Some a) = Some (horner d a).
Proof.
  revert a. induction d; intro a; cbn -[Z.mul Z.add]; try reflexivity;
    rewrite IHd; reflexivity.
Qed.

Lemma all_digits_numeral d : all_digits (NilEmpty.string_of_uint d) = true.
Proof. induction d; cbn; auto. Qed.

Lemma no_point_in_numeral d c :
  is_digit c = false -> contains c (NilEmpty.string_of_uint d) = false.
Proof.
  intro Hc. induction d; cbn [NilEmpty.string_of_uint contains]; auto;
    rewrite IHd, orb_false_r;
    match goal with |- Ascii.eqb ?k c = false =>
      destruct (Ascii.eqb_spec k c) as [E | _];
        [rewrite <- E in Hc; vm_compute in Hc; discriminate | reflexivity] end.
Qed.

Lemma horner_positive d p : horner d (Zpos p) = Zpos (Pos.of_uint_acc d p).
Proof.
  revert p. induction d; intro p; cbn [horner Pos.of_uint_acc];
    try reflexivity;
    match goal with |- horner _ ?a = _ =>
      match goal with |- _ = Zpos (Pos.of_uint_acc _ ?q) =>
        replace a with (Zpos q) by lia end end;
    apply IHd.
Qed.

Lemma horner_zero d : horner d 0 = Z.of_N (Pos.of_uint d).
Proof.
  induction d; cbn [horner Pos.of_uint]; try reflexivity;
    try exact IHd; apply horner_positive.
Qed.

(** The rendering of a natural number is a run of digits that starts with
    a digit, and [parseInt] reads the number back. *)
Lemma toString_numeral n :
  0 <= n ->
  exists d, d <> Decimal.Nil
            /\ toString n = NilEmpty.string_of_uint d /\ horner d 0 = n.
Proof.
  intro Hn. unfold toString. destruct n as [|p|p]; [| |lia].
  - exists (Decimal.D0 Decimal.Nil). now repeat split.
  - exists (Pos.to_uint p). pose proof (Unsigned.to_uint_nonnil p) as Hnil.
    split; [exact Hnil|]. split.
    + cbn. unfold NilZero.string_of_uint.
      destruct (Pos.to_uint p); [contradiction | reflexivity ..].
    + now rewrite horner_zero, Unsigned.of_to.
Qed.

Lemma numeral_shape d :
  d <> Decimal.Nil ->
  let s := NilEmpty.string_of_uint d in
  (trim s =? "")%string = false
  /\ only_digits s = true
  /\ parseInt s = double_of_Z (horner d 0).
Proof.
  intros Hd s. subst s. pose proof (all_digits_numeral d) as Hall.
  destruct d; [contradiction | ..];
    (split; [|split];
     [ cbn [NilEmpty.string_of_uint]; unfold trim;
       cbn [trimStart is_space N_of_ascii]; cbn; reflexivity
     | cbn [NilEmpty.string_of_uint only_digits] in *; exact Hall
     | unfold parseInt; cbn [NilEmpty.string_of_uint trimStart];
       cbn -[Z.mul Z.add read_digits horner];
       cbn [read_digits]; cbn -[Z.mul Z.add read_digits horner];
       rewrite read_digits_numeral; cbn [horner];
       rewrite ?Z.mul_1_l; reflexivity ]).
Qed.

(** ** [diceConfigValidateCustom] *)

Lemma numeric_check_integer q n :
  (q == inject_Z n)%Q -> numeric_check (JFinite q) = range_verdict n.
Proof.
  intro H. unfold numeric_check, range_verdict.
  rewrite (proj1 (denotes_integer q n H)), (lt_denotes q n _ H),
    (gt_denotes q n _ H). reflexivity.
Qed.

Lemma validate_integer_number q n :
  (q == inject_Z n)%Q ->
  diceConfigValidateCustom (custom_body (JNumber (JFinite q))) = range_verdict n.
Proof. intro H. now apply numeric_check_integer. Qed.

Lemma validate_fraction q :
  isInteger (JFinite q) = false ->
  diceConfigValidateCustom (custom_body (JNumber (JFinite q)))
  = invalid "Digite apenas números inteiros, sem casas decimais" 1.
Proof.
  intro H. unfold diceConfigValidateCustom; cbn -[numeric_check].
  unfold numeric_check. now rewrite H.
Qed.

Lemma validate_blank s :
  trim s = "" ->
  diceConfigValidateCustom (custom_body (JString s))
  = invalid "Por favor, insira a quantidade de lados" 2.
Proof.
  intro H. unfold diceConfigValidateCustom; cbn -[trim]. now rewrite H.
Qed.

Lemma validate_not_digits s :
  trim s <> "" -> all_digits s = false ->
  let r := diceConfigValidateCustom (custom_body (JString s)) in
  isValid r = false /\ errorPriority r = Some 1
  /\ option_map format_message (errorMessage r) = Some true.
Proof.
  intros Hblank Hdigits r. subst r.
  unfold diceConfigValidateCustom; cbn -[trim].
  destruct (String.eqb_spec (trim s) "") as [E | _]; [contradiction|].
  destruct (contains "." s || contains "," s); [now cbn|].
  replace (only_digits s) with false; [now cbn|].
  unfold only_digits. now destruct s.
Qed.

Lemma validate_numeral n :
  0 <= n <= MAX_SAFE_INTEGER ->
  diceConfigValidateCustom (custom_body (JString (toString n)))
  = range_verdict n.
Proof.
  intros [Hn Hsafe]. destruct (toString_numeral n Hn) as (d & Hd & -> & Hval).
  destruct (numeral_shape d Hd) as (Htrim & Hdigits & Hparse).
  unfold diceConfigValidateCustom, inputSchema, custom_body, lookup,
    format_check.
  cbn [String.eqb Ascii.eqb Bool.eqb]. cbv iota.
  rewrite Htrim, Hdigits, Hparse, Hval, double_of_Z_safe by lia.
  rewrite !no_point_in_numeral by reflexivity. cbv iota. cbn [orb negb].
  cbv iota. apply numeric_check_integer, num_denotes.
Qed.

(** Every answer pairs priority 1 with a format message, priority 2 with a
    presence or range message, and validity with neither. *)
Lemma validate_labels body :
  let r := diceConfigValidateCustom body in
  r = valid_result
  \/ (isValid r = false /\ errorPriority r = Some 1
      /\ option_map format_message (errorMessage r) = Some true)
  \/ (isValid r = false /\ errorPriority r = Some 2
      /\ option_map presence_or_range_message (errorMessage r) = Some true).
Proof.
  intro r. subst r. unfold diceConfigValidateCustom.
  destruct (inputSchema body) as [[x | s] | i rest].
  - cbn [format_check]. unfold numeric_check.
    destruct (isNaN x); [right; left; now cbn|].
    destruct (isInteger x); [|right; left; now cbn].
    cbn [negb].
    destruct (lt x (num MIN_SIDES)); [right; right; now cbn|].
    destruct (gt x (num MAX_SIDES)); [right; right; now cbn|].
    now left.
  - unfold format_check.
    destruct (trim s =? "")%string; [right; right; now cbn|].
    destruct (contains "." s || contains "," s); [right; left; now cbn|].
    destruct (only_digits s); [|right; left; now cbn]. cbn [negb].
    unfold numeric_check.
    destruct (isNaN (parseInt s)); [right; left; now cbn|].
    destruct (isInteger (parseInt s)); [|right; left; now cbn].
    cbn [negb].
    destruct (lt (parseInt s) (num MIN_SIDES)); [right; right; now cbn|].
    destruct (gt (parseInt s) (num MAX_SIDES)); [right; right; now cbn|].
    now left.
  - right; right; now cbn.
Qed.

(** An infinity is answered like a number with decimals. *)
Lemma numeric_check_infinity negative :
  numeric_check (JInfinity negative)
  = invalid "Digite apenas números inteiros, sem casas decimais" 1.
Proof. reflexivity. Qed.

(** Within the safe integers the priorities are as the comments of the code
    name them: a format violation (a text that is not blank and not made of
    digits only, or a number that is not an integer) has priority 1; a
    presence violation (no usable [customSides], a blank text) or a range
    violation (an integer below 2 or above 1000, given as a number or as its
    decimal numeral) has priority 2; an integer from 2 to 1000 is valid. *)
Lemma priorities_within_safe_integers :
  (forall body i rest,
     inputSchema body = Failure i rest ->
     diceConfigValidateCustom body
     = invalid "Por favor, insira a quantidade de lados" 2) /\
  (forall s,
     trim s = "" ->
     diceConfigValidateCustom (custom_body (JString s))
     = invalid "Por favor, insira a quantidade de lados" 2) /\
  (forall s,
     trim s <> "" -> all_digits s = false ->
     let r := diceConfigValidateCustom (custom_body (JString s)) in
     isValid r = false /\ errorPriority r = Some 1) /\
  (forall q,
     isInteger (JFinite q) = false ->
     let r := diceConfigValidateCustom (custom_body (JNumber (JFinite q))) in
     isValid r = false /\ errorPriority r = Some 1) /\
  (forall n v,
     Z.abs n <= MAX_SAFE_INTEGER ->
     v = JNumber (num n) \/ (0 <= n /\ v = JString (toString n)) ->
     let r := diceConfigValidateCustom (custom_body v) in
     (n < 2 \/ 1000 < n -> isValid r = false /\ errorPriority r = Some 2) /\
     (2 <= n <= 1000 -> r = valid_result)).
Proof.
  split; [intros body i rest H; unfold diceConfigValidateCustom; now rewrite H|].
  split; [exact validate_blank|].
  split; [intros s H1 H2 r;
          destruct (validate_not_digits s H1 H2) as (Hv & Hp & _); now split|].
  split; [intros q H; rewrite (validate_fraction q H); now cbn|].
  intros n v Hsafe Hv r.
  assert (Hr : r = range_verdict n).
  { subst r. destruct Hv as [-> | [Hn ->]].
    - apply validate_integer_number, num_denotes.
    - apply validate_numeral. lia. }
  rewrite Hr. unfold range_verdict. split; intro H.
  - destruct (Z.ltb_spec n 2); [now cbn|].
    destruct (Z.ltb_spec 1000 n); [now cbn | lia].
  - destruct (Z.ltb_spec n 2); [lia|].
    destruct (Z.ltb_spec 1000 n); [lia | reflexivity].
Qed.

(** C7 at the failing input.  A text of 310 nines is made of digits only
    and has neither point nor comma: it passes the format checks and names
    an integer above 1000, a range violation.  [parseInt] makes [Infinity]
    of it, which is not NaN and fails [Number.isInteger]: the answer is the
    message about decimals with priority 1, not the message about the
    maximum with priority 2 that "1001" gets.  The number [Infinity] in the
    body is answered the same way.  The three inputs of the claim are
    answered as it says: "12.5" has priority 1, "1" priority 2, "20" is
    valid. *)
Theorem C7_digits_beyond_double_range_get_priority_1 :
  let huge := nines 310 in
  (only_digits huge = true
   /\ contains "." huge = false /\ contains "," huge = false) /\
  parseInt huge = JInfinity false /\
  diceConfigValidateCustom (custom_body (JString huge))
  = invalid "Digite apenas números inteiros, sem casas decimais" 1 /\
  diceConfigValidateCustom (custom_body (JNumber (JInfinity false)))
  = invalid "Digite apenas números inteiros, sem casas decimais" 1 /\
  diceConfigValidateCustom (custom_body (JString "1001"))
  = invalid "Máximo de 1000 lados permitido" 2 /\
  (let r := diceConfigValidateCustom (custom_body (JString "12.5")) in
   isValid r = false /\ errorPriority r = Some 1) /\
  (let r := diceConfigValidateCustom (custom_body (JString "1")) in
   isValid r = false /\ errorPriority r = Some 2) /\
  (let r := diceConfigValidateCustom (custom_body (JString "20")) in
   isValid r = true /\ errorPriority r = None).
Proof.
  cbv zeta.
  split; [split; [|split]; vm_compute; reflexivity|].
  split; [vm_compute; reflexivity|].
  split; [vm_compute; reflexivity|].
  split; [reflexivity|].
  split; [vm_compute; reflexivity|].
  split; [split; vm_compute; reflexivity|].
  split; split; vm_compute; reflexivity.
Qed.

End ServiceFacts.

(** * Further properties of the synchronisation store *)

Module StoreExtras.
Import Store StoreFacts.

(** ** Properties kept by effects *)

Lemma keeps_ret {A : Type} (P : Tab -> Prop) (a : A) : keeps P (ret a).
Proof. intros t H. exact H. Qed.

Lemma keeps_lift {A : Type} (P : Tab -> Prop) (r : Result A) : keeps P (lift r).
Proof. intros t H. exact H. Qed.

Lemma keeps_getState (P : Tab -> Prop) : keeps P getState.
Proof. intros t H. exact H. Qed.

Lemma keeps_bind {A B : Type} (P : Tab -> Prop) (m : Effect A)
  (k : A -> Effect B) :
  keeps P m -> (forall a, keeps P (k a)) -> keeps P (bind m k).
Proof.
  intros Hm Hk t H. unfold bind. specialize (Hm t H).
  destruct (m t) as [t1 [a|e]]; cbn [fst] in *; [now apply Hk | exact Hm].
Qed.

Lemma keeps_try_catch {A : Type} (P : Tab -> Prop) (body : Effect A)
  (handler : Exn -> Effect A) :
  keeps P body -> (forall e, keeps P (handler e)) ->
  keeps P (try_catch body handler).
Proof.
  intros Hb Hh t H. unfold try_catch. specialize (Hb t H).
  destruct (body t) as [t1 [a|e]]; cbn [fst] in *; [exact Hb | now apply Hh].
Qed.

(** To show that every allowed action keeps a property of tabs, it is enough
    to look at the store's own actions and at a line written to the console,
    provided the calls made by the hook and the handlers are allowed. *)
Lemma perform_preserves (P : Tab -> Prop) (allowed : Action -> Prop)
  (b : Browser) :
  (forall a, internal a -> allowed a) ->
  (forall a, primitive a -> allowed a -> keeps P (perform b a)) ->
  (forall msg, keeps P (console_error msg)) ->
  forall a, allowed a -> keeps P (perform b a).
Proof.
  intros Hint Hprim Hlog a Ha.
  assert (Hset : forall now k cfg, keeps P (setConfig b now k cfg)).
  { intros now k cfg.
    apply (Hprim (DoSetConfig now k cfg)); cbn; auto. apply Hint; exact I. }
  assert (Hcall : forall now k c, keeps P (call_setConfig b now k c)).
  { intros now k [cfg|]; [apply Hset | apply keeps_lift]. }
  assert (Hreset : keeps P (resetSyncRetry b)).
  { apply (Hprim DoResetSyncRetry); cbn; auto. apply Hint; exact I. }
  assert (Hinc : keeps P (incrementSyncRetry b)).
  { apply (Hprim DoIncrementSyncRetry); cbn; auto. apply Hint; exact I. }
  assert (Hadopt : forall now k c,
            keeps P (call_setConfig b now k c ;; resetSyncRetry b)).
  { intros now k c. apply keeps_bind; auto. }
  destruct a as [| | | | | | |now now'|now k event|now k read];
    try (apply Hprim; cbn; auto; fail).
  - cbn [perform]. intros t Ht. unfold onRehydrateStorage.
    destruct (sessionConfig (store t)) as [sc|]; [|exact Ht].
    destruct (isSessionExpired now (timestamp sc)).
    + apply (Hprim DoClearConfig); cbn; auto. apply Hint; exact I.
    + destruct (negb _); [|exact Ht].
      apply keeps_bind; [|intros _|exact Ht].
      * apply (Hprim (DoSetStorageType (getStorageType b))); cbn; auto.
        apply Hint; exact I.
      * apply (Hprim (DoUpdateSessionConfig now'
                        (storage_only (getStorageType b)))); cbn; auto.
        apply Hint. now eexists.
  - cbn [perform]. unfold storageListener.
    destruct (key event =? "dice-config-store")%string; [|apply keeps_ret].
    apply keeps_try_catch.
    + apply keeps_bind; [apply keeps_lift | intros newValue].
      apply keeps_bind; [apply keeps_getState | intros s].
      destruct newValue as [[cfg [sc|]]|]; try apply keeps_ret.
      destruct (timestamp sc >? timestamp_or_0 (sessionConfig s));
        [apply Hadopt | apply keeps_ret].
    + intros _. apply keeps_bind; auto.
  - cbn [perform]. intros t Ht. unfold pollingTick.
    destruct (pollingInterval t) as [state|]; [|exact Ht].
    apply keeps_try_catch; [|intros _; apply Hlog|exact Ht].
    destruct (storageType state); try apply keeps_ret;
      (apply keeps_bind; [apply keeps_lift | intros stored];
       destruct stored as [text|]; [|apply keeps_ret];
       apply keeps_bind; [apply keeps_lift | intros parsed];
       match goal with |- keeps _ (if ?c then _ else _) =>
         destruct c; [|apply keeps_ret] end;
       apply keeps_bind; [apply keeps_lift | intros cfg]; apply Hadopt).
Qed.

Lemma run_preserves (P : Tab -> Prop) (ok : Browser * Action -> Prop) :
  (forall b a, ok (b, a) -> keeps P (perform b a)) ->
  forall steps t, Forall ok steps -> P t -> P (run steps t).
Proof.
  intros Hstep steps. induction steps as [|[b a] rest IH]; intros t Hall Ht.
  - exact Ht.
  - inversion Hall; subst. cbn [run]. apply IH; [assumption|].
    now apply Hstep.
Qed.

(** ** Invariants of the store *)

(** How a store-level property fares under the store's own actions. *)
Ltac primitive_store_cases a t :=
  destruct a as [?now ?k ?cfg|?now ?updates|?type| | |?active| |? ?|? ? ?|? ? ?];
  try contradiction; cbn [perform];
  match goal with
  | |- context [store (fst (setConfig _ _ _ _ _))] => rewrite store_setConfig
  | |- context [store (fst (updateSessionConfig ?b ?n ?u _))] =>
      let current := fresh "current" in
      let Hcur := fresh "Hcur" in
      destruct (sessionConfig (store t)) as [current|] eqn:Hcur;
      [ rewrite (store_updateSessionConfig b n u t current Hcur)
      | rewrite (updateSessionConfig_absent b n u t Hcur); cbn [fst] ]
  | |- context [store (fst (setStorageType _ _ _))] =>
      rewrite store_setStorageType
  | |- context [store (fst (incrementSyncRetry _ _))] =>
      rewrite store_incrementSyncRetry
  | |- context [store (fst (resetSyncRetry _ _))] => rewrite store_resetSyncRetry
  | |- context [store (fst (setPollingActive _ _ _))] =>
      rewrite store_setPollingActive
  | |- context [store (fst (clearConfig _ _))] => rewrite store_clearConfig
  end.

Lemma paired_step b a : keeps (fun t => paired (store t)) (perform b a).
Proof.
  apply (perform_preserves (fun t => paired (store t)) (fun _ => True));
    [auto | | intros msg t H; exact H | exact I].
  clear a. intros a Hprim _ t H. unfold paired in *.
  primitive_store_cases a t; cbn; try exact H; try tauto;
    try (split; discriminate).
  split; [intro E; apply H in E; discriminate | discriminate].
Qed.

(** X1. The configuration and the session record are set and cleared
    together: a new tab has neither, and no action, handler or hook run
    makes one present without the other, whether the browser accepts the
    write of [persist] or refuses it. *)
Theorem X1_config_and_session_together :
  (forall b, paired (store (initialTab b))) /\
  (forall steps t, paired (store t) -> paired (store (run steps t))).
Proof.
  split.
  - intro b. unfold paired; cbn. tauto.
  - intros steps t.
    apply (run_preserves (fun t => paired (store t)) (fun _ => True)).
    + intros b a _. apply paired_step.
    + apply Forall_forall. auto.
Qed.

Lemma X1_together_witness :
  paired (store (run [(working_browser, DoSetConfig 1000 "k" (D 20));
                      (full_localStorage, DoClearConfig);
                      (working_browser,
                       DoStorageEvent 2000 "k2" (written (record (D 8) 1500 "o")))]
                   (initialTab working_browser))).
Proof.
  apply (proj2 X1_config_and_session_together).
  unfold paired; cbn. tauto.
Defined.

Lemma mirrored_step b a :
  keeps_mirror a -> keeps (fun t => mirrored (store t)) (perform b a).
Proof.
  apply (perform_preserves (fun t => mirrored (store t)) keeps_mirror).
  - clear a. intros [| ? updates| | | | | | | |] H; cbn in *; auto.
    destruct H as [type ->]. now cbn.
  - clear a. intros a Hprim Hkeep t H. unfold mirrored in *.
    primitive_store_cases a t; cbn; try exact H; auto.
    + destruct Hkeep as [Hs Hm]. unfold merge.
      rewrite Hs, Hm. cbn. exact H.
    + rewrite Hcur. exact H.
  - intros msg t H. exact H.
Qed.

(** X2. The session record repeats the sides and the selection method of
    the configuration, in a new tab and after every run of actions in which
    [updateSessionConfig] is not handed [diceSides] or [selectionMethod]
    (the store itself only hands it [storageType]). *)
Theorem X2_session_mirrors_config :
  (forall b, mirrored (store (initialTab b))) /\
  (forall steps t,
     Forall (fun step => keeps_mirror (snd step)) steps ->
     mirrored (store t) -> mirrored (store (run steps t))).
Proof.
  split.
  - intro b. exact I.
  - intros steps t.
    apply (run_preserves (fun t => mirrored (store t))
             (fun step => keeps_mirror (snd step))).
    intros b a. apply mirrored_step.
Qed.

Lemma X2_mirror_witness :
  mirrored (store (run [(working_browser, DoSetConfig 1000 "k" (D 20));
                        (no_storage, DoRehydrate 2000 2001);
                        (working_browser,
                         DoStorageEvent 3000 "k2"
                           (written (record (D 8) 2500 "o")))]
                     (initialTab working_browser))).
Proof.
  apply (proj2 X2_session_mirrors_config).
  - repeat constructor.
  - exact I.
Defined.





Lemma needs_three_step b a :
  ~ is_setPollingActive a ->
  keeps (fun t => polling_needs_three (store t)) (perform b a).
Proof.
  apply (perform_preserves (fun t => polling_needs_three (store t))
           (fun a => ~ is_setPollingActive a)).
  - clear a. intros [| | | | | | | | |]; cbn; tauto.
  - clear a. intros a Hprim Hno t [Hpos Himp]. unfold polling_needs_three.
    primitive_store_cases a t; cbn; try (now split);
      try (split; [lia | discriminate]).
    destruct (throws b localStorageObject setItem); cbn [negb andb].
    + split; [lia|]. intro Hon. apply Himp in Hon. lia.
    + destruct (Z.geb_spec (syncRetryCount (store t) + 1) 3).
      * split; [lia | intros _; lia].
      * split; [lia|]. intro Hon. apply Himp in Hon. lia.
  - intros msg t H. exact H.
Qed.

Lemma escalated_step b a :
  throws b localStorageObject setItem = false ->
  ~ is_setPollingActive a ->
  keeps (fun t => escalated_from_three (store t)) (perform b a).
Proof.
  intro Hb.
  apply (perform_preserves (fun t => escalated_from_three (store t))
           (fun a => ~ is_setPollingActive a)).
  - clear a. intros [| | | | | | | | |]; cbn; tauto.
  - clear a. intros a Hprim Hno t [Hpos Hiff]. unfold escalated_from_three.
    primitive_store_cases a t; cbn; try (now split).
    + rewrite Hb. cbn [negb andb].
      destruct (Z.geb_spec (syncRetryCount (store t) + 1) 3).
      * split; [lia | tauto].
      * split; [lia|]. rewrite Hiff. lia.
  - intros msg t H. exact H.
Qed.

(** X4. As long as nobody calls [setPollingActive], the failure counter is
    never negative and polling is active only when the counter is at least
    3.  Where the browser accepts the write of [persist] in every step,
    polling is active exactly when the counter is at least 3: it starts with
    the third failure in a row and ends with the reset that follows a
    successful reconciliation or a clear. *)
Theorem X4_polling_iff_three_failures :
  (forall b, escalated_from_three (store (initialTab b))) /\
  (forall steps t,
     Forall (fun step => ~ is_setPollingActive (snd step)) steps ->
     polling_needs_three (store t) ->
     polling_needs_three (store (run steps t))) /\
  (forall steps t,
     writes_accepted steps ->
     Forall (fun step => ~ is_setPollingActive (snd step)) steps ->
     escalated_from_three (store t) ->
     escalated_from_three (store (run steps t))).
Proof.
  split; [|split].
  - intro b. split; cbn; [lia|]. split; [discriminate | lia].
  - intros steps t.
    apply (run_preserves (fun t => polling_needs_three (store t))
             (fun step => ~ is_setPollingActive (snd step))).
    intros b a. apply needs_three_step.
  - intros steps t Hacc Hno.
    apply (run_preserves (fun t => escalated_from_three (store t))
             (fun step => throws (fst step) localStorageObject setItem = false
                          /\ ~ is_setPollingActive (snd step))).
    + intros b a [Hb Ha]. now apply escalated_step.
    + unfold writes_accepted in Hacc. rewrite Forall_forall in *.
      intros step Hin. split; [now apply Hacc | now apply Hno].
Qed.

Lemma X4_polling_witness :
  polling_needs_three
    (store (run [(full_localStorage, DoStorageEvent 1 "k" garbled);
                 (full_localStorage, DoStorageEvent 2 "k" garbled);
                 (full_localStorage, DoStorageEvent 3 "k" garbled)]
              (initialTab full_localStorage))) /\
  escalated_from_three
    (store (run [(working_browser, DoStorageEvent 1 "k" garbled);
                 (working_browser, DoStorageEvent 2 "k" garbled);
                 (working_browser, DoStorageEvent 3 "k" garbled);
                 (working_browser, DoStorageEvent 4 "k" garbled);
                 (working_browser, DoClearConfig)]
              (initialTab working_browser))).
Proof.
  split.
  - apply (proj1 (proj2 X4_polling_iff_three_failures)).
    + repeat constructor; cbn; tauto.
    + split; cbn; [lia | discriminate].
  - apply (proj2 (proj2 X4_polling_iff_three_failures)).
    + repeat constructor.
    + repeat constructor; cbn; tauto.
    + split; cbn; [lia|]. split; [discriminate | lia].
Defined.

(** ** Adoption *)

Lemma adopted_tab b now k cfg t :
  let t' := fst (resetSyncRetry b (fst (setConfig b now k cfg t))) in
  store t' = mkStore (Some cfg)
               (Some (mkSessionConfig (diceSides cfg) (selectionMethod cfg) now
                        (storageType (store t)) k))
               (storageType (store t)) 0 false
  /\ pollingInterval t' = None
  /\ console t' = console t.
Proof.
  cbv zeta. split; [|split].
  - now rewrite store_resetSyncRetry, store_setConfig.
  - apply interval_resetSyncRetry.
  - unfold resetSyncRetry, setConfig, set. cbn [fst].
    now rewrite !console_setState.
Qed.

Lemma console_incrementSyncRetry b t :
  console (fst (incrementSyncRetry b t)) = console t.
Proof.
  rewrite incrementSyncRetry_eq. cbv zeta.
  destruct (throws b localStorageObject setItem); cbn [fst];
    [now rewrite console_setState|].
  destruct (syncRetryCount (store t) + 1 >=? 3); cbn [fst];
    now rewrite ?console_setState.
Qed.

(** X5. When the listener adopts a record (its timestamp is greater than
    the tab's, 0 if the tab has none), only the record's configuration is
    taken over: the new session record gets the sides and method of that
    configuration, the local clock, the tab's own medium and a fresh sync
    key, whatever the incoming session record says.  Where the browser
    accepts the write of [persist] the listener returns, the failure counter
    is 0, polling is off and no interval runs.  Where it refuses the write,
    [setConfig] throws once the store is set, the [catch] block logs it and
    counts a failure, and the exception of that second write leaves the
    listener: the record is adopted, the counter is one higher and polling
    is as before. *)
Theorem X5_adoption_takes_config_and_resets
  (b : Browser) (now : Z) (k : string) (cfg : DiceConfig) (sc : SessionConfig)
  (t : Tab) :
  timestamp sc > timestamp_or_0 (sessionConfig (store t)) ->
  let r := storageListener b now k
             (written (mkPersisted (Some cfg) (Some sc))) t in
  let t' := fst r in
  (config (store t') = Some cfg
   /\ sessionConfig (store t')
      = Some (mkSessionConfig (diceSides cfg) (selectionMethod cfg) now
                (storageType (store t)) k)
   /\ storageType (store t') = storageType (store t)) /\
  (throws b localStorageObject setItem = false ->
   snd r = Ok tt
   /\ syncRetryCount (store t') = 0
   /\ pollingActive (store t') = false
   /\ pollingInterval t' = None
   /\ console t' = console t) /\
  (throws b localStorageObject setItem = true ->
   snd r = Throw DOMException
   /\ syncRetryCount (store t') = syncRetryCount (store t) + 1
   /\ pollingActive (store t') = pollingActive (store t)
   /\ console t' = (console t ++ ["Storage sync error:"])%list).
Proof.
  intros H r t'. split; [exact (storageListener_newer b now k cfg sc t H)|].
  subst t' r. rewrite storageListener_written.
  replace (timestamp sc >? timestamp_or_0 (sessionConfig (store t))) with true
    by (symmetry; rewrite Z.gtb_ltb; apply Z.ltb_lt; lia).
  cbv zeta. split; intro Hb; rewrite Hb.
  - destruct (adopted_tab b now k cfg t) as (Hs & Hi & Hc).
    rewrite Hs, Hi, Hc. cbn [syncRetryCount pollingActive].
    unfold resetSyncRetry. rewrite set_eq, (persist_write_accepted b Hb).
    auto.
  - rewrite snd_incrementSyncRetry, (persist_write_refused b Hb).
    rewrite store_incrementSyncRetry, console_incrementSyncRetry, Hb.
    cbn [negb andb store console console_error fst syncRetryCount
         pollingActive].
    rewrite store_setConfig. cbn [syncRetryCount pollingActive].
    unfold setConfig, set. cbn [fst]. rewrite console_setState. auto.
Qed.

Lemma X5_adoption_witness :
  let event := written (mkPersisted (Some (D 8))
                 (Some (mkSessionConfig 12 custom 2500 sessionStorage "theirs"))) in
  (let t' := fst (storageListener working_browser 3000 "mine" event polling_tab) in
   sessionConfig (store t')
   = Some (mkSessionConfig 8 predefined 3000 localStorage "mine")
   /\ pollingInterval t' = None) /\
  snd (storageListener full_localStorage 3000 "mine" event polling_tab)
  = Throw DOMException.
Proof.
  intro event. split.
  - destruct (X5_adoption_takes_config_and_resets working_browser 3000 "mine"
                (D 8) (mkSessionConfig 12 custom 2500 sessionStorage "theirs")
                polling_tab) as ((_ & Hs & _) & Hok & _).
    + vm_compute. reflexivity.
    + destruct Hok as (_ & _ & _ & Hi & _); [reflexivity|].
      split; [exact Hs | exact Hi].
  - destruct (X5_adoption_takes_config_and_resets full_localStorage 3000 "mine"
                (D 8) (mkSessionConfig 12 custom 2500 sessionStorage "theirs")
                polling_tab) as (_ & _ & Hrefused).
    + vm_compute. reflexivity.
    + apply Hrefused. reflexivity.
Defined.

(** X6. Records are ordered by the clock of their adoption, not by their
    own timestamps: once a record has been adopted at clock [now1], a second
    notification is adopted exactly when its timestamp is greater than
    [now1].  A record written after the first one but before [now1] is
    ignored, and the older configuration stays.  This holds in every
    browser, as the timestamp is in the store before the write of
    [persist]. *)
Theorem X6_later_record_needs_stamp_after_adoption
  (b1 b2 : Browser) (now1 now2 : Z) (k1 k2 : string) (cfg1 cfg2 : DiceConfig)
  (sc1 sc2 : SessionConfig) (t : Tab) :
  timestamp sc1 > timestamp_or_0 (sessionConfig (store t)) ->
  let t1 := fst (storageListener b1 now1 k1
                   (written (mkPersisted (Some cfg1) (Some sc1))) t) in
  let r2 := storageListener b2 now2 k2
              (written (mkPersisted (Some cfg2) (Some sc2))) t1 in
  config (store t1) = Some cfg1
  /\ (timestamp sc2 <= now1 -> r2 = (t1, Ok tt))
  /\ (timestamp sc2 > now1 -> config (store (fst r2)) = Some cfg2)
  /\ (throws b1 localStorageObject setItem = false ->
      snd (storageListener b1 now1 k1
             (written (mkPersisted (Some cfg1) (Some sc1))) t) = Ok tt)
  /\ (throws b2 localStorageObject setItem = false -> snd r2 = Ok tt).
Proof.
  intros H t1 r2.
  destruct (storageListener_newer b1 now1 k1 cfg1 sc1 t H) as (Hc & Hs & _).
  fold t1 in Hc, Hs. split; [exact Hc|]. subst r2.
  split; [|split; [|split]]; intro H2.
  - apply storageListener_stale. now rewrite Hs, timestamp_or_0_Some.
  - apply storageListener_newer. now rewrite Hs, timestamp_or_0_Some.
  - apply (malformed_payload_where_writes_are_accepted b1 now1 k1 t H2).
  - apply (malformed_payload_where_writes_are_accepted b2 now2 k2 t1 H2).
Qed.

Lemma X6_later_record_witness :
  let t1 := fst (storageListener working_browser 300 "a"
                   (written (record (D 8) 100 "x"))
                   (initialTab working_browser)) in
  storageListener full_localStorage 301 "b" (written (record (D 12) 200 "y")) t1
  = (t1, Ok tt)
  /\ config (store t1) = Some (D 8).
Proof.
  intro t1.
  destruct (X6_later_record_needs_stamp_after_adoption working_browser
              full_localStorage 300 301 "a" "b" (D 8) (D 12)
              (mkSessionConfig 8 predefined 100 localStorage "x")
              (mkSessionConfig 12 predefined 200 localStorage "y")
              (initialTab working_browser)) as (H1 & H2 & _).
  - cbn. lia.
  - split; [|exact H1]. apply H2. cbn. lia.
Defined.

(** What the listener comes to: nothing, a failure counted, or an
    adoption. *)
Lemma storageListener_cases b now k event t :
  storageListener b now k event t = (t, Ok tt)
  \/ storageListener b now k event t
     = incrementSyncRetry b (fst (console_error "Storage sync error:" t))
  \/ exists cfg,
       storageListener b now k event t =
       let t1 := fst (setConfig b now k cfg t) in
       if throws b localStorageObject setItem
       then incrementSyncRetry b (fst (console_error "Storage sync error:" t1))
       else resetSyncRetry b t1.
Proof.
  unfold storageListener.
  destruct (key event =? "dice-config-store")%string; [|now left].
  destruct (newValue event) as [[|[[cfg [sc|]]|]]|];
    try (now left); try (right; now left).
  destruct (timestamp sc >? timestamp_or_0 (sessionConfig (store t))) eqn:Hgt.
  - destruct cfg as [cfg|].
    + right; right. exists cfg.
      pose proof (storageListener_written b now k cfg sc t) as Hw.
      rewrite Hgt in Hw. unfold storageListener, written in Hw.
      cbn [key newValue String.eqb Ascii.eqb Bool.eqb] in Hw. exact Hw.
    + right; left. unfold try_catch, bind, lift, getState.
      cbn [JSON_parse]. rewrite Hgt. reflexivity.
  - left. unfold try_catch, bind, lift, getState, ret.
    cbn [JSON_parse]. rewrite Hgt. reflexivity.
Qed.

Lemma pollingTick_outcomes b now k read t :
  pollingTick b now k read t = (t, Ok tt)
  \/ pollingTick b now k read t = console_error "Polling sync error:" t
  \/ exists cfg,
       pollingTick b now k read t =
       let t1 := fst (setConfig b now k cfg t) in
       if throws b localStorageObject setItem
       then console_error "Polling sync error:" t1
       else resetSyncRetry b t1.
Proof.
  destruct (pollingInterval t) as [state|] eqn:Hint.
  - destruct (pollingTick_cases read state) as [H | [H | [cfg H]]].
    + left. now apply H.
    + right; left. now apply H.
    + right; right. exists cfg. now apply H.
  - left. unfold pollingTick. now rewrite Hint.
Qed.

(** X7. What the handlers do to the store.  A polling tick never throws
    and never raises the failure counter: it leaves the store as it is, or
    it adopts a configuration; the adoption puts the counter at 0, polling
    off and the interval away where the browser accepts the write of
    [persist], and leaves counter and polling as they were where it refuses
    it.  The listener leaves the tab as it is, or counts a failure on an
    error and leaves configuration and session record alone, or adopts a
    configuration; the adoption resets counter and polling where the write
    is accepted, and where it is refused it is followed by a counted failure
    and an exception.  Neither handler changes the active storage medium. *)
Theorem X7_handlers_adopt_or_leave_alone
  (b : Browser) (now : Z) (k : string) (t : Tab) :
  (forall read,
     let r := pollingTick b now k read t in
     snd r = Ok tt
     /\ storageType (store (fst r)) = storageType (store t)
     /\ (store (fst r) = store t
         \/ (throws b localStorageObject setItem = false
             /\ stored_timestamp (fst r) = Some now
             /\ syncRetryCount (store (fst r)) = 0
             /\ pollingActive (store (fst r)) = false
             /\ pollingInterval (fst r) = None)
         \/ (throws b localStorageObject setItem = true
             /\ stored_timestamp (fst r) = Some now
             /\ syncRetryCount (store (fst r)) = syncRetryCount (store t)
             /\ pollingActive (store (fst r)) = pollingActive (store t)))) /\
  (forall event,
     let r := storageListener b now k event t in
     storageType (store (fst r)) = storageType (store t)
     /\ (r = (t, Ok tt)
         \/ (snd r = persist_write b
             /\ syncRetryCount (store (fst r)) = syncRetryCount (store t) + 1
             /\ config (store (fst r)) = config (store t)
             /\ sessionConfig (store (fst r)) = sessionConfig (store t))
         \/ (throws b localStorageObject setItem = false
             /\ snd r = Ok tt
             /\ stored_timestamp (fst r) = Some now
             /\ syncRetryCount (store (fst r)) = 0
             /\ pollingActive (store (fst r)) = false
             /\ pollingInterval (fst r) = None)
         \/ (throws b localStorageObject setItem = true
             /\ snd r = Throw DOMException
             /\ stored_timestamp (fst r) = Some now
             /\ syncRetryCount (store (fst r)) = syncRetryCount (store t) + 1
             /\ pollingActive (store (fst r)) = pollingActive (store t)))).
Proof.
  assert (Hadopt : forall cfg,
    let t' := fst (resetSyncRetry b (fst (setConfig b now k cfg t))) in
    storageType (store t') = storageType (store t)
    /\ stored_timestamp t' = Some now
    /\ syncRetryCount (store t') = 0
    /\ pollingActive (store t') = false
    /\ pollingInterval t' = None).
  { intros cfg t'. subst t'.
    destruct (adopted_tab b now k cfg t) as (Hs & Hi & _).
    unfold stored_timestamp. rewrite Hs. cbn. auto. }
  split.
  - intros read r. subst r. split; [apply pollingTick_returns|].
    destruct (pollingTick_outcomes b now k read t) as [-> | [-> | [cfg ->]]].
    + auto.
    + auto.
    + cbv zeta. destruct (throws b localStorageObject setItem) eqn:Hb.
      * cbn [console_error fst store]. unfold stored_timestamp.
        rewrite store_setConfig. cbn. split; [reflexivity|]. right; right. auto.
      * destruct (Hadopt cfg) as (H1 & H2).
        split; [exact H1 | right; left; auto].
  - intros event r. subst r.
    destruct (storageListener_cases b now k event t) as [-> | [-> | [cfg ->]]].
    + auto.
    + rewrite store_incrementSyncRetry, snd_incrementSyncRetry. cbn.
      split; [reflexivity|]. right; left. auto.
    + cbv zeta. destruct (throws b localStorageObject setItem) eqn:Hb.
      * rewrite snd_incrementSyncRetry, (persist_write_refused b Hb).
        unfold stored_timestamp. rewrite store_incrementSyncRetry, Hb.
        cbn [negb andb console_error fst store]. rewrite store_setConfig.
        cbn. split; [reflexivity|]. right; right; right. auto.
      * destruct (Hadopt cfg) as (H1 & H2).
        split; [exact H1|]. right; right; left.
        split; [reflexivity|]. split; [|exact H2].
        unfold resetSyncRetry. rewrite set_eq.
        now rewrite (persist_write_accepted b Hb).
Qed.

(** X22. Two ticks on the same text.  Where the browser accepts the write
    of [persist], a second tick that reads what the first one read never
    changes the store: either the first one adopted nothing, and neither
    does the second, or it adopted and stopped the interval. *)
Theorem X22_second_tick
  (b1 b2 : Browser) (now1 now2 : Z) (k1 k2 : string)
  (read : StorageObject -> Result (option StoredText)) (t : Tab) :
  throws b1 localStorageObject setItem = false ->
  let u := fst (pollingTick b1 now1 k1 read t) in
  store (fst (pollingTick b2 now2 k2 read u)) = store u.
Proof.
  intros Hb u. subst u.
  destruct (pollingInterval t) as [state|] eqn:Hint.
  - destruct (pollingTick_cases read state) as [H | [H | [cfg H]]].
    + rewrite (H b1 now1 k1 t Hint). cbn [fst].
      now rewrite (H b2 now2 k2 t Hint).
    + rewrite (H b1 now1 k1 t Hint).
      rewrite (H b2 now2 k2 (fst (console_error "Polling sync error:" t)));
        [reflexivity | exact Hint].
    + rewrite (H b1 now1 k1 t Hint), Hb. cbv zeta.
      unfold pollingTick at 1. now rewrite interval_resetSyncRetry.
  - assert (Hidle : forall b now k, pollingTick b now k read t = (t, Ok tt))
      by (intros; unfold pollingTick; now rewrite Hint).
    rewrite (Hidle b1). cbn [fst]. now rewrite Hidle.
Qed.

(** The second half is the contrast: where the write is refused the
    adoption throws before [resetSyncRetry], the interval stays, and the
    next tick adopts the same record again with a new stamp. *)
Lemma X22_second_tick_witness :
  let read := fun _ : StorageObject =>
                Ok (Some (Json (Some (record (D 6) 1500 "other")))) in
  (let u := fst (pollingTick working_browser 3000 "k3" read polling_tab) in
   config (store u) = Some (D 6)
   /\ store (fst (pollingTick working_browser 4000 "k4" read u)) = store u) /\
  (let u := fst (pollingTick full_localStorage 3000 "k3" read polling_tab) in
   stored_timestamp u = Some 3000
   /\ stored_timestamp (fst (pollingTick full_localStorage 4000 "k4" read u))
      = Some 4000).
Proof.
  intro read. split.
  - split; [reflexivity|].
    apply (X22_second_tick working_browser working_browser 3000 4000 "k3" "k4"
             read polling_tab).
    reflexivity.
  - split; reflexivity.
Defined.

(** ** Rehydration and the probed medium *)

(** X8. The rehydration hook and the medium just probed.  Without a session
    record the hook does nothing, and a fresh record that already names the
    probed medium is left untouched.  On a fresh record that names another
    medium the hook sets the store's active medium to the probed one; where
    the browser accepts the write of [persist] it then re-stamps the session
    record with the clock of the update and the probed medium, and the tab
    starts with that state; where the write is refused [setStorageType]
    throws, [updateSessionConfig] is not reached, the session record is as
    restored, and the tab starts with the restored state.  So where writes
    are accepted, a session record left by the hook names the probed
    medium. *)
Theorem X8_rehydration_aligns_medium
  (b : Browser) (now now' : Z) (t : Tab) :
  let r := onRehydrateStorage b now now' t in
  (sessionConfig (store t) = None -> r = (t, Ok tt)) /\
  (forall sc, sessionConfig (store t) = Some sc ->
              isSessionExpired now (timestamp sc) = false ->
              sc_storageType sc = getStorageType b ->
              r = (t, Ok tt)) /\
  (forall sc, sessionConfig (store t) = Some sc ->
              isSessionExpired now (timestamp sc) = false ->
              sc_storageType sc <> getStorageType b ->
              storageType (store (fst r)) = getStorageType b
              /\ config (store (fst r)) = config (store t)
              /\ (throws b localStorageObject setItem = false ->
                  snd r = Ok tt
                  /\ stored_timestamp (fst r) = Some now'
                  /\ option_map sc_storageType (sessionConfig (store (fst r)))
                     = Some (getStorageType b)
                  /\ hydrate b now now' t = fst r)
              /\ (throws b localStorageObject setItem = true ->
                  snd r = Throw DOMException
                  /\ sessionConfig (store (fst r)) = Some sc
                  /\ hydrate b now now' t = t)) /\
  (throws b localStorageObject setItem = false ->
   forall sc', sessionConfig (store (fst r)) = Some sc' ->
               sc_storageType sc' = getStorageType b).
Proof.
  intro r. subst r.
  assert (Hreal : forall sc, sessionConfig (store t) = Some sc ->
              isSessionExpired now (timestamp sc) = false ->
              sc_storageType sc <> getStorageType b ->
              let r := onRehydrateStorage b now now' t in
              storageType (store (fst r)) = getStorageType b
              /\ config (store (fst r)) = config (store t)
              /\ (throws b localStorageObject setItem = false ->
                  snd r = Ok tt
                  /\ stored_timestamp (fst r) = Some now'
                  /\ option_map sc_storageType (sessionConfig (store (fst r)))
                     = Some (getStorageType b)
                  /\ hydrate b now now' t = fst r)
              /\ (throws b localStorageObject setItem = true ->
                  snd r = Throw DOMException
                  /\ sessionConfig (store (fst r)) = Some sc
                  /\ hydrate b now now' t = t)).
  { intros sc Hsc Hexp Hneq r. subst r. unfold hydrate.
    rewrite (rehydrate_realigned b now now' t sc Hsc Hexp Hneq). cbv zeta.
    assert (Hs : sessionConfig (store (fst (setStorageType b (getStorageType b) t)))
                 = Some sc) by (now rewrite store_setStorageType).
    destruct (throws b localStorageObject setItem); cbn [fst snd].
    - rewrite store_setStorageType. cbn.
      split; [reflexivity|]. split; [reflexivity|].
      split; [discriminate | auto].
    - unfold stored_timestamp.
      rewrite (store_updateSessionConfig _ _ _ _ sc Hs), store_setStorageType.
      cbn. split; [reflexivity|]. split; [reflexivity|].
      split; [auto | discriminate]. }
  split; [|split; [|split]].
  - intro H. unfold onRehydrateStorage. now rewrite H.
  - intros sc Hsc Hexp Heq. now apply (rehydrate_aligned b now now' t sc).
  - exact Hreal.
  - intros Hb sc' H'.
    destruct (sessionConfig (store t)) as [sc|] eqn:Hsc.
    + destruct (isSessionExpired now (timestamp sc)) eqn:Hexp.
      * rewrite (rehydrate_expired b now now' t sc Hsc Hexp),
          store_clearConfig in H'. discriminate.
      * destruct (StorageType_eqb (sc_storageType sc) (getStorageType b)) eqn:E.
        -- apply StorageType_eqb_eq in E.
           rewrite (rehydrate_aligned b now now' t sc Hsc Hexp E) in H'.
           cbn [fst] in H'. rewrite Hsc in H'. now injection H' as <-.
        -- assert (Hneq : sc_storageType sc <> getStorageType b).
           { intro H. apply StorageType_eqb_eq in H. congruence. }
           destruct (Hreal sc eq_refl Hexp Hneq) as (_ & _ & Hok & _).
           destruct (Hok Hb) as (_ & _ & Hm & _). rewrite H' in Hm.
           now injection Hm.
    + unfold onRehydrateStorage in H'. rewrite Hsc in H'. cbn [fst] in H'.
      rewrite Hsc in H'. discriminate.
Qed.

Lemma X8_rehydration_witness :
  (let t := fst (setConfig full_localStorage 1000 "k" (D 6)
                   (initialTab full_localStorage)) in
   let r := onRehydrateStorage working_browser 2000 2001 t in
   storageType (store (fst r)) = localStorage
   /\ stored_timestamp (fst r) = Some 2001) /\
  (let t := restored_tab full_localStorage in
   hydrate full_localStorage 2000 2001 t = t).
Proof.
  split.
  - intros t r.
    destruct (X8_rehydration_aligns_medium working_browser 2000 2001 t)
      as (_ & _ & H & _).
    destruct (H (mkSessionConfig 6 predefined 1000 sessionStorage "k"))
      as (H1 & _ & H2 & _); [reflexivity | reflexivity | discriminate |].
    destruct H2 as (_ & H2 & _); [reflexivity|].
    split; [exact H1 | exact H2].
  - intro t.
    destruct (X8_rehydration_aligns_medium full_localStorage 2000 2001 t)
      as (_ & _ & H & _).
    destruct (H (mkSessionConfig 6 predefined 0 localStorage "k"))
      as (_ & _ & _ & H3); [reflexivity | reflexivity | discriminate |].
    apply H3. reflexivity.
Defined.

(** X9. [getStorageType] makes at most four Storage calls, the first one a
    write to [localStorage], and touches [sessionStorage] only when the
    [localStorage] probe threw; it answers [unavailable] exactly when both
    probes throw. *)
Theorem X9_probe_order_and_cost (b : Browser) :
  let trace := snd (getStorageType_traced b) in
  (List.length trace <= 4)%nat /\
  hd_error trace = Some (localStorageObject, setItem) /\
  (forall m, In (sessionStorageObject, m) trace ->
             throws b localStorageObject setItem = true
             \/ throws b localStorageObject removeItem = true) /\
  (forall m, In (sessionStorageObject, m) trace ->
             getStorageType b <> localStorage) /\
  (getStorageType b = unavailable <->
   (throws b localStorageObject setItem = true
    \/ throws b localStorageObject removeItem = true)
   /\ (throws b sessionStorageObject setItem = true
       \/ throws b sessionStorageObject removeItem = true)).
Proof.
  unfold getStorageType, getStorageType_traced.
  rewrite probe_outcome.
  destruct (throws b localStorageObject setItem) eqn:H1;
    [|destruct (throws b localStorageObject removeItem) eqn:H2];
    cbv iota beta; try rewrite probe_outcome;
    try (destruct (throws b sessionStorageObject setItem) eqn:H3;
         [|destruct (throws b sessionStorageObject removeItem) eqn:H4]);
    cbn; repeat split; auto; try lia; try discriminate;
    try (intros m [E | E]; try discriminate E; now destruct E);
    try (intros m [E | [E | E]]; try discriminate E; now destruct E);
    try (intros [[E | E] _]; discriminate E);
    try (intros [_ [E | E]]; discriminate E);
    try tauto.
Qed.

Lemma X9_probe_witness : getStorageType full_localStorage <> localStorage.
Proof.
  apply (proj1 (proj2 (proj2 (proj2 (X9_probe_order_and_cost full_localStorage))))
           setItem).
  vm_compute. right. left. reflexivity.
Defined.

End StoreExtras.

(** * Further properties of the validation service *)

Module ServiceExtras.
Import Service ServiceFacts.

(** ** Texts made of digits *)

Lemma digit_not_space c : is_digit c = true -> is_space c = false.
Proof.
  unfold is_digit, is_space. intro H.
  apply andb_true_iff in H. destruct H as [H1 H2].
  apply N.leb_le in H1. apply N.leb_le in H2.
  apply orb_false_iff; split; [apply orb_false_iff; split|].
  - apply andb_false_iff. right. apply N.leb_gt. lia.
  - apply N.eqb_neq. lia.
  - apply N.eqb_neq. lia.
Qed.

Lemma digit_value_bounds c : is_digit c = true -> 0 <= digit_value c <= 9.
Proof.
  unfold is_digit, digit_value. intro H.
  apply andb_true_iff in H. destruct H as [H1 H2].
  apply N.leb_le in H1. apply N.leb_le in H2. lia.
Qed.

Lemma digit_is_no_sign c (rest : string) :
  is_digit c = true ->
  match String c rest with
  | String "-" r => (-1, r)
  | String "+" r => (1, r)
  | _ => (1, String c rest)
  end = (1, String c rest).
Proof.
  destruct c as [[] [] [] [] [] [] [] []]; intro H;
    try reflexivity; vm_compute in H; discriminate.
Qed.

Lemma read_digits_total s :
  all_digits s = true ->
  forall a, 0 <= a -> exists v, read_digits s (Some a) = Some v /\ 0 <= v.
Proof.
  induction s as [|c rest IH]; intros Hall a Ha; cbn [read_digits].
  - now exists a.
  - cbn [all_digits] in Hall. apply andb_true_iff in Hall.
    destruct Hall as [Hc Hrest]. rewrite Hc.
    apply IH; [exact Hrest|]. pose proof (digit_value_bounds c Hc). lia.
Qed.

Lemma digits_have_no c s :
  is_digit c = false -> all_digits s = true -> contains c s = false.
Proof.
  intros Hc. induction s as [|c' rest IH]; intro Hall; [reflexivity|].
  cbn [all_digits] in Hall. apply andb_true_iff in Hall.
  destruct Hall as [Hc' Hrest]. cbn [contains]. rewrite (IH Hrest).
  destruct (Ascii.eqb_spec c' c) as [-> | _]; [congruence | reflexivity].
Qed.

(** A text made of digits only passes the format checks, and [parseInt]
    reads a natural number from it. *)
Lemma digits_shape s :
  only_digits s = true ->
  (trim s =? "")%string = false
  /\ contains "." s = false
  /\ contains "," s = false
  /\ exists v, 0 <= v /\ parseInt s = double_of_Z v.
Proof.
  destruct s as [|c rest]; [discriminate|]. cbn [only_digits]. intro Hall.
  pose proof Hall as Hall'. cbn [all_digits] in Hall'.
  apply andb_true_iff in Hall'. destruct Hall' as [Hc Hrest].
  pose proof (digit_not_space c Hc) as Hsp.
  split; [|split; [|split]].
  - unfold trim. cbn [trimStart]. rewrite Hsp. cbn [trimEnd all_space].
    rewrite Hsp. reflexivity.
  - now apply digits_have_no.
  - now apply digits_have_no.
  - unfold parseInt. cbn [trimStart]. rewrite Hsp.
    rewrite (digit_is_no_sign c rest Hc). cbn [read_digits]. rewrite Hc.
    destruct (read_digits_total rest Hrest (10 * 0 + digit_value c))
      as (v & Hv & Hpos).
    + pose proof (digit_value_bounds c Hc). lia.
    + exists v. split; [exact Hpos|]. rewrite Hv. now rewrite Z.mul_1_l.
Qed.

(** On a text made of digits only the answer is decided by the number
    [parseInt] gives. *)
Lemma validate_only_digits s :
  only_digits s = true ->
  diceConfigValidateCustom (custom_body (JString s))
  = numeric_check (parseInt s).
Proof.
  intros Hd. destruct (digits_shape s Hd) as (Htrim & Hdot & Hcomma & _).
  unfold diceConfigValidateCustom, inputSchema, custom_body, lookup,
    format_check.
  cbn [String.eqb Ascii.eqb Bool.eqb]. cbv iota.
  rewrite Htrim, Hdot, Hcomma, Hd. reflexivity.
Qed.

Lemma validate_digits s v :
  only_digits s = true -> parseInt s = num v ->
  diceConfigValidateCustom (custom_body (JString s)) = range_verdict v.
Proof.
  intros Hd Hp. rewrite (validate_only_digits s Hd), Hp.
  apply numeric_check_integer, num_denotes.
Qed.

(** The answer to the number an integer becomes: the range verdict up to
    1000, and beyond that a refusal with a message, about the maximum or,
    for an infinity, about decimals. *)
Lemma numeric_check_double v :
  0 <= v ->
  (v <= 1000 -> numeric_check (double_of_Z v) = range_verdict v) /\
  (1000 < v ->
   numeric_check (double_of_Z v) = invalid "Máximo de 1000 lados permitido" 2
   \/ (double_of_Z v = JInfinity false
       /\ numeric_check (double_of_Z v)
          = invalid "Digite apenas números inteiros, sem casas decimais" 1)).
Proof.
  intro Hv.
  assert (Hsafe : v <= MAX_SAFE_INTEGER ->
                  numeric_check (double_of_Z v) = range_verdict v).
  { intro H. rewrite double_of_Z_safe by lia.
    apply numeric_check_integer, num_denotes. }
  split.
  - intro H. apply Hsafe. unfold MAX_SAFE_INTEGER. lia.
  - intro H. destruct (Z.le_gt_cases v MAX_SAFE_INTEGER) as [Hle | Hgt].
    + left. rewrite (Hsafe Hle). unfold range_verdict.
      destruct (Z.ltb_spec v 2); [lia|].
      destruct (Z.ltb_spec 1000 v); [reflexivity | lia].
    + destruct (double_of_Z_large v Hgt) as [-> | (r & -> & Hr)].
      * right. split; reflexivity.
      * left. unfold num.
        rewrite (numeric_check_integer _ r (num_denotes r)).
        unfold range_verdict. destruct (Z.ltb_spec r 2); [lia|].
        destruct (Z.ltb_spec 1000 r); [reflexivity | lia].
Qed.

(** ** What [diceConfigSet] returns *)

Lemma valid_request_of n m :
  (m = PREDEFINED /\ In n [4; 6; 8; 10; 12; 20]) \/ (m = CUSTOM /\ 2 <= n <= 1000) ->
  valid_request (set_body (JNumber (num n)) (JString (method_text m))) n m.
Proof.
  intros [[-> H] | [-> H]].
  - apply (valid_predefined _ (num n) n); try reflexivity; exact H.
  - apply (valid_custom _ (num n) n); try reflexivity; exact H.
Qed.

Lemma valid_request_range body n m :
  valid_request body n m ->
  (m = PREDEFINED /\ In n [4; 6; 8; 10; 12; 20]) \/ (m = CUSTOM /\ 2 <= n <= 1000).
Proof. intros [? ? ? _ _ _ H | ? ? ? _ _ _ H]; auto. Qed.

Lemma valid_request_sides a text n m :
  valid_request (set_body (JNumber (num a)) (JString text)) n m ->
  n = a /\ text = method_text m.
Proof.
  intro H. inversion H as [members x n' Hs Hd Hm Hin | members x n' Hs Hd Hm Hr];
    subst; cbn in Hs, Hm; injection Hs as <-; injection Hm as ->;
    cbn in Hd; unfold Qeq in Hd; cbn in Hd;
    (split; [lia | reflexivity]).
Qed.

(** X10. Posting back what [diceConfigSet] returned gives the same answer
    again: the sides and the method of a response always form a valid
    request, and the derived members are recomputed to the same values. *)
Theorem X10_set_reproduces_its_answer (body : JsValue) (r : DiceConfigResponse) :
  diceConfigSet body = Returns r ->
  diceConfigSet (request_of r) = Returns r.
Proof.
  intro H. apply diceConfigSet_returns in H. destruct H as [Hv Hr].
  rewrite Hr at 2. apply diceConfigSet_valid. unfold request_of.
  apply valid_request_of. now apply (valid_request_range body).
Qed.

Lemma X10_set_reproduces_witness :
  diceConfigSet (request_of (mkResponse 37 CUSTOM (1, 37) (1 / inject_Z 37)%Q "D37"))
  = Returns (mkResponse 37 CUSTOM (1, 37) (1 / inject_Z 37)%Q "D37").
Proof.
  apply (X10_set_reproduces_its_answer
           (JObject [("selectionMethod", JString "custom");
                     ("diceSides", JNumber (JFinite (74 # 2)));
                     ("extra", JNull)])).
  reflexivity.
Defined.

(** X11. Every response of [diceConfigSet] has from 2 to 1000 sides, one of
    4, 6, 8, 10, 12, 20 when the method is predefined, the range 1 to sides,
    the quotient of 1 by the sides as probability, and the label "D"
    followed by the sides. *)
Theorem X11_every_answer_is_a_die (body : JsValue) (r : DiceConfigResponse) :
  diceConfigSet body = Returns r ->
  2 <= diceSides r <= 1000
  /\ (selectionMethod r = PREDEFINED -> In (diceSides r) SIDES)
  /\ probabilityRange r = (1, diceSides r)
  /\ individualProbability r = snd (calculateProbability (diceSides r))
  /\ displayFormat r = "D" ++ toString (diceSides r).
Proof.
  intro H. apply diceConfigSet_returns in H. destruct H as [Hv Hr].
  apply valid_request_range in Hv.
  assert (Hrange : 2 <= diceSides r <= 1000).
  { destruct Hv as [[_ Hin] | [_ H]]; [|exact H].
    cbn in Hin. intuition lia. }
  split; [exact Hrange|]. split; [|rewrite Hr; cbn; repeat split].
  intro Hm. destruct Hv as [[_ Hin] | [Hc _]]; [exact Hin | congruence].
Qed.

Lemma X11_every_answer_witness :
  let r := mkResponse 49 CUSTOM (1, 49) (1 / inject_Z 49)%Q "D49" in
  2 <= diceSides r <= 1000 /\ displayFormat r = "D" ++ toString (diceSides r).
Proof.
  intro r.
  destruct (X11_every_answer_is_a_die
              (set_body (JNumber (num 49)) (JString "custom")) r)
    as (H1 & _ & _ & _ & H5); [reflexivity|].
  split; [exact H1 | exact H5].
Defined.

(** ** Validation and setting agree *)

Lemma set_custom_below_one n :
  n < 1 ->
  exists e,
    diceConfigSet (set_body (JNumber (num n)) (JString "custom")) = Throws e.
Proof.
  intro Hlow. destruct (diceConfigSet _) as [r | e] eqn:E; [|now exists e].
  apply diceConfigSet_returns in E. destruct E as [Hv _].
  pose proof (valid_request_range _ _ _ Hv) as Hrange.
  apply valid_request_sides in Hv. destruct Hv as [Hn Hm].
  destruct Hrange as [[Hp _] | [_ Hr]]; [rewrite Hp in Hm; discriminate | lia].
Qed.

Lemma set_custom_from_one n :
  1 <= n ->
  diceConfigSet (set_body (JNumber (num n)) (JString "custom")) =
  if n <? 2 then
    Throws (mkServiceError "VALIDATION_ERROR"
              (Some "O dado deve ter pelo menos 2 lados") 400 [])
  else if 1000 <? n then
    Throws (mkServiceError "VALIDATION_ERROR"
              (Some "Máximo de 1000 lados permitido") 400 [])
  else Returns (mkResponse n CUSTOM (1, n) (1 / inject_Z n)%Q ("D" ++ toString n)).
Proof.
  intro Hpos. unfold diceConfigSet, set_body, setConfigSchema.
  cbn [lookup String.eqb Ascii.eqb Bool.eqb]. cbv iota.
  unfold num at 1.
  rewrite (positive_int_denotes _ n (num_denotes n)) by lia.
  cbn [selectionMethodSchema String.eqb Ascii.eqb Bool.eqb]. cbv iota.
  rewrite (proj2 (denotes_integer _ n (num_denotes n))).
  cbn [in_selectionMethod in_diceSides].
  unfold customSidesSchema, z_number.
  change (num n) with (JFinite (inject_Z n)). cbv iota beta.
  rewrite (proj1 (denotes_integer _ n (num_denotes n))),
    (lt_denotes _ n _ (num_denotes n)), (gt_denotes _ n _ (num_denotes n)).
  unfold MIN_SIDES, MAX_SIDES.
  destruct (Z.ltb_spec n 2), (Z.ltb_spec 1000 n); try lia; reflexivity.
Qed.

(** X12. [diceConfigValidateCustom] and [diceConfigSet] agree on custom
    sides.  Take an integer that a number holds, given as that number or as
    a text of digits that [parseInt] reads as that number: the validation
    says valid exactly when setting it as custom returns; and from 1
    upwards, an invalid value is refused by [diceConfigSet] with the very
    message the validation reports.  A text of digits beyond the range of
    numbers is read as [Infinity] and gets the message about decimals, which
    [diceConfigSet] gives to no integer. *)
Theorem X12_validation_agrees_with_set (v : JsValue) (n : Z) :
  (v = JNumber (num n) /\ double_of_Z n = num n)
  \/ (exists s, v = JString s /\ only_digits s = true /\ parseInt s = num n) ->
  let verdict := diceConfigValidateCustom (custom_body v) in
  let outcome := diceConfigSet (set_body (JNumber (num n)) (JString "custom")) in
  (isValid verdict = true <-> exists r, outcome = Returns r /\ diceSides r = n) /\
  (1 <= n -> isValid verdict = false ->
   exists e, outcome = Throws e /\ message e = errorMessage verdict) /\
  (forall s, only_digits s = true -> parseInt s = JInfinity false ->
     diceConfigValidateCustom (custom_body (JString s))
     = invalid "Digite apenas números inteiros, sem casas decimais" 1
     /\ forall m, 1 <= m ->
          forall e, diceConfigSet (set_body (JNumber (num m)) (JString "custom"))
                    = Throws e ->
                    message e
                    <> Some "Digite apenas números inteiros, sem casas decimais").
Proof.
  intros Hv verdict outcome.
  assert (Hverdict : verdict = range_verdict n).
  { subst verdict. destruct Hv as [[-> _] | (s & -> & Hd & Hp)].
    - apply validate_integer_number, num_denotes.
    - now apply validate_digits. }
  assert (Hmain :
    (isValid (range_verdict n) = true
     <-> exists r, outcome = Returns r /\ diceSides r = n) /\
    (1 <= n -> isValid (range_verdict n) = false ->
     exists e, outcome = Throws e /\ message e = errorMessage (range_verdict n))).
  { subst outcome. unfold range_verdict.
    destruct (Z.ltb_spec n 1) as [Hlow | Hpos].
    - replace (n <? 2) with true by (symmetry; apply Z.ltb_lt; lia).
      split; [|lia]. split; [discriminate|].
      intros (r & Hr & _). destruct (set_custom_below_one n Hlow) as [e He].
      rewrite He in Hr. discriminate.
    - rewrite (set_custom_from_one n Hpos).
      destruct (Z.ltb_spec n 2); [|destruct (Z.ltb_spec 1000 n)]; cbn.
      + split; [split; [discriminate | intros (r & Hr & _); discriminate]|].
        intros _ _. eexists; split; reflexivity.
      + split; [split; [discriminate | intros (r & Hr & _); discriminate]|].
        intros _ _. eexists; split; reflexivity.
      + split; [|discriminate]. split; [|reflexivity].
        intros _. eexists; split; reflexivity. }
  rewrite Hverdict. split; [exact (proj1 Hmain)|]. split; [exact (proj2 Hmain)|].
  intros s Hd Hp. split.
  - now rewrite (validate_only_digits s Hd), Hp.
  - intros m Hm e He. rewrite (set_custom_from_one m Hm) in He.
    destruct (m <? 2); [injection He as <-; discriminate|].
    destruct (1000 <? m); [injection He as <-; discriminate | discriminate].
Qed.

Lemma X12_validation_agrees_witness :
  (exists e,
     diceConfigSet (set_body (JNumber (num 1001)) (JString "custom")) = Throws e
     /\ message e
        = errorMessage (diceConfigValidateCustom (custom_body (JString "01001"))))
  /\ diceConfigValidateCustom (custom_body (JString (nines 310)))
     = invalid "Digite apenas números inteiros, sem casas decimais" 1.
Proof.
  destruct (X12_validation_agrees_with_set (JString "01001") 1001)
    as (_ & Hmsg & Hinf).
  - right. exists "01001". repeat split.
  - split.
    + apply Hmsg; [lia | reflexivity].
    + apply (Hinf (nines 310)); vm_compute; reflexivity.
Defined.

(** X13. Every predefined option the service lists (the default number of
    sides among them) is accepted by [diceConfigSet] both as predefined and
    as custom and passes the custom validation; [diceConfigSet] with the
    predefined method accepts an integer exactly when it is listed; and the
    default configuration [diceConfigGet] returns is what [diceConfigSet]
    answers when it is posted back. *)
Theorem X13_options_and_default_are_consistent :
  (forall o, In o diceConfigGetPredefinedOptions ->
     diceConfigSet (set_body (JNumber (num o)) (JString "predefined"))
     = Returns (mkResponse o PREDEFINED (1, o) (1 / inject_Z o)%Q
                  ("D" ++ toString o))
     /\ diceConfigSet (set_body (JNumber (num o)) (JString "custom"))
        = Returns (mkResponse o CUSTOM (1, o) (1 / inject_Z o)%Q
                     ("D" ++ toString o))
     /\ isValid (diceConfigValidateCustom (custom_body (JNumber (num o))))
        = true) /\
  (forall n,
     (exists r, diceConfigSet (set_body (JNumber (num n)) (JString "predefined"))
                = Returns r)
     <-> In n diceConfigGetPredefinedOptions) /\
  In DEFAULT_SIDES diceConfigGetPredefinedOptions /\
  (forall isoNow syncKey,
     diceConfigSet (request_of (diceConfigGet isoNow syncKey))
     = Returns (diceConfigGet isoNow syncKey)).
Proof.
  split; [|split; [|split]].
  - intros o Ho.
    assert (Hr : 2 <= o <= 1000) by (cbn in Ho; intuition lia).
    split; [|split].
    + apply diceConfigSet_valid.
      apply (valid_request_of o PREDEFINED). left. split; [reflexivity | exact Ho].
    + apply diceConfigSet_valid.
      apply (valid_request_of o CUSTOM). right. split; [reflexivity | exact Hr].
    + unfold num. rewrite (validate_integer_number _ o (num_denotes o)).
      unfold range_verdict.
      destruct (Z.ltb_spec o 2); [lia|]. destruct (Z.ltb_spec 1000 o); [lia|].
      reflexivity.
  - intro n. split.
    + intros [r Hr]. apply diceConfigSet_returns in Hr. destruct Hr as [Hv _].
      pose proof (valid_request_range _ _ _ Hv) as Hrange.
      apply valid_request_sides in Hv. destruct Hv as [Hn Hm].
      destruct Hrange as [[_ Hin] | [Hc _]];
        [now rewrite <- Hn | rewrite Hc in Hm; discriminate].
    + intro Hin. eexists. apply diceConfigSet_valid.
      apply (valid_request_of n PREDEFINED). left. split; [reflexivity | exact Hin].
  - cbn. tauto.
  - intros isoNow syncKey. reflexivity.
Qed.

Lemma X13_options_witness :
  isValid (diceConfigValidateCustom (custom_body (JNumber (num 12)))) = true.
Proof.
  apply (proj1 X13_options_and_default_are_consistent 12).
  cbn. tauto.
Defined.

End ServiceExtras.

(** * Properties of the controller and of the client *)

Module ClientExtras.
Import Service Controller Client ServiceFacts ServiceExtras.

(** ** Status codes *)

(** X14. [POST /dice-config] answers 200 with the success envelope exactly
    for a valid request, and otherwise 400 with an error envelope whose code
    is VALIDATION_ERROR; [POST /dice-config/validate-custom] always answers
    200 with the verdict as data, however invalid the input. *)
Theorem X14_status_of_set_and_validate (body : JsValue) :
  (status (setHandler body) = 200 <-> exists n m, valid_request body n m) /\
  (status (setHandler body) = 400 <-> ~ exists n m, valid_request body n m) /\
  (forall n m, valid_request body n m ->
     json (setHandler body)
     = successResponse (mkResponse n m (1, n) (1 / inject_Z n)%Q
                          ("D" ++ toString n))) /\
  ((~ exists n m, valid_request body n m) ->
   exists msg details,
     json (setHandler body) = errorResponse msg "VALIDATION_ERROR" details) /\
  validateCustomHandler body
  = mkHttp 200 (successResponse (diceConfigValidateCustom body)).
Proof.
  unfold setHandler.
  destruct (diceConfigSet body) as [r | e] eqn:E.
  - pose proof (diceConfigSet_returns body r E) as [Hv Hr].
    assert (Hex : exists n m, valid_request body n m) by eauto.
    cbn [respond status json].
    split; [tauto|]. split; [split; [discriminate | tauto]|].
    split; [|split; [tauto | reflexivity]].
    intros n m H. rewrite (diceConfigSet_valid body n m H) in E.
    now injection E as <-.
  - pose proof (diceConfigSet_throws body e E) as [Hc Hs].
    assert (Hno : ~ exists n m, valid_request body n m).
    { intros (n & m & H). rewrite (diceConfigSet_valid body n m H) in E.
      discriminate. }
    cbn [respond status json]. rewrite Hs, Hc.
    split; [split; [discriminate | tauto]|]. split; [tauto|].
    split; [|split; [eauto | reflexivity]].
    intros n m H. exfalso. apply Hno. eauto.
Qed.

Lemma X14_status_witness :
  json (setHandler (set_body (JNumber (num 10)) (JString "predefined")))
  = successResponse (mkResponse 10 PREDEFINED (1, 10) (1 / inject_Z 10)%Q "D10").
Proof.
  apply (X14_status_of_set_and_validate
           (set_body (JNumber (num 10)) (JString "predefined"))).
  apply (valid_request_of 10 PREDEFINED). left. split; [reflexivity|].
  cbn. tauto.
Defined.

(** ** The form schemas against the server *)

Lemma sides_in_range_spec labelled v x :
  sides_in_range labelled v = Success x <->
  exists q n, v = JNumber (JFinite q) /\ x = JFinite q
              /\ (q == inject_Z n)%Q /\ 2 <= n <= 1000.
Proof.
  unfold sides_in_range. split.
  - destruct v as [| | |[q|negative|]| | |]; try discriminate.
    destruct (isInteger (JFinite q)) eqn:Hi; [|cbn; discriminate].
    pose proof (integer_denotes q Hi) as Hd.
    rewrite (lt_denotes q _ 2 Hd), (gt_denotes q _ 1000 Hd).
    destruct (Z.ltb_spec (to_Z (JFinite q)) 2); [cbn; discriminate|].
    destruct (Z.ltb_spec 1000 (to_Z (JFinite q))); [cbn; discriminate|].
    cbn. intros [= <-]. exists q, (to_Z (JFinite q)). auto.
  - intros (q & n & -> & -> & Hd & Hr).
    rewrite (proj1 (denotes_integer q n Hd)), (lt_denotes q n 2 Hd),
      (gt_denotes q n 1000 Hd).
    destruct (Z.ltb_spec n 2); [lia|]. destruct (Z.ltb_spec 1000 n); [lia|].
    reflexivity.
Qed.

Lemma denotes_unique q n n' :
  (q == inject_Z n)%Q -> (q == inject_Z n')%Q -> n = n'.
Proof.
  intros H H'. rewrite H in H'. unfold Qeq in H'. cbn in H'. lia.
Qed.

Lemma valid_request_number x text n m :
  valid_request (set_body (JNumber x) (JString text)) n m ->
  denotes x n /\ text = method_text m.
Proof.
  intro H. inversion H as [members y k Hs Hd Hm Hin | members y k Hs Hd Hm Hr];
    subst; cbn in Hs, Hm; injection Hs as <-; injection Hm as ->;
    (split; [exact Hd | reflexivity]).
Qed.

(** X15. The form schema is wider than the server on the method and equal
    on the sides.  Every request the server accepts passes [diceConfigSchema]
    with the same sides and method.  Whatever passes the form schema has an
    integer from 2 to 1000 as sides and is accepted by the server when sent
    as custom; sent as predefined it is accepted only if the sides are one
    of 4, 6, 8, 10, 12, 20. *)
Theorem X15_form_schema_against_server (input : JsValue) :
  (forall n m, valid_request input n m ->
     exists x, diceConfigSchema input = Success (mkForm x (method_of m))
               /\ denotes x n) /\
  (forall c, diceConfigSchema input = Success c ->
     exists n,
       denotes (form_diceSides c) n /\ 2 <= n <= 1000
       /\ diceConfigSet (encode (mkForm (form_diceSides c) Store.custom))
          = Returns (mkResponse n CUSTOM (1, n) (1 / inject_Z n)%Q
                       ("D" ++ toString n))
       /\ ((exists r,
              diceConfigSet (encode (mkForm (form_diceSides c) Store.predefined))
              = Returns r)
           <-> In n PREDEFINED_OPTIONS)).
Proof.
  split.
  - intros n m H.
    assert (Hr : 2 <= n <= 1000).
    { apply valid_request_range in H. destruct H as [[_ Hin] | [_ H]]; [|exact H].
      cbn in Hin. intuition lia. }
    destruct H as [members x n Hs Hd Hm _ | members x n Hs Hd Hm _];
      destruct x as [q| |]; try contradiction; exists (JFinite q);
      (split; [|exact Hd]); unfold diceConfigSchema; rewrite Hs, Hm;
      rewrite (proj2 (sides_in_range_spec true (JNumber (JFinite q)) (JFinite q)))
        by (exists q, n; auto);
      reflexivity.
  - intros c H. unfold diceConfigSchema in H.
    destruct input as [| | | | | |members]; try discriminate.
    destruct (sides_in_range true (lookup "diceSides" members)) as [x|] eqn:Hs;
      [|destruct (method_or_default _); cbn in H; discriminate].
    destruct (method_or_default _) as [m|]; [|cbn in H; discriminate].
    injection H as <-. cbn [form_diceSides].
    apply sides_in_range_spec in Hs. destruct Hs as (q & n & _ & -> & Hd & Hr).
    exists n. split; [exact Hd|]. split; [exact Hr|]. split.
    + apply diceConfigSet_valid.
      apply (valid_custom _ (JFinite q) n); auto.
    + split.
      * intros [r Hret]. apply diceConfigSet_returns in Hret.
        destruct Hret as [Hv _].
        pose proof (valid_request_range _ _ _ Hv) as Hrange.
        apply valid_request_number in Hv. destruct Hv as [Hd' Hm'].
        cbn in Hd'. rewrite (denotes_unique q n _ Hd Hd').
        destruct Hrange as [[_ Hin] | [Hc _]];
          [exact Hin | rewrite Hc in Hm'; discriminate].
      * intro Hin. eexists. apply diceConfigSet_valid.
        apply (valid_predefined _ (JFinite q) n); auto.
Qed.

Lemma X15_form_schema_witness :
  exists x,
    diceConfigSchema (set_body (JNumber (num 12)) (JString "predefined"))
    = Success (mkForm x Store.predefined)
    /\ denotes x 12.
Proof.
  apply (proj1 (X15_form_schema_against_server
                  (set_body (JNumber (num 12)) (JString "predefined")))
           12 PREDEFINED).
  apply (valid_request_of 12 PREDEFINED). left. split; [reflexivity|].
  cbn. tauto.
Defined.

Lemma validate_valid_number x :
  isValid (diceConfigValidateCustom (custom_body (JNumber x))) = true <->
  exists y, sides_in_range false (JNumber x) = Success y.
Proof.
  destruct x as [q|negative|].
  - unfold diceConfigValidateCustom, custom_body, inputSchema; cbn [lookup].
    cbn [String.eqb Ascii.eqb Bool.eqb]. cbv iota. cbn [format_check].
    unfold numeric_check, sides_in_range, MIN_SIDES, MAX_SIDES. cbn [isNaN].
    cbv iota.
    destruct (isInteger (JFinite q)), (lt (JFinite q) (num 2)),
      (gt (JFinite q) (num 1000)); cbn; split; intro H;
      try discriminate; try (now eexists); destruct H; discriminate.
  - destruct negative; cbn; (split; [discriminate | intros [y H]; discriminate]).
  - cbn. split; [discriminate | intros [y H]; discriminate].
Qed.

Lemma validate_valid_string s :
  isValid (diceConfigValidateCustom (custom_body (JString s))) = true ->
  only_digits s = true.
Proof.
  unfold diceConfigValidateCustom, custom_body, inputSchema; cbn [lookup].
  cbn [String.eqb Ascii.eqb Bool.eqb]. cbv iota. unfold format_check.
  destruct (trim s =? "")%string; [cbn; discriminate|].
  destruct (contains "." s || contains "," s); [cbn; discriminate|].
  destruct (only_digits s); [reflexivity | cbn; discriminate].
Qed.

(** X16. The form's custom schema never refuses what the server validates:
    every input the server calls valid passes [customDiceValidationSchema].
    On numbers the two agree exactly.  A text passes the form schema exactly
    when it is made of digits only, whatever its value; the server then
    answers with a format error exactly when [parseInt] makes [Infinity] of
    the text, which it never does for a text that names a safe integer. *)
Theorem X16_custom_form_schema_against_server :
  (forall v,
     isValid (diceConfigValidateCustom (custom_body v)) = true ->
     customDiceValidationSchema (custom_body v) <> None) /\
  (forall x,
     customDiceValidationSchema (custom_body (JNumber x)) <> None
     <-> isValid (diceConfigValidateCustom (custom_body (JNumber x))) = true) /\
  (forall s,
     customDiceValidationSchema (custom_body (JString s)) <> None
     <-> only_digits s = true) /\
  (forall s,
     customDiceValidationSchema (custom_body (JString s)) <> None ->
     (errorPriority (diceConfigValidateCustom (custom_body (JString s)))
      = Some 1
      <-> parseInt s = JInfinity false)) /\
  (forall n,
     0 <= n <= MAX_SAFE_INTEGER ->
     customDiceValidationSchema (custom_body (JString (toString n))) <> None
     /\ errorPriority (diceConfigValidateCustom
                         (custom_body (JString (toString n))))
        <> Some 1).
Proof.
  assert (Hnum : forall x,
    customDiceValidationSchema (custom_body (JNumber x)) <> None
    <-> isValid (diceConfigValidateCustom (custom_body (JNumber x))) = true).
  { intro x. rewrite validate_valid_number.
    unfold customDiceValidationSchema, custom_body; cbn [lookup].
    cbn [String.eqb Ascii.eqb Bool.eqb]. cbv iota.
    destruct (sides_in_range false (JNumber x)) as [y|]; cbn.
    - split; [now eexists | discriminate].
    - split; [intro H; now contradiction H | intros [y H]; discriminate]. }
  assert (Hstr : forall s,
    customDiceValidationSchema (custom_body (JString s)) <> None
    <-> only_digits s = true).
  { intro s. unfold customDiceValidationSchema, custom_body; cbn [lookup].
    cbn [String.eqb Ascii.eqb Bool.eqb]. cbv iota. cbn.
    destruct (only_digits s); split; congruence. }
  split; [|split; [exact Hnum | split; [exact Hstr | split]]].
  - intros v H. destruct v as [| | |x|s| |]; try (cbn in H; discriminate).
    + now apply Hnum.
    + apply Hstr. now apply validate_valid_string.
  - intros s H. apply Hstr in H. rewrite (validate_only_digits s H).
    destruct (digits_shape s H) as (_ & _ & _ & v & Hv & Hp). rewrite Hp.
    destruct (double_of_Z_shape v Hv) as [-> | [r ->]].
    + split; reflexivity.
    + unfold num. rewrite (numeric_check_integer _ r (num_denotes r)).
      unfold range_verdict.
      destruct (r <? 2); [cbn; split; discriminate|].
      destruct (1000 <? r); cbn; split; discriminate.
  - intros n Hn. rewrite (validate_numeral n Hn).
    destruct (toString_numeral n (proj1 Hn)) as (d & Hd & Hs & _).
    destruct (numeral_shape d Hd) as (_ & Hdigits & _). rewrite <- Hs in Hdigits.
    split; [now apply Hstr|]. unfold range_verdict.
    destruct (n <? 2); [cbn; discriminate|].
    destruct (1000 <? n); cbn; discriminate.
Qed.

Lemma X16_custom_form_witness :
  customDiceValidationSchema (custom_body (JString "0420")) <> None /\
  errorPriority (diceConfigValidateCustom (custom_body (JString (toString 5000))))
  <> Some 1 /\
  errorPriority (diceConfigValidateCustom (custom_body (JString (nines 310))))
  = Some 1.
Proof.
  destruct X16_custom_form_schema_against_server
    as (Hvalid & _ & Hstr & Hformat & Hsafe).
  split; [|split].
  - apply Hvalid. reflexivity.
  - apply (Hsafe 5000). unfold MAX_SAFE_INTEGER. lia.
  - apply Hformat; [apply Hstr|]; vm_compute; reflexivity.
Defined.

(** ** The custom input of the selector *)

Lemma keep_digits_all value : all_digits (keep_digits value) = true.
Proof.
  induction value as [|c rest IH]; [reflexivity|]. cbn [keep_digits].
  destruct (is_digit c) eqn:Hc; [|exact IH]. cbn [all_digits]. now rewrite Hc.
Qed.

Lemma keep_digits_fixed value :
  keep_digits value = value <-> all_digits value = true.
Proof.
  split.
  - intro H. rewrite <- H. apply keep_digits_all.
  - induction value as [|c rest IH]; [reflexivity|]. cbn [all_digits keep_digits].
    intro H. apply andb_true_iff in H. destruct H as [Hc Hrest].
    rewrite Hc. f_equal. now apply IH.
Qed.

(** X17. Whatever is typed or pasted, the custom field ends up holding its
    digits only.  When the text had another character or was empty, the
    server is not asked (the outcome does not depend on [validateCustom])
    and the validating flag is left as it was; otherwise the flag is off
    again at the end.  Tab, predefined selection and toasts are untouched. *)
Theorem X17_custom_field_keeps_digits
  (validate : string -> Reply DiceConfigValidationResult)
  (value : string) (u : Selector) :
  let u' := handleCustomInputChange validate value u in
  customValue u' = keep_digits value
  /\ all_digits (customValue u') = true
  /\ (selectedTab u' = selectedTab u
      /\ selectedPredefined u' = selectedPredefined u
      /\ toasts u' = toasts u)
  /\ (all_digits value = false \/ value = "" ->
      isValidating u' = isValidating u
      /\ forall validate', handleCustomInputChange validate' value u = u')
  /\ (all_digits value = true -> value <> "" -> isValidating u' = false).
Proof.
  intro u'. subst u'. unfold handleCustomInputChange.
  destruct (String.eqb_spec (keep_digits value) value) as [Hfix | Hdiff];
    cbn [negb].
  - rewrite Hfix. pose proof (proj1 (keep_digits_fixed value) Hfix) as Hall.
    destruct (String.eqb_spec value "") as [-> | Hne].
    + cbn. split; [reflexivity|]. split; [reflexivity|].
      split; [auto|]. split; [auto | congruence].
    + assert (Hbody : forall v,
        let r := with_isValidating false
          match v value with
          | Fulfilled result =>
              match errorMessage result with
              | Some msg =>
                  if negb (isValid result) && negb (msg =? "")%string
                  then with_customError msg
                         (with_isValidating true
                            (with_customError "" (with_customValue value u)))
                  else with_isValidating true
                         (with_customError "" (with_customValue value u))
              | None => with_isValidating true
                          (with_customError "" (with_customValue value u))
              end
          | Rejected =>
              with_customError "Erro ao validar entrada"
                (with_isValidating true
                   (with_customError "" (with_customValue value u)))
          end in
        customValue r = value /\ selectedTab r = selectedTab u
        /\ selectedPredefined r = selectedPredefined u /\ toasts r = toasts u
        /\ isValidating r = false).
      { intro v. destruct (v value) as [result|]; [|now cbn].
        destruct (errorMessage result) as [msg|]; [|now cbn].
        destruct (negb (isValid result) && negb (msg =? "")%string); now cbn. }
      destruct (Hbody validate) as (H1 & H2 & H3 & H4 & H5).
      rewrite H1. split; [reflexivity|]. split; [exact Hall|].
      split; [auto|]. split; [|auto].
      intros [H | H]; [congruence | contradiction].
  - assert (Hall : all_digits value = false).
    { destruct (all_digits value) eqn:E; [|reflexivity].
      apply keep_digits_fixed in E. contradiction. }
    cbn. split; [reflexivity|]. split; [apply keep_digits_all|].
    split; [auto|]. split; [auto | congruence].
Qed.

Lemma X17_custom_field_witness :
  customValue (handleCustomInputChange (validateCustom true) "1x2" initialSelector)
  = "12" /\
  isValidating (handleCustomInputChange (validateCustom true) "12" initialSelector)
  = false.
Proof.
  split.
  - apply (X17_custom_field_keeps_digits (validateCustom true) "1x2"
             initialSelector).
  - apply (X17_custom_field_keeps_digits (validateCustom true) "12"
             initialSelector); [reflexivity | discriminate].
Defined.

Lemma validateCustom_reaches value :
  validateCustom true value
  = Fulfilled (diceConfigValidateCustom (custom_body (JString value))).
Proof. reflexivity. Qed.

(** What [updateConfig] comes to once the server has answered: the store
    has the answer, and the promise is fulfilled when the write of [persist]
    went through and rejected when it threw. *)
Lemma updateConfig_answered b now key newConfig answer t :
  service_set true newConfig = Fulfilled answer ->
  updateConfig b true now key newConfig t
  = (if Store.throws b Store.localStorageObject Store.setItem
     then Rejected else Fulfilled answer,
     fst (Store.setConfig b now key answer t)).
Proof.
  intro H. unfold updateConfig. rewrite H.
  unfold Store.setConfig, Store.set, Store.persist_write. cbn [fst].
  now destruct (Store.throws b Store.localStorageObject Store.setItem).
Qed.

Lemma service_set_custom n :
  2 <= n <= 1000 ->
  service_set true (mkForm (num n) Store.custom)
  = Fulfilled (decode (mkResponse n CUSTOM (1, n) (1 / inject_Z n)%Q
                         ("D" ++ toString n))).
Proof.
  intro Hr. unfold service_set, setHandler, encode.
  cbn [form_diceSides form_selectionMethod send_number num method_name].
  change (JFinite (inject_Z n)) with (num n).
  rewrite (set_custom_from_one n) by lia.
  destruct (Z.ltb_spec n 2); [lia|]. destruct (Z.ltb_spec 1000 n); [lia|].
  reflexivity.
Qed.

Lemma updateConfig_custom b n now key t :
  2 <= n <= 1000 ->
  updateConfig b true now key (mkForm (num n) Store.custom) t
  = (if Store.throws b Store.localStorageObject Store.setItem
     then Rejected
     else Fulfilled (decode (mkResponse n CUSTOM (1, n) (1 / inject_Z n)%Q
                               ("D" ++ toString n))),
     fst (Store.setConfig b now key
            (decode (mkResponse n CUSTOM (1, n) (1 / inject_Z n)%Q
                       ("D" ++ toString n))) t)).
Proof.
  intro Hr. apply updateConfig_answered. now apply service_set_custom.
Qed.

(** X18. A text of digits typed into the custom field, checked by the
    server, can be submitted exactly when its number is from 2 to 1000, and
    then the server accepts it and the store receives the custom die of that
    many sides; the success toast is shown where the browser accepts the
    write of [persist], and the error toast where it refuses it, although
    the store has the die.  For any other number the field shows the
    server's message and the submit does nothing, whether the server can be
    reached or not. *)
Theorem X18_digits_submitted_iff_in_range
  (b : Store.Browser) (value : string) (u : Selector) (t : Store.Tab) (now : Z)
  (key : string) :
  all_digits value = true -> value <> "" ->
  let u1 := handleCustomInputChange (validateCustom true) value u in
  exists n,
    0 <= n /\ parseInt value = double_of_Z n
    /\ (2 <= n <= 1000 ->
        customError u1 = ""
        /\ handleCustomSubmit b true now key u1 t
           = (with_toast
                (if Store.throws b Store.localStorageObject Store.setItem
                 then toast_error "Erro ao configurar dado personalizado"
                 else toast_success
                        ("Dado personalizado de " ++ toString n
                         ++ " lados configurado"))
                u1,
              fst (Store.setConfig b now key
                     (decode (mkResponse n CUSTOM (1, n) (1 / inject_Z n)%Q
                                ("D" ++ toString n))) t)))
    /\ (n < 2 \/ 1000 < n ->
        customError u1 <> ""
        /\ forall reachable, handleCustomSubmit b reachable now key u1 t = (u1, t)).
Proof.
  intros Hall Hne u1.
  assert (Hd : only_digits value = true) by (destruct value; [contradiction | exact Hall]).
  destruct (digits_shape value Hd) as (_ & _ & _ & n & Hn & Hp).
  exists n. split; [exact Hn|]. split; [exact Hp|].
  set (verdict := numeric_check (double_of_Z n)).
  assert (Hu1 : u1 = with_isValidating false
                  (match errorMessage verdict with
                   | Some msg =>
                       if negb (isValid verdict) && negb (msg =? "")%string
                       then with_customError msg
                              (with_isValidating true
                                 (with_customError "" (with_customValue value u)))
                       else with_isValidating true
                              (with_customError "" (with_customValue value u))
                   | None => with_isValidating true
                               (with_customError "" (with_customValue value u))
                   end)).
  { subst u1 verdict. unfold handleCustomInputChange.
    rewrite (proj2 (keep_digits_fixed value) Hall), String.eqb_refl.
    cbn [negb]. destruct (String.eqb_spec value "") as [E | _]; [contradiction|].
    now rewrite validateCustom_reaches, (validate_only_digits value Hd), Hp. }
  destruct (numeric_check_double n Hn) as [Hsmall Hbig]. fold verdict in Hsmall, Hbig.
  split.
  - intro Hr. assert (Hv : verdict = valid_result).
    { rewrite Hsmall by lia. unfold range_verdict.
      destruct (Z.ltb_spec n 2); [lia|].
      destruct (Z.ltb_spec 1000 n); [lia | reflexivity]. }
    rewrite Hv in Hu1. cbn in Hu1.
    assert (Hfields : customValue u1 = value /\ customError u1 = ""
                      /\ isValidating u1 = false) by (now rewrite Hu1).
    destruct Hfields as (Hcv & Hce & Hiv). split; [exact Hce|].
    unfold handleCustomSubmit. rewrite Hcv, Hce, Hiv.
    destruct (String.eqb_spec value "") as [E | _]; [contradiction|].
    cbn [orb negb String.eqb].
    rewrite Hp, double_of_Z_safe by (unfold MAX_SAFE_INTEGER; lia).
    rewrite (updateConfig_custom b n now key t Hr).
    unfold to_Z, num. cbn [inject_Z Qnum Qden]. rewrite Z.div_1_r.
    now destruct (Store.throws b Store.localStorageObject Store.setItem).
  - intro Hout.
    assert (Hv : exists msg priority,
                   verdict = invalid msg priority /\ msg <> "").
    { destruct (Z.le_gt_cases n 1000) as [Hle | Hgt].
      - rewrite Hsmall by exact Hle. unfold range_verdict.
        destruct (Z.ltb_spec n 2); [|lia].
        eexists; eexists; split; [reflexivity | discriminate].
      - destruct (Hbig Hgt) as [-> | [_ ->]];
          eexists; eexists; split; try reflexivity; discriminate. }
    destruct Hv as (msg & priority & Hv & Hmsg). rewrite Hv in Hu1. cbn in Hu1.
    destruct (String.eqb_spec msg "") as [E | _]; [contradiction|].
    cbn in Hu1.
    assert (Hce : customError u1 = msg) by (now rewrite Hu1).
    split; [now rewrite Hce|].
    intro reachable. unfold handleCustomSubmit. rewrite Hce.
    destruct (String.eqb_spec msg "") as [E | _]; [contradiction|].
    cbn [negb]. now rewrite orb_true_r.
Qed.

Lemma X18_digits_submitted_witness :
  exists n,
    parseInt "0100" = double_of_Z n
    /\ Store.config
         (Store.store
            (snd (handleCustomSubmit Store.full_localStorage true 5 "k"
                    (handleCustomInputChange (validateCustom true) "0100"
                       initialSelector)
                    (Store.initialTab Store.full_localStorage))))
       = Some (decode (mkResponse n CUSTOM (1, n) (1 / inject_Z n)%Q
                         ("D" ++ toString n)))
    /\ toasts
         (fst (handleCustomSubmit Store.full_localStorage true 5 "k"
                 (handleCustomInputChange (validateCustom true) "0100"
                    initialSelector)
                 (Store.initialTab Store.full_localStorage)))
       = [toast_error "Erro ao configurar dado personalizado"].
Proof.
  destruct (X18_digits_submitted_iff_in_range Store.full_localStorage "0100"
              initialSelector (Store.initialTab Store.full_localStorage) 5 "k")
    as (n & Hn & Hp & Hin & _); [reflexivity | discriminate |].
  exists n. split; [exact Hp|].
  assert (Hn100 : n = 100).
  { destruct (Z.le_gt_cases n MAX_SAFE_INTEGER) as [Hle | Hgt].
    - rewrite (double_of_Z_safe n) in Hp by lia.
      vm_compute in Hp. injection Hp as Hp. lia.
    - destruct (double_of_Z_large n Hgt) as [E | (r & E & Hr)];
        rewrite E in Hp; vm_compute in Hp; [discriminate|].
      injection Hp as Hp. change (2 ^ 53) with 9007199254740992 in Hr. lia. }
  destruct Hin as [_ Hsubmit]; [lia|]. rewrite Hsubmit. cbn [fst snd].
  split; [now rewrite StoreFacts.store_setConfig | reflexivity].
Defined.

(** ** From the configuration shown back to the server *)

Lemma parseInt_toString n :
  0 <= n <= MAX_SAFE_INTEGER ->
  parseInt (toString n) = num n /\ toString n <> "".
Proof.
  intros [Hn Hsafe]. destruct (toString_numeral n Hn) as (d & Hd & -> & Hval).
  destruct (numeral_shape d Hd) as (_ & Hdigits & Hparse).
  split; [rewrite Hparse, Hval; apply double_of_Z_safe; lia|].
  intro E. rewrite E in Hdigits. discriminate.
Qed.

(** X19. A custom configuration shown by the component can be submitted
    again unchanged: the field is initialised with the decimal numeral of
    its sides, and, with no error pending, the submit sends exactly these
    sides; with sides from 2 to 1000 the server accepts them and the store
    receives the custom die of that many sides, in every browser. *)
Theorem X19_shown_custom_config_resubmits
  (b : Store.Browser) (c : Store.DiceConfig) (u : Selector) (t : Store.Tab)
  (now : Z) (key : string) :
  Store.selectionMethod c = Store.custom ->
  2 <= Store.diceSides c <= 1000 ->
  customError u = "" -> isValidating u = false ->
  let n := Store.diceSides c in
  let u0 := initialize (Some c) u in
  selectedTab u0 = Store.custom
  /\ customValue u0 = toString n
  /\ parseInt (customValue u0) = num n
  /\ snd (handleCustomSubmit b true now key u0 t)
     = fst (Store.setConfig b now key
              (decode (mkResponse n CUSTOM (1, n) (1 / inject_Z n)%Q
                         ("D" ++ toString n))) t).
Proof.
  intros Hm Hr He Hv n u0.
  destruct (parseInt_toString n) as [Hp Hne];
    [subst n; unfold MAX_SAFE_INTEGER; lia|].
  assert (Hu0 : u0 = mkSelector Store.custom (selectedPredefined u) (toString n)
                       (customError u) (isValidating u) (toasts u)).
  { subst u0. unfold initialize. now rewrite Hm. }
  rewrite Hu0. cbn [selectedTab customValue].
  split; [reflexivity|]. split; [reflexivity|]. split; [exact Hp|].
  unfold handleCustomSubmit. cbn [customValue customError isValidating].
  rewrite He, Hv. destruct (String.eqb_spec (toString n) "") as [E | _];
    [contradiction|].
  cbn [orb negb String.eqb]. rewrite Hp, (updateConfig_custom b n now key t Hr).
  now destruct (Store.throws b Store.localStorageObject Store.setItem).
Qed.

Lemma X19_resubmit_witness :
  parseInt (customValue (initialize (Some (Store.mkDiceConfig 37 Store.custom
                                             (1, 37) (1 / inject_Z 37)%Q "D37"))
                           initialSelector))
  = num 37.
Proof.
  apply (X19_shown_custom_config_resubmits Store.working_browser
           (Store.mkDiceConfig 37 Store.custom (1, 37) (1 / inject_Z 37)%Q "D37")
           initialSelector (Store.initialTab Store.working_browser) 0 "k");
    try reflexivity. cbn. lia.
Defined.

Lemma service_set_predefined reachable n :
  service_set reachable (mkForm (num n) Store.predefined)
  = if reachable && existsb (Z.eqb n) PREDEFINED_OPTIONS
    then Fulfilled (decode (mkResponse n PREDEFINED (1, n) (1 / inject_Z n)%Q
                              ("D" ++ toString n)))
    else Rejected.
Proof.
  unfold service_set, setHandler, encode.
  cbn [form_diceSides form_selectionMethod send_number num method_name].
  change (JFinite (inject_Z n)) with (num n).
  destruct (existsb (Z.eqb n) PREDEFINED_OPTIONS) eqn:E.
  - assert (Hin : In n [4; 6; 8; 10; 12; 20]).
    { apply existsb_exists in E. destruct E as (o & Ho & Heq).
      apply Z.eqb_eq in Heq. now subst. }
    pose proof (diceConfigSet_valid _ n PREDEFINED
                  (valid_request_of n PREDEFINED (or_introl (conj eq_refl Hin))))
      as Hset.
    cbn [method_text] in Hset. rewrite Hset. now destruct reachable.
  - destruct (diceConfigSet _) as [r | e] eqn:Hset.
    + exfalso. apply diceConfigSet_returns in Hset. destruct Hset as [Hv _].
      pose proof (valid_request_range _ _ _ Hv) as Hrange.
      apply valid_request_sides in Hv. destruct Hv as [Hn Hm].
      destruct Hrange as [[_ Hin] | [Hc _]]; [|rewrite Hc in Hm; discriminate].
      assert (existsb (Z.eqb n) PREDEFINED_OPTIONS = true); [|congruence].
      apply existsb_exists. exists n. split; [now rewrite <- Hn|].
      apply Z.eqb_refl.
    + pose proof (diceConfigSet_throws _ e Hset) as [_ Hs].
      unfold exchange, respond. cbn [status json]. rewrite Hs.
      now destruct reachable.
Qed.

(** X20. Choosing a predefined die: the chosen number is highlighted in any
    case.  When the server can be reached and the number is one of 4, 6, 8,
    10, 12, 20, the store receives that predefined die; the success toast is
    shown where the browser accepts the write of [persist], and the error
    toast where it refuses it, although the store has the die.  Otherwise
    the store is left as it was and the error toast is shown. *)
Theorem X20_predefined_choice
  (b : Store.Browser) (reachable : bool) (now : Z) (key : string) (sides : Z)
  (u : Selector) (t : Store.Tab) :
  let result := handlePredefinedSelect b reachable now key sides u t in
  selectedPredefined (fst result) = sides
  /\ (reachable = true -> In sides PREDEFINED_OPTIONS ->
      snd result
      = fst (Store.setConfig b now key
               (decode (mkResponse sides PREDEFINED (1, sides)
                          (1 / inject_Z sides)%Q ("D" ++ toString sides))) t)
      /\ toasts (fst result)
         = (toasts u
            ++ [if Store.throws b Store.localStorageObject Store.setItem
                then toast_error "Erro ao atualizar configuração"
                else toast_success ("Dado de " ++ toString sides
                                    ++ " lados selecionado")])%list)
  /\ (reachable = false \/ ~ In sides PREDEFINED_OPTIONS ->
      snd result = t
      /\ toasts (fst result)
         = (toasts u ++ [toast_error "Erro ao atualizar configuração"])%list).
Proof.
  intro result. subst result. unfold handlePredefinedSelect, updateConfig.
  rewrite service_set_predefined.
  destruct (existsb (Z.eqb sides) PREDEFINED_OPTIONS) eqn:E.
  - assert (Hin : In sides PREDEFINED_OPTIONS).
    { apply existsb_exists in E. destruct E as (o & Ho & Heq).
      apply Z.eqb_eq in Heq. now subst. }
    destruct reachable; cbn [andb].
    + unfold Store.setConfig, Store.set, Store.persist_write. cbn [fst].
      destruct (Store.throws b Store.localStorageObject Store.setItem);
        cbn [fst snd selectedPredefined with_toast toasts];
        (split; [reflexivity|]); (split; [auto|]);
        intros [H | H]; [discriminate | contradiction
                        | discriminate | contradiction].
    + cbn [fst snd selectedPredefined with_toast toasts].
      split; [reflexivity|]. split; [discriminate | auto].
  - assert (Hnot : ~ In sides PREDEFINED_OPTIONS).
    { intro Hin. assert (existsb (Z.eqb sides) PREDEFINED_OPTIONS = true);
        [|congruence].
      apply existsb_exists. exists sides. split; [exact Hin | apply Z.eqb_refl]. }
    rewrite andb_false_r. cbn [fst snd selectedPredefined with_toast toasts].
    split; [reflexivity|]. split; [intros _ Hin; contradiction | auto].
Qed.

Lemma X20_predefined_choice_witness :
  snd (handlePredefinedSelect Store.working_browser true 9 "k" 7 initialSelector
         (Store.initialTab Store.working_browser))
  = Store.initialTab Store.working_browser /\
  toasts (fst (handlePredefinedSelect Store.full_localStorage true 9 "k" 8
                 initialSelector (Store.initialTab Store.full_localStorage)))
  = [toast_error "Erro ao atualizar configuração"].
Proof.
  split.
  - apply (X20_predefined_choice Store.working_browser true 9 "k" 7
             initialSelector (Store.initialTab Store.working_browser)).
    right. cbn. intuition discriminate.
  - destruct (X20_predefined_choice Store.full_localStorage true 9 "k" 8
                initialSelector (Store.initialTab Store.full_localStorage))
      as (_ & H & _).
    destruct H as [_ H]; [reflexivity | cbn; tauto | exact H].
Defined.

(** ** The hook's sync on mount *)

(** X21. The effect that copies the fetched configuration into the store
    never replaces a configuration the store already has, changes nothing
    when run again, and does not change what the hook shows
    ([config || data]), in every browser. *)
Theorem X21_sync_on_mount_is_invisible
  (b b' : Store.Browser) (now now' : Z) (key key' : string)
  (data : option Store.DiceConfig) (t : Store.Tab) :
  let t' := fst (sync_on_mount b now key data t) in
  (Store.config (Store.store t) <> None ->
   sync_on_mount b now key data t = (t, Ok tt))
  /\ sync_on_mount b' now' key' data t' = (t', Ok tt)
  /\ shown_config data t' = shown_config data t
  /\ (data <> None -> Store.config (Store.store t') <> None).
Proof.
  intro t'. subst t'. unfold sync_on_mount, shown_config.
  destruct data as [d|]; destruct (Store.config (Store.store t)) as [c|] eqn:Hc;
    cbn [fst]; rewrite ?StoreFacts.store_setConfig; cbn [Store.config];
    rewrite ?Hc; repeat split; congruence.
Qed.

Lemma X21_sync_witness :
  sync_on_mount Store.working_browser 1 "a" (Some (Store.D 6))
    (Store.showing (Store.D 20) 0 "k")
  = (Store.showing (Store.D 20) 0 "k", Ok tt).
Proof.
  apply (proj1 (X21_sync_on_mount_is_invisible Store.working_browser
                  Store.working_browser 1 1 "a" "a" (Some (Store.D 6))
                  (Store.showing (Store.D 20) 0 "k"))).
  unfold Store.showing. rewrite StoreFacts.store_setConfig. discriminate.
Defined.

End ClientExtras.
